(** * Shallow embedding of the pptx-generation slide builder

    Sources embedded here:
    - [src/SlideBuilder.py]: the shape cache ([_build_shape_cache],
      [_get_shape]), the field writers ([_set_text], [_set_bullets],
      [_set_table_cell]), the output deck ([open_output], [save_output],
      [close_output], [copy_slide], [copy_slides]) and the fillers
      [fill_slide_type_title], [fill_slide_type_8], [fill_slide_type_11],
      [fill_slide_type_21], [fill_slide_type_22], [fill_slide_type_66] to
      [fill_slide_type_69], [fill_slide_type_81], [fill_slide_type_107] and
      [fill_slide_type_152];
    - [src/slide.py]: the deck assembly controller [_build_slide],
      [generate_slide] and [regenerate_slide];
    - [src/Summarise.py]: the saved reply and the trailing-comma
      normalisation of [summarise_document]
      ([re.sub(r',(\s*[}\]])', r'\1', ...)]), and the standard
      [json.loads] that [_get_response] applies to its result;
    - [src/gui.py]: the button states of [SlideGeneratorApp]
      ([_browse_file], [_generate], [_regenerate], [_set_buttons_state]).

    Text is modelled as Rocq strings of 8-bit characters, read as the
    Latin-1 code points of the Python [str]. *)

From Stdlib Require Import List String Ascii ZArith Lia Bool.
From Stdlib Require Import Numbers.DecimalString.
Set Warnings "-register-all".
Import ListNotations.

Open Scope string_scope.

(* ------------------------------------------------------------------ *)
(** ** Python helpers *)

(** Python's [str.lower()] restricted to Latin-1: A-Z and the accented
    capitals U+00C0..U+00DE (except U+00D7) map 32 code points up. *)
Definition lower_char (c : ascii) : ascii :=
  let n := nat_of_ascii c in
  if (Nat.leb 65 n && Nat.leb n 90)
     || (Nat.leb 192 n && Nat.leb n 222 && negb (Nat.eqb n 215))
  then ascii_of_nat (n + 32) else c.

Fixpoint lower (s : string) : string :=
  match s with
  | EmptyString => EmptyString
  | String c s' => String (lower_char c) (lower s')
  end.

Definition chr (n : nat) : ascii := ascii_of_nat n.
Definition nl : string := String (chr 10) EmptyString.

(** Line boundaries of [str.splitlines()] among Latin-1 code points:
    \n, \v, \f, \r, \x1c, \x1d, \x1e, \x85 ([\r\n] counts as one). *)
Definition is_line_break (c : ascii) : bool :=
  let n := nat_of_ascii c in
  (Nat.leb 10 n && Nat.leb n 13) || (Nat.leb 28 n && Nat.leb n 30) || Nat.eqb n 133.

Fixpoint splitlines_aux (s : string) (cur : string) : list string :=
  match s with
  | EmptyString => if String.eqb cur EmptyString then [] else [cur]
  | String c s' =>
      if Ascii.eqb c (chr 13) then
        match s' with
        | String c2 s'' =>
            if Ascii.eqb c2 (chr 10) then cur :: splitlines_aux s'' EmptyString
            else cur :: splitlines_aux s' EmptyString
        | EmptyString => [cur]
        end
      else if is_line_break c then cur :: splitlines_aux s' EmptyString
      else splitlines_aux s' (cur ++ String c EmptyString)
  end.

(** [str.splitlines()]: no trailing empty line, [""] gives [[]]. *)
Definition splitlines (s : string) : list string := splitlines_aux s EmptyString.

(** A Python [dict] with string keys, as an association list in insertion
    order; assignment to an existing key keeps its place. *)
Definition dict (V : Type) := list (string * V).

Fixpoint dict_get {V} (k : string) (d : dict V) : option V :=
  match d with
  | [] => None
  | (k', v) :: d' => if String.eqb k k' then Some v else dict_get k d'
  end.

Fixpoint dict_set {V} (k : string) (v : V) (d : dict V) : dict V :=
  match d with
  | [] => [(k, v)]
  | (k', v') :: d' =>
      if String.eqb k k' then (k', v) :: d' else (k', v') :: dict_set k v d'
  end.

Definition Z_to_string (x : Z) : string := NilEmpty.string_of_int (Z.to_int x).

(** Exceptions the embedded code can raise. [HostError] stands for a COM
    error raised by PowerPoint; its message is the host's. *)
Inductive py_error :=
| KeyError (key : string)
| IndexError
| ValueError (msg : string)
| HostError (operation : string).

Inductive result (A : Type) :=
| Ok (a : A)
| Err (e : py_error).
Arguments Ok {A} a.
Arguments Err {A} e.

(** State and exception monad: effects done before a raise are kept, as
    they are on the live COM objects. *)
Definition SE (S A : Type) := S -> result A * S.

Definition ret {S A} (a : A) : SE S A := fun s => (Ok a, s).
Definition bind {S A B} (m : SE S A) (k : A -> SE S B) : SE S B :=
  fun s => match m s with
           | (Ok a, s') => k a s'
           | (Err e, s') => (Err e, s')
           end.
Definition raise {S A} (e : py_error) : SE S A := fun s => (Err e, s).
Definition get {S} : SE S S := fun s => (Ok s, s).
Definition put {S} (s : S) : SE S unit := fun _ => (Ok tt, s).

Notation "x <- m ;; k" := (bind m (fun x => k))
  (at level 61, m at next level, right associativity).
Notation "m ;; k" := (bind m (fun _ => k))
  (at level 61, right associativity).

Fixpoint for_ {S A} (l : list A) (f : A -> SE S unit) : SE S unit :=
  match l with
  | [] => ret tt
  | x :: l' => f x ;; for_ l' f
  end.

(** [lst[i]] for [0 <= i]. *)
Definition py_index {S A} (l : list A) (i : nat) : SE S A :=
  match nth_error l i with
  | Some x => ret x
  | None => raise IndexError
  end.

(* ------------------------------------------------------------------ *)
(** ** Slides, shapes and the field writers *)

Inductive shape_kind :=
| KText (txt : string)                 (* HasTextFrame *)
| KTable (cells : list (list string))  (* HasTable; rows of cells *)
| KOther.

Record shape := mkShape { sh_name : string; sh_kind : shape_kind }.

(** A slide's shape collection in its iteration (z-) order; a shape
    handle is its position. *)
Definition slide := list shape.

(** One mutation of a shape, as logged by the writers. *)
Inductive write :=
| WText (pos : nat) (txt : string)
| WCell (pos : nat) (row col : Z) (txt : string).

Record fstate := mkF {
  fs_slide : slide;
  fs_cache : dict nat;
  fs_log : list write
}.

Fixpoint update_nth {A} (l : list A) (i : nat) (x : A) : list A :=
  match l, i with
  | [], _ => []
  | _ :: l', O => x :: l'
  | y :: l', S i' => y :: update_nth l' i' x
  end.

Fixpoint cache_of (sl : slide) (from : nat) (d : dict nat) : dict nat :=
  match sl with
  | [] => d
  | sh :: sl' => cache_of sl' (S from) (dict_set (lower (sh_name sh)) from d)
  end.

(** [_build_shape_cache]: [for shape in self.slide.Shapes:
    self._shape_cache[shape.Name.lower()] = shape]. *)
Definition _build_shape_cache : SE fstate unit :=
  fun st => (Ok tt, mkF (fs_slide st) (cache_of (fs_slide st) 0 []) (fs_log st)).

(** [_get_shape]: [self._shape_cache.get(name.lower())]. *)
Definition _get_shape (cache : dict nat) (name : string) : option nat :=
  dict_get (lower name) cache.

(** [_set_text]: writes only a resolved shape that has a text frame. *)
Definition _set_text (name : string) (text : string) : SE fstate unit :=
  fun st =>
    match _get_shape (fs_cache st) name with
    | Some i =>
        match nth_error (fs_slide st) i with
        | Some (mkShape n (KText _)) =>
            (Ok tt, mkF (update_nth (fs_slide st) i (mkShape n (KText text)))
                        (fs_cache st) (fs_log st ++ [WText i text]))
        | _ => (Ok tt, st)
        end
    | None => (Ok tt, st)
    end.

(** [Table.Cell(row, col)] is 1-based; out of range it throws, and the
    writer's [except: pass] swallows it. *)
Definition cell_index (z : Z) : option nat :=
  if (1 <=? z)%Z then Some (Z.to_nat (z - 1)) else None.

Definition set_cell (cells : list (list string)) (row col : Z) (text : string)
  : option (list (list string)) :=
  match cell_index row, cell_index col with
  | Some r, Some c =>
      match nth_error cells r with
      | Some rw =>
          match nth_error rw c with
          | Some _ => Some (update_nth cells r (update_nth rw c text))
          | None => None
          end
      | None => None
      end
  | _, _ => None
  end.

Definition _set_table_cell (name : string) (row col : Z) (text : string)
  : SE fstate unit :=
  fun st =>
    match _get_shape (fs_cache st) name with
    | Some i =>
        match nth_error (fs_slide st) i with
        | Some (mkShape n (KTable cells)) =>
            match set_cell cells row col text with
            | Some cells' =>
                (Ok tt, mkF (update_nth (fs_slide st) i (mkShape n (KTable cells')))
                            (fs_cache st) (fs_log st ++ [WCell i row col text]))
            | None => (Ok tt, st)
            end
        | _ => (Ok tt, st)
        end
    | None => (Ok tt, st)
    end.

(** [if key in content: body(content[key])]. *)
Definition if_in {S} (key : string) (content : dict string)
  (body : string -> SE S unit) : SE S unit :=
  match dict_get key content with
  | Some v => body v
  | None => ret tt
  end.

(** [msg += pre + content[key] + post] when [key in content]. *)
Definition add_if_in (key : string) (content : dict string) (pre post : string)
  (msg : string) : string :=
  match dict_get key content with
  | Some v => msg ++ pre ++ v ++ post
  | None => msg
  end.

(* ------------------------------------------------------------------ *)
(** ** Fillers of the slide-type dispatch table

    Each filler starts from the selected slide ([self.slide =
    self.presentation.Slides(index)]) with an empty log. *)

Definition fill_slide_type_title (title : string) : SE fstate unit :=
  _build_shape_cache ;;
  _set_text "Title 1" title.

(** The fan-out loop: [points = content[key].splitlines();
    for i in range(len(points)): self._set_text(zones[i], points[i])]. *)
Definition fan_out (zones : list string) (key : string) (content : dict string)
  : SE fstate unit :=
  if_in key content (fun v =>
    let points := splitlines v in
    for_ (seq 0 (List.length points)) (fun i =>
      z <- py_index zones i ;;
      p <- py_index points i ;;
      _set_text z p)).

Definition zones69_1 : list string :=
  ["ZoneTexte 77"; "ZoneTexte 78"; "ZoneTexte 80"; "ZoneTexte 86"; "ZoneTexte 86-2"].
Definition zones69_2 : list string :=
  ["ZoneTexte 47"; "ZoneTexte 48"; "ZoneTexte 49"; "ZoneTexte 50"; "ZoneTexte 50-2"].

Definition fill_slide_type_69 (title : string) (content : dict string)
  : SE fstate unit :=
  _build_shape_cache ;;
  _set_text "Title 5" title ;;
  if_in "pro" content (fun v => _set_text "ZoneTexte 71" v) ;;
  if_in "con" content (fun v => _set_text "ZoneTexte 72" v) ;;
  fan_out zones69_1 "detail_1" content ;;
  fan_out zones69_2 "detail_2" content.

(** [msg = ""; if "step_k" in content: msg += content["step_k"] + "\n";
    if "description_k" in content: msg += content["description_k"]]. *)
Definition step_msg (step desc : string) (content : dict string) : string :=
  add_if_in desc content "" "" (add_if_in step content "" nl "").

Definition fill_slide_type_81 (title : string) (content : dict string)
  : SE fstate unit :=
  _build_shape_cache ;;
  _set_text "Titre 1" title ;;
  _set_text "Rectangle 35" (step_msg "step_1" "description_1" content) ;;
  _set_text "Rectangle 36" (step_msg "step_2" "description_2" content) ;;
  _set_text "Rectangle 37" (step_msg "step_3" "description_3" content) ;;
  _set_text "Rectangle 38" (step_msg "step_4" "description_4" content) ;;
  _set_text "Rectangle 39" (step_msg "step_4" "description_4" content).

(** [msg = ""; if "idea_k" in content: msg += "k. " + content["idea_k"] + "\n";
    if "description_k" in content: msg += content["description_k"]]. *)
Definition numbered_msg (prefix idea desc : string) (content : dict string) : string :=
  add_if_in desc content "" "" (add_if_in idea content prefix nl "").

Definition fill_slide_type_107 (title : string) (content : dict string)
  : SE fstate unit :=
  _build_shape_cache ;;
  _set_text "Titre 1" title ;;
  _set_table_cell "Tableau 18" 2 1 (numbered_msg "1. " "idea_1" "description_1" content) ;;
  _set_table_cell "Tableau 18" 3 1 (numbered_msg "2. " "idea_2" "description_2" content) ;;
  if_in "pro_1" content (fun v => _set_table_cell "Tableau 18" 2 2 v) ;;
  if_in "con_1" content (fun v => _set_table_cell "Tableau 18" 2 3 v) ;;
  if_in "pro_2" content (fun v => _set_table_cell "Tableau 18" 3 2 v) ;;
  if_in "con_2" content (fun v => _set_table_cell "Tableau 18" 3 3 v).

(** Running a filler on a slide: the final result, slide and write log. *)
Definition run_fill (f : SE fstate unit) (sl : slide) : result unit * fstate :=
  f (mkF sl [] []).

(** Template slides as the fillers expect them, with arbitrary shipped text. *)
Definition row3 : list string := ["a"; "b"; "c"].
Definition tpl107 : slide :=
  [mkShape "Titre 1" (KText "T"); mkShape "Tableau 18" (KTable [row3; row3; row3])].
Definition tpl69 : slide :=
  mkShape "Title 5" (KText "T")
  :: map (fun z => mkShape z (KText "z")) (zones69_1 ++ zones69_2).
Definition tpl81 : slide :=
  map (fun z => mkShape z (KText "z"))
    ["Titre 1"; "Rectangle 35"; "Rectangle 36"; "Rectangle 37"; "Rectangle 38"; "Rectangle 39"].

Example ex107 :
  fs_log (snd (run_fill (fill_slide_type_107 "X"
     [("idea_1", "Reduce cost"); ("description_1", "via automation")]) tpl107))
  = [WText 0 "X"; WCell 1 2 1 ("1. Reduce cost" ++ nl ++ "via automation"); WCell 1 3 1 ""].
Proof. reflexivity. Qed.

Example ex69 :
  fs_log (snd (run_fill (fill_slide_type_69 "X"
     [("detail_1", "A" ++ nl ++ "B" ++ nl ++ "C")]) tpl69))
  = [WText 0 "X"; WText 1 "A"; WText 2 "B"; WText 3 "C"].
Proof. reflexivity. Qed.

(* ------------------------------------------------------------------ *)
(** ** The deck assembly controller ([src/slide.py], [_build_slide])

    A content plan is the parsed JSON dict; each key may be missing. *)

Record entry := mkEntry {
  e_slide_index : option Z;
  e_slide_title : option string;
  e_slots : option (dict string)
}.

Record plan := mkPlan {
  p_presentation_title : option string;
  p_slides : option (list entry)
}.

(** Host-side events, in the order they happen. *)
Inductive event :=
| EvCreateBlank                  (* output deck written, emptied *)
| EvCopy (lib_pos : Z)           (* one library slide pasted *)
| EvFillTitle
| EvFill (index : nat) (id : Z)  (* filler of type [id] invoked on slide [index] *)
| EvSave
| EvClose
| EvQuit.

(** [disk]: the output file; [pres]: the builder's [self.presentation]. *)
Record host := mkHost {
  disk : option (list slide);
  pres : option (list slide);
  trace : list event
}.

(** The ids [n] for which [SlideBuilder] defines [fill_slide_type_n]; the
    methods for 154 to 188 are commented out in the source, so [hasattr]
    is false for them. *)
Definition filler_ids : list Z :=
  [4;5;6;7;8;9;10;11;12;13;15;16;17;18;19;20;21;22;24;25;
   47;48;49;50;51;52;53;54;55;56;57;58;59;60;61;62;63;64;65;66;67;68;69;
   71;72;73;74;75;76;77;78;79;80;81;83;84;85;86;87;88;89;90;91;92;93;95;96;
   100;101;102;103;104;105;106;107;108;109;110;112;113;115;116;117;118;119;
   120;121;122;123;124;125;126;127;128;129;130;131;135;136;137;138;139;
   143;144;145;146;147;148;149;150;151;152]%Z.

(** [hasattr(builder, f"fill_slide_type_{slide_index}")]. *)
Definition has_filler (id : Z) : bool := existsb (Z.eqb id) filler_ids.

Definition key {S A} (k : string) (o : option A) : SE S A :=
  match o with
  | Some a => ret a
  | None => raise (KeyError k)
  end.

Definition emit (ev : event) : SE host unit :=
  fun h => (Ok tt, mkHost (disk h) (pres h) (trace h ++ [ev])%list).

Section Controller.

(** The library deck's slides, in order. *)
Variable library : list slide.
(** The bodies of the dispatch table's fillers, by slide-type id. *)
Variable filler_body : Z -> string -> dict string -> SE fstate unit.

(** [create_blank]: open the library, delete all its slides, save it as
    the output file. *)
Definition create_blank : SE host unit :=
  fun h => (Ok tt, mkHost (Some []) (pres h) (trace h ++ [EvCreateBlank])%list).

Definition open_output : SE host unit :=
  fun h =>
    match pres h with
    | Some _ => (Ok tt, h)
    | None =>
        match disk h with
        | Some d => (Ok tt, mkHost (disk h) (Some d) (trace h))
        | None => (Err (HostError "Presentations.Open"), h)
        end
    end.

Definition save_output : SE host unit :=
  fun h =>
    match pres h with
    | Some d => (Ok tt, mkHost (Some d) (pres h) (trace h ++ [EvSave])%list)
    | None => (Ok tt, h)
    end.

Definition close_output : SE host unit :=
  fun h => (Ok tt, mkHost (disk h) None (trace h ++ [EvClose])%list).

(** [library_pres.Slides(slide_index + 1).Copy()] then paste at the end. *)
Definition paste_library_slide (k : Z) : SE host unit :=
  fun h =>
    match pres h with
    | Some d =>
        if (0 <=? k)%Z then
          match nth_error library (Z.to_nat k) with
          | Some sl => (Ok tt, mkHost (disk h) (Some (d ++ [sl])%list) (trace h ++ [EvCopy k])%list)
          | None => (Err (HostError "Slides"), h)
          end
        else (Err (HostError "Slides"), h)
    | None => (Err (HostError "Presentation"), h)
    end.

Definition copy_slides (ks : list Z) : SE host unit :=
  open_output ;;
  for_ ks paste_library_slide ;;
  save_output.

(** [self.slide = self.presentation.Slides(index)] and the filler body run
    on it; the slide's shapes are mutated in place, also on a raise. *)
Definition fill_at (index : nat) (ev : event) (f : SE fstate unit) : SE host unit :=
  fun h =>
    match pres h with
    | Some d =>
        match nth_error d (index - 1), index with
        | Some sl, S _ =>
            let (r, st) := f (mkF sl [] []) in
            (r, mkHost (disk h) (Some (update_nth d (index - 1) (fs_slide st)))
                       (trace h ++ [ev])%list)
        | _, _ => (Err (HostError "Slides"), h)
        end
    | None => (Err (HostError "Presentation"), h)
    end.

Definition unknown_type_msg (id : Z) : string :=
  "Unknown Slide Type: " ++ Z_to_string id.

(** One iteration of [for i in range(len(slides))], at [index = i + 2]. *)
Definition fill_entry (index : nat) (e : entry) : SE host unit :=
  id <- key "slide_index" (e_slide_index e) ;;
  if has_filler id then
    t <- key "slide_title" (e_slide_title e) ;;
    sl <- key "slots" (e_slots e) ;;
    fill_at index (EvFill index id) (filler_body id t sl) ;;
    save_output
  else raise (ValueError (unknown_type_msg id)).

Fixpoint fill_loop (index : nat) (es : list entry) : SE host unit :=
  match es with
  | [] => ret tt
  | e :: es' => fill_entry index e ;; fill_loop (S index) es'
  end.

(** [slides_to_copy = [0] + [slide["slide_index"]-1 for slide in slides]]. *)
Fixpoint copy_indices (es : list entry) : SE host (list Z) :=
  match es with
  | [] => ret []
  | e :: es' =>
      id <- key "slide_index" (e_slide_index e) ;;
      ks <- copy_indices es' ;;
      ret ((id - 1)%Z :: ks)
  end.

Definition _build_slide (data : plan) : SE host unit :=
  presentation_title <- key "presentation_title" (p_presentation_title data) ;;
  slides <- key "slides" (p_slides data) ;;
  (* builder = SlideBuilder(library_path, output_path) *)
  (fun h => (Ok tt, mkHost (disk h) None (trace h))) ;;
  create_blank ;;
  ks <- copy_indices slides ;;
  copy_slides (0%Z :: ks) ;;
  fill_at 1 EvFillTitle (fill_slide_type_title presentation_title) ;;
  save_output ;;
  fill_loop 2 slides ;;
  close_output ;;
  emit EvQuit.

End Controller.

(** The library positions pasted, in order, read off a trace. *)
Fixpoint copied (tr : list event) : list Z :=
  match tr with
  | [] => []
  | EvCopy k :: tr' => k :: copied tr'
  | _ :: tr' => copied tr'
  end.

(** The filler invocations, in order, read off a trace. *)
Fixpoint fills (tr : list event) : list (nat * Z) :=
  match tr with
  | [] => []
  | EvFill i id :: tr' => (i, id) :: fills tr'
  | _ :: tr' => fills tr'
  end.

(* ------------------------------------------------------------------ *)
(** ** The trailing-comma normalisation ([src/Summarise.py])

    [re.sub(r',(\s*[}\]])', r'\1', text)] on the model's reply, a list of
    Latin-1 characters. *)

Open Scope list_scope.

Definition payload := list ascii.

(** [\s] of a [str] pattern on Latin-1: [\t\n\v\f\r], [\x1c-\x1f], space,
    [\x85] and [\xa0]. *)
Definition is_py_space (c : ascii) : bool :=
  let n := nat_of_ascii c in
  (Nat.leb 9 n && Nat.leb n 13) || (Nat.leb 28 n && Nat.leb n 32)
  || Nat.eqb n 133 || Nat.eqb n 160.

(** [[}\]]]. *)
Definition is_close (c : ascii) : bool :=
  Ascii.eqb c "}"%char || Ascii.eqb c "]"%char.

(** Matching [(\s*[}\]])] at the start of [s]: the group and what follows.
    [\s*] backtracks, but no [\s] character is a bracket, so the only
    possible end of the group is the first non-[\s] character. *)
Fixpoint match_group (s : payload) : option (payload * payload) :=
  match s with
  | [] => None
  | c :: s' =>
      if is_close c then Some ([c], s')
      else if is_py_space c then
        match match_group s' with
        | Some (g, r) => Some (c :: g, r)
        | None => None
        end
      else None
  end.

(** [re.sub] scans left to right; at a match it emits the replacement
    [\1] and resumes after the match, otherwise it copies one character.
    [fuel] bounds the scan by the length of the text. *)
Fixpoint re_sub_fuel (fuel : nat) (s : payload) : payload :=
  match fuel with
  | O => s
  | S fuel' =>
      match s with
      | [] => []
      | c :: s' =>
          if Ascii.eqb c ","%char then
            match match_group s' with
            | Some (g, r) => g ++ re_sub_fuel fuel' r
            | None => c :: re_sub_fuel fuel' s'
            end
          else c :: re_sub_fuel fuel' s'
      end
  end.

Definition cleaned_response (s : payload) : payload := re_sub_fuel (List.length s) s.

(** The same substitution as a one-pass filter: a comma is dropped exactly
    when the characters after it are [\s*] and then a bracket. *)
Fixpoint closes (s : payload) : bool :=
  match s with
  | [] => false
  | c :: s' => if is_close c then true else if is_py_space c then closes s' else false
  end.

Fixpoint clean (s : payload) : payload :=
  match s with
  | [] => []
  | c :: s' => if Ascii.eqb c ","%char && closes s' then clean s' else c :: clean s'
  end.

(* ------------------------------------------------------------------ *)
(** ** [json.loads] (the default decoder, [strict=True])

    [json_parse true] additionally accepts one trailing comma before the
    closing bracket of a non-empty array or object: the "valid JSON except
    for trailing commas" of the content-plan producer. *)

Inductive jv :=
| JNull
| JBool (b : bool)
| JInt (z : Z)
| JFloat (lexeme : payload)
| JStr (s : list N)
| JArr (l : list jv)
| JObj (m : list (list N * jv)).

Definition code (c : ascii) : N := N.of_nat (nat_of_ascii c).

Definition c_quote : ascii := chr 34.
Definition c_bslash : ascii := chr 92.

(** The one-character escapes after a backslash: quote, backslash, slash,
    b, f, n, r, t. *)
Definition simple_escape (e : ascii) : option N :=
  match nat_of_ascii e with
  | 34 => Some 34%N | 92 => Some 92%N | 47 => Some 47%N | 98 => Some 8%N
  | 102 => Some 12%N | 110 => Some 10%N | 114 => Some 13%N | 116 => Some 9%N
  | _ => None
  end.

Definition hex_val (c : ascii) : option N :=
  let n := nat_of_ascii c in
  if Nat.leb 48 n && Nat.leb n 57 then Some (N.of_nat (n - 48))
  else if Nat.leb 97 n && Nat.leb n 102 then Some (N.of_nat (n - 87))
  else if Nat.leb 65 n && Nat.leb n 70 then Some (N.of_nat (n - 55))
  else None.

Definition hex4 (h1 h2 h3 h4 : ascii) : option N :=
  match hex_val h1, hex_val h2, hex_val h3, hex_val h4 with
  | Some a, Some b, Some c, Some d => Some (((a * 16 + b) * 16 + c) * 16 + d)%N
  | _, _, _, _ => None
  end.

(** A [\uD800-\uDBFF] escape directly followed by a [\uDC00-\uDFFF] escape
    is one code point. Raw Latin-1 characters are never surrogates, so
    pairing adjacent surrogates of the decoded text is the decoder's rule. *)
Fixpoint combine_surrogates (l : list N) : list N :=
  match l with
  | [] => []
  | x :: t =>
      match t with
      | y :: r =>
          if (N.leb 55296 x && N.leb x 56319 && N.leb 56320 y && N.leb y 57343)%N
          then (65536 + (x - 55296) * 1024 + (y - 56320))%N :: combine_surrogates r
          else x :: combine_surrogates t
      | [] => [x]
      end
  end.

(** [scanstring] after the opening quote: the decoded text and the rest
    after the closing quote. Control characters are refused. *)
Fixpoint scan_chars (s : payload) (acc : list N) : option (list N * payload) :=
  match s with
  | [] => None
  | c :: s1 =>
      if Ascii.eqb c c_quote then Some (combine_surrogates (rev acc), s1)
      else if Ascii.eqb c c_bslash then
        match s1 with
        | [] => None
        | e :: s2 =>
            match simple_escape e with
            | Some n => scan_chars s2 (n :: acc)
            | None =>
                if Ascii.eqb e "u"%char then
                  match s2 with
                  | h1 :: h2 :: h3 :: h4 :: s3 =>
                      match hex4 h1 h2 h3 h4 with
                      | Some n => scan_chars s3 (n :: acc)
                      | None => None
                      end
                  | _ => None
                  end
                else None
            end
        end
      else if Nat.ltb (nat_of_ascii c) 32 then None
      else scan_chars s1 (code c :: acc)
  end.

Definition is_digit (c : ascii) : bool :=
  Nat.leb 48 (nat_of_ascii c) && Nat.leb (nat_of_ascii c) 57.

(** JSON whitespace for the decoder: space, tab, newline, carriage return. *)
Definition is_json_ws (c : ascii) : bool :=
  match nat_of_ascii c with 32 | 9 | 10 | 13 => true | _ => false end.

Fixpoint skip_ws (s : payload) : payload :=
  match s with
  | [] => []
  | c :: s' => if is_json_ws c then skip_ws s' else s
  end.

Fixpoint take_digits (s : payload) : payload * payload :=
  match s with
  | [] => ([], [])
  | c :: s' =>
      if is_digit c then let (ds, r) := take_digits s' in (c :: ds, r) else ([], s)
  end.

Definition digits_value (ds : payload) : Z :=
  fold_left (fun z c => z * 10 + Z.of_nat (nat_of_ascii c - 48))%Z ds 0%Z.

(** The integer part: an optional minus, then 0 or a non-zero digit and
    more digits. *)
Definition int_part (s : payload) : option (payload * payload) :=
  match s with
  | [] => None
  | c :: t =>
      if Ascii.eqb c "0"%char then Some ([c], t)
      else if is_digit c then let (ds, r) := take_digits t in Some (c :: ds, r)
      else None
  end.

(** The optional fraction: a dot and at least one digit. *)
Definition frac_part (s : payload) : payload * payload :=
  match s with
  | c :: d :: t =>
      if Ascii.eqb c "."%char && is_digit d then
        let (ds, r) := take_digits t in (c :: d :: ds, r)
      else ([], s)
  | _ => ([], s)
  end.

(** The optional exponent: e or E, an optional sign, at least one digit. *)
Definition exp_part (s : payload) : payload * payload :=
  match s with
  | [] => ([], [])
  | c :: t =>
      if Ascii.eqb c "e"%char || Ascii.eqb c "E"%char then
        let (sg, t1) :=
          match t with
          | x :: t' => if Ascii.eqb x "+"%char || Ascii.eqb x "-"%char
                       then ([x], t') else ([], t)
          | [] => ([], [])
          end in
        match take_digits t1 with
        | ([], _) => ([], s)
        | (ds, t2) => (c :: sg ++ ds, t2)
        end
      else ([], s)
  end.

(** [match_number]: an [int] without fraction and exponent, else a
    [float], kept as its lexeme. *)
Definition scan_number (s : payload) : option (jv * payload) :=
  let (sign, s1) :=
    match s with
    | c :: t => if Ascii.eqb c "-"%char then ([c], t) else ([], s)
    | [] => ([], [])
    end in
  match int_part s1 with
  | None => None
  | Some (ip, r1) =>
      let (fr, r2) := frac_part r1 in
      let (ex, r3) := exp_part r2 in
      match fr, ex with
      | [], [] =>
          Some (JInt (if Ascii.eqb (hd "+"%char sign) "-"%char
                      then (- digits_value ip)%Z else digits_value ip), r3)
      | _, _ => Some (JFloat (sign ++ ip ++ fr ++ ex), r3)
      end
  end.

Fixpoint strip_prefix (lit s : payload) : option payload :=
  match lit with
  | [] => Some s
  | x :: lit' =>
      match s with
      | c :: s' => if Ascii.eqb x c then strip_prefix lit' s' else None
      | [] => None
      end
  end.

Definition lit (s : string) : payload := list_ascii_of_string s.

(** The scanner's order after the bracket cases: [null], [true], [false],
    a number, [NaN], [Infinity], [-Infinity]. *)
Definition scan_scalar (s : payload) : option (jv * payload) :=
  match strip_prefix (lit "null") s with Some r => Some (JNull, r) | None =>
  match strip_prefix (lit "true") s with Some r => Some (JBool true, r) | None =>
  match strip_prefix (lit "false") s with Some r => Some (JBool false, r) | None =>
  match scan_number s with Some x => Some x | None =>
  match strip_prefix (lit "NaN") s with Some r => Some (JFloat (lit "NaN"), r) | None =>
  match strip_prefix (lit "Infinity") s with Some r => Some (JFloat (lit "Infinity"), r) | None =>
  match strip_prefix (lit "-Infinity") s with Some r => Some (JFloat (lit "-Infinity"), r) | None =>
    None
  end end end end end end end.

Definition peek_eq (c : ascii) (s : payload) : bool :=
  match s with
  | x :: _ => Ascii.eqb x c
  | [] => false
  end.

(** [dict(pairs)]: a repeated key keeps its first place and its last value. *)
Fixpoint jset (k : list N) (v : jv) (d : list (list N * jv)) : list (list N * jv) :=
  match d with
  | [] => [(k, v)]
  | (k', v') :: d' =>
      if list_eq_dec N.eq_dec k k' then (k', v) :: d' else (k', v') :: jset k v d'
  end.

Definition pairs_to_dict (pairs : list (list N * jv)) : list (list N * jv) :=
  fold_left (fun d kv => jset (fst kv) (snd kv) d) pairs [].

Section Containers.

Variable tc : bool.
(** The value parser used for the elements. *)
Variable pv : payload -> option (jv * payload).

(** [JSONArray] from its first element on; [g] bounds the iterations. *)
Fixpoint arr_loop (g : nat) (acc : list jv) (s : payload) : option (jv * payload) :=
  match g with
  | O => None
  | S g' =>
      match pv s with
      | None => None
      | Some (v, r) =>
          match skip_ws r with
          | c :: r' =>
              if Ascii.eqb c "]"%char then Some (JArr (rev (v :: acc)), r')
              else if Ascii.eqb c ","%char then
                let r'' := skip_ws r' in
                if tc && peek_eq "]"%char r'' then Some (JArr (rev (v :: acc)), tl r'')
                else arr_loop g' (v :: acc) r''
              else None
          | [] => None
          end
      end
  end.

(** [JSONObject] from just after the opening quote of a key. *)
Fixpoint obj_loop (g : nat) (acc : list (list N * jv)) (s : payload)
  : option (jv * payload) :=
  match g with
  | O => None
  | S g' =>
      match scan_chars s [] with
      | None => None
      | Some (k, r) =>
          match skip_ws r with
          | c :: r1 =>
              if Ascii.eqb c ":"%char then
                match pv (skip_ws r1) with
                | None => None
                | Some (v, r2) =>
                    match skip_ws r2 with
                    | d :: r3 =>
                        if Ascii.eqb d "}"%char then
                          Some (JObj (pairs_to_dict (rev ((k, v) :: acc))), r3)
                        else if Ascii.eqb d ","%char then
                          match skip_ws r3 with
                          | e :: r4 =>
                              if Ascii.eqb e c_quote then obj_loop g' ((k, v) :: acc) r4
                              else if tc && Ascii.eqb e "}"%char then
                                Some (JObj (pairs_to_dict (rev ((k, v) :: acc))), r4)
                              else None
                          | [] => None
                          end
                        else None
                    | [] => None
                    end
                end
              else None
          | [] => None
          end
      end
  end.

End Containers.

(** [scan_once]; [f] bounds the nesting depth and each container's
    length. *)
Fixpoint parse_value (tc : bool) (f : nat) (s : payload) : option (jv * payload) :=
  match f with
  | O => None
  | S f' =>
      match s with
      | [] => None
      | c :: s1 =>
          if Ascii.eqb c c_quote then
            match scan_chars s1 [] with
            | Some (str, r) => Some (JStr str, r)
            | None => None
            end
          else if Ascii.eqb c "{"%char then
            match skip_ws s1 with
            | d :: s3 =>
                if Ascii.eqb d "}"%char then Some (JObj [], s3)
                else if Ascii.eqb d c_quote then obj_loop tc (parse_value tc f') f' [] s3
                else None
            | [] => None
            end
          else if Ascii.eqb c "["%char then
            let s2 := skip_ws s1 in
            if peek_eq "]"%char s2 then Some (JArr [], tl s2)
            else arr_loop tc (parse_value tc f') f' [] s2
          else scan_scalar s
      end
  end.

(** [json.loads]: whitespace, one value, whitespace, end of text. Every
    level of nesting and every element consumes a character, so the length
    of the text plus one is enough fuel. *)
Definition json_parse (tc : bool) (s : payload) : option jv :=
  match parse_value tc (S (List.length s)) (skip_ws s) with
  | Some (v, r) => match skip_ws r with [] => Some v | _ => None end
  | None => None
  end.

Definition json_loads (s : payload) : option jv := json_parse false s.

(** Writing payloads in Rocq strings: an apostrophe stands for a double
    quote. *)
Definition jlit (s : string) : payload :=
  map (fun c => if Ascii.eqb c (chr 39) then c_quote else c) (lit s).

Definition jkey (s : string) : list N := map code (lit s).

Example ex_loads :
  json_loads (jlit "{'a': [1, -2.5e3, true, null], 'b': 'x\u00e9'}")
  = Some (JObj [(jkey "a", JArr [JInt 1; JFloat (lit "-2.5e3"); JBool true; JNull]);
                (jkey "b", JStr [120; 233]%N)]).
Proof. vm_compute. reflexivity. Qed.

Example ex_trailing :
  json_loads (jlit "{'a': 1,}") = None
  /\ json_parse true (jlit "{'a': 1,}") = Some (JObj [(jkey "a", JInt 1)])
  /\ json_loads (cleaned_response (jlit "{'a': 1,}")) = Some (JObj [(jkey "a", JInt 1)]).
Proof. vm_compute. auto. Qed.

(* ------------------------------------------------------------------ *)
(** ** More fillers of the dispatch table ([src/SlideBuilder.py]) *)

Open Scope string_scope.

(** [content[k]]: raises [KeyError(k)] when [k] is missing. *)
Definition getitem {S} (content : dict string) (k : string) : SE S string :=
  key k (dict_get k content).

(** [k in content]. *)
Definition in_dict (k : string) (content : dict string) : bool :=
  match dict_get k content with Some _ => true | None => false end.

Definition fill_slide_type_8 (title : string) (content : dict string)
  : SE fstate unit :=
  _build_shape_cache ;;
  _set_text "Titre 1" title ;;
  if_in "summary_title_1" content (fun v => _set_text "ZoneTexte 4" v) ;;
  if_in "summary_title_2" content (fun v => _set_text "ZoneTexte 6" v) ;;
  if_in "zonetexte_8" content (fun v => _set_text "ZoneTexte 8" v) ;;
  if_in "source_1" content (fun v => _set_text "ZoneTexte 6" v) ;;
  if_in "source_2" content (fun v => _set_text "ZoneTexte 10" v).

Definition fill_slide_type_11 (title : string) (content : dict string)
  : SE fstate unit :=
  _build_shape_cache ;;
  _set_text "Titre 1" title ;;
  if_in "cause_1" content (fun v => _set_text "Rectangle 7" v) ;;
  if_in "conclusion_1" content (fun v => _set_text "Rectangle 8" v) ;;
  if_in "consequence_1" content (fun v => _set_text "ZoneTexte 32" v) ;;
  if_in "cause_2" content (fun v => _set_text "Rectangle 13" v) ;;
  if_in "conclusion_2" content (fun v => _set_text "Rectangle 10" v) ;;
  if_in "consequence_2" content (fun v => _set_text "ZoneTexte 32" v) ;;
  if_in "cause_3" content (fun v => _set_text "Rectangle 14" v) ;;
  if_in "conclusion_3" content (fun v => _set_text "Rectangle 12" v) ;;
  if_in "consequence_3" content (fun v => _set_text "ZoneTexte 32" v) ;;
  if_in "benefit" content (fun v => _set_text "Ellipse 17" v).

(** The [role_5] slot reads [content["rol5_4"]]. *)
Definition fill_slide_type_21 (title : string) (content : dict string)
  : SE fstate unit :=
  _build_shape_cache ;;
  _set_text "Title 1" title ;;
  if_in "key_message" content (fun v => _set_text "Content Placeholder 12" v) ;;
  if_in "name_1" content (fun v => _set_text "Rectangle 16" v) ;;
  if_in "role_1" content (fun v => _set_text "Rectangle 19" v) ;;
  if_in "name_2" content (fun v => _set_text "Rectangle 16-2" v) ;;
  if_in "role_2" content (fun v => _set_text "Rectangle 19-2" v) ;;
  if_in "name_3" content (fun v => _set_text "Rectangle 16-3" v) ;;
  if_in "role_3" content (fun v => _set_text "Rectangle 19-3" v) ;;
  if_in "name_4" content (fun v => _set_text "Rectangle 11" v) ;;
  if_in "role_4" content (fun v => _set_text "Rectangle 19-4" v) ;;
  if_in "name_5" content (fun v => _set_text "Rectangle 16-5" v) ;;
  if_in "role_5" content (fun _ =>
    v <- getitem content "rol5_4" ;; _set_text "Rectangle 19-5" v) ;;
  if_in "name_6" content (fun v => _set_text "Rectangle 18" v) ;;
  if_in "role_6" content (fun v => _set_text "Rectangle 19-6" v).

(** [info = ""; if "title_k" in content: info += content["title_k"];
    if "role_k" in content: info += content["role_k"];
    if "expertise_k" in content: info += content["expertise_k"]]. *)
Definition info_msg (t r e : string) (content : dict string) : string :=
  add_if_in e content "" "" (add_if_in r content "" "" (add_if_in t content "" "" "")).

(** The fourth person's info tests ["title4"] and reads
    [content["title_4"]]. *)
Definition fill_slide_type_22 (title : string) (content : dict string)
  : SE fstate unit :=
  _build_shape_cache ;;
  _set_text "Titre 1" title ;;
  if_in "name_1" content (fun v => _set_text "Rectangle 11" v) ;;
  _set_text "Rectangle 19" (info_msg "title_1" "role_1" "expertise_1" content) ;;
  if_in "name_2" content (fun v => _set_text "Rectangle 30" v) ;;
  _set_text "Rectangle 19-2" (info_msg "title_2" "role_2" "expertise_2" content) ;;
  if_in "name_3" content (fun v => _set_text "Rectangle 31" v) ;;
  _set_text "Rectangle 19-3" (info_msg "title_3" "role_3" "expertise_3" content) ;;
  if_in "name_4" content (fun v => _set_text "Rectangle 32" v) ;;
  info_4 <- (if in_dict "title4" content
             then v <- getitem content "title_4" ;; ret ("" ++ v)
             else ret "") ;;
  _set_text "Rectangle 20"
    (add_if_in "expertise_4" content "" "" (add_if_in "role_4" content "" "" info_4)).

(** The [cause_2] slot of types 66, 67 and 68 reads [content["cause_1"]]. *)
Definition fill_slide_type_66 (title : string) (content : dict string)
  : SE fstate unit :=
  _build_shape_cache ;;
  _set_text "Title 1" title ;;
  if_in "cause_1" content (fun v => _set_text "Content Placeholder 4-1c" v) ;;
  if_in "result_1" content (fun v => _set_text "Content Placeholder 4-1r" v) ;;
  if_in "cause_2" content (fun _ =>
    v <- getitem content "cause_1" ;; _set_text "Content Placeholder 4-2c" v) ;;
  if_in "result_2" content (fun v => _set_text "Content Placeholder 4-2r" v) ;;
  if_in "cause_3" content (fun v => _set_text "Content Placeholder 4-3c" v) ;;
  if_in "result_3" content (fun v => _set_text "Content Placeholder 4-3r" v) ;;
  if_in "cause_4" content (fun v => _set_text "Content Placeholder 4-4c" v) ;;
  if_in "result_4" content (fun v => _set_text "Content Placeholder 4-4r" v).

Definition fill_slide_type_67 (title : string) (content : dict string)
  : SE fstate unit :=
  _build_shape_cache ;;
  _set_text "Title 1" title ;;
  if_in "cause_1" content (fun v => _set_text "Content Placeholder 4-1c" v) ;;
  if_in "result_1" content (fun v => _set_text "Content Placeholder 4-1r" v) ;;
  if_in "cause_2" content (fun _ =>
    v <- getitem content "cause_1" ;; _set_text "Content Placeholder 4-2c" v) ;;
  if_in "result_2" content (fun v => _set_text "Content Placeholder 4-2r" v) ;;
  if_in "cause_3" content (fun v => _set_text "Content Placeholder 4-3c" v) ;;
  if_in "result_3" content (fun v => _set_text "Content Placeholder 4-3r" v).

Definition fill_slide_type_68 (title : string) (content : dict string)
  : SE fstate unit :=
  _build_shape_cache ;;
  _set_text "Title 1" title ;;
  if_in "cause_1" content (fun v => _set_text "Content Placeholder 4-1c" v) ;;
  if_in "result_1" content (fun v => _set_text "Content Placeholder 4-1r" v) ;;
  if_in "cause_2" content (fun _ =>
    v <- getitem content "cause_1" ;; _set_text "Content Placeholder 4-2c" v) ;;
  if_in "result_2" content (fun v => _set_text "Content Placeholder 4-2r" v).

(** [if "a" in content and "b" in content: body]. *)
Definition if_both {S} (a b : string) (content : dict string) (body : SE S unit)
  : SE S unit :=
  if in_dict a content && in_dict b content then body else ret tt.

(** The second slot is guarded by [success_key_2] and reads
    [content["success_key_1"]]. *)
Definition fill_slide_type_152 (title : string) (content : dict string)
  : SE fstate unit :=
  _build_shape_cache ;;
  _set_text "Titre 1" title ;;
  if_both "success_key_1" "description_1" content
    (k <- getitem content "success_key_1" ;; d <- getitem content "description_1" ;;
     _set_text "Rectangle 24" (k ++ nl ++ d)) ;;
  if_both "success_key_2" "description_2" content
    (k <- getitem content "success_key_1" ;; d <- getitem content "description_2" ;;
     _set_text "Rectangle 25" (k ++ nl ++ d)) ;;
  if_both "success_key_3" "description_3" content
    (k <- getitem content "success_key_3" ;; d <- getitem content "description_3" ;;
     _set_text "Rectangle 26" (k ++ nl ++ d)) ;;
  if_both "success_key_4" "description_4" content
    (k <- getitem content "success_key_4" ;; d <- getitem content "description_4" ;;
     _set_text "Rectangle 27" (k ++ nl ++ d)).

(** ["\n".join(str(item) for item in items)] on a list of strings. *)
Fixpoint join_nl (items : list string) : string :=
  match items with
  | [] => ""
  | [x] => x
  | x :: rest => x ++ nl ++ join_nl rest
  end.

(** [_set_bullets]: the same text write as [_set_text] with the joined
    items. Its second step, making each paragraph's bullet visible inside
    [try: ... except: pass], changes formatting only, which the shape
    model does not record. *)
Definition _set_bullets (name : string) (items : list string) : SE fstate unit :=
  _set_text name (join_nl items).

(* ------------------------------------------------------------------ *)
(** ** [copy_slide] and the return value of [copy_slides]

    The library presentation is opened read-only and closed in the
    [finally] clause; it is the [library] argument. *)

(** [self.presentation.Slides.Count]. *)
Definition slide_count : SE host nat :=
  fun h =>
    match pres h with
    | Some d => (Ok (List.length d), h)
    | None => (Err (HostError "Presentation"), h)
    end.

(** [copy_slide(slide_index)]: the 1-based index of the new slide, read as
    [Count + 1] before the paste. *)
Definition copy_slide (library : list slide) (k : Z) : SE host nat :=
  open_output ;;
  n <- slide_count ;;
  paste_library_slide library k ;;
  save_output ;;
  ret (S n).

(** The loop of [copy_slides], collecting [new_slide_indices]. *)
Fixpoint paste_each (library : list slide) (ks : list Z) : SE host (list nat) :=
  match ks with
  | [] => ret []
  | k :: ks' =>
      n <- slide_count ;;
      paste_library_slide library k ;;
      rest <- paste_each library ks' ;;
      ret (S n :: rest)
  end.

(** [copy_slides(slide_indices)] with its return value. *)
Definition copy_slides_indices (library : list slide) (ks : list Z)
  : SE host (list nat) :=
  open_output ;;
  idx <- paste_each library ks ;;
  save_output ;;
  ret idx.

(* ------------------------------------------------------------------ *)
(** ** [generate_slide], [regenerate_slide] and the saved response
    ([src/slide.py], [src/Summarise.py])

    The model's reply is the [message.content] the chat completion
    returns; the API call and the document conversion are outside the
    embedding. *)

(** [f.write(text)] on a file opened in text mode on Windows, the only
    platform the builder runs on: each \n is written as \r\n. *)
Fixpoint write_text (s : payload) : payload :=
  match s with
  | [] => []
  | c :: s' =>
      if Ascii.eqb c (chr 10) then chr 13 :: chr 10 :: write_text s'
      else c :: write_text s'
  end.

(** [f.read()] in text mode with universal newlines: \r\n and a lone \r
    are read as \n. *)
Fixpoint read_text (s : payload) : payload :=
  match s with
  | [] => []
  | c :: s' =>
      if Ascii.eqb c (chr 13) then
        match s' with
        | c2 :: s'' =>
            if Ascii.eqb c2 (chr 10) then chr 10 :: read_text s''
            else chr 10 :: read_text s'
        | [] => [chr 10]
        end
      else c :: read_text s'
  end.

(** [summarise_document]: the text it writes to [response.txt] (the raw
    reply) and the text it returns (the reply after [re.sub]). *)
Definition summarise_document (reply : payload) : payload * payload :=
  (write_text reply, cleaned_response reply).

(** Python truthiness of [os.getenv(...)]: [None] and [""] are false. *)
Definition truthy (o : option string) : bool :=
  match o with
  | Some s => negb (String.eqb s "")
  | None => false
  end.

Inductive gen_outcome :=
| GenRaised (msg : string)   (* [raise Exception(msg)] before the model is called *)
| GenDecodeError             (* [json.loads] raised [JSONDecodeError] *)
| GenBuild (data : jv).      (* [_build_slide(data)] is called *)

(** [generate_slide]: the contents of [response.txt] it leaves, if it
    writes it, and how it ends. *)
Definition generate_slide (model_name api_key : option string) (reply : payload)
  : option payload * gen_outcome :=
  if negb (truthy model_name) then (None, GenRaised "Please select a model!")
  else if negb (truthy api_key) then (None, GenRaised "Please enter an API key!")
  else
    let (file, response) := summarise_document reply in
    (Some file, match json_loads response with
                | Some data => GenBuild data
                | None => GenDecodeError
                end).

(** [regenerate_slide]: [json.load(f)] on [response.txt]; [Some data]
    when [_build_slide(data)] is called, [None] on a [JSONDecodeError]. *)
Definition regenerate_slide (file : payload) : option jv :=
  json_loads (read_text file).

(* ------------------------------------------------------------------ *)
(** ** The buttons of the GUI ([src/gui.py]) *)

Inductive bstate := NORMAL | DISABLED.

Definition bstate_eqb (a b : bstate) : bool :=
  match a, b with
  | NORMAL, NORMAL | DISABLED, DISABLED => true
  | _, _ => false
  end.

Record buttons := mkButtons {
  browse_button : bstate;
  generate_button : bstate;
  regenerate_button : bstate;
  view_response_button : bstate;
  open_output_button : bstate;
  settings_button : bstate
}.

Record gui := mkGui {
  docx_path : option string;
  btns : buttons
}.


Definition _set_buttons_state (state : bstate) (keep_regenerate : bool) (a : gui) : gui :=
  let b := btns a in
  mkGui (docx_path a)
    (mkButtons
       state
       (if bstate_eqb state NORMAL && truthy (docx_path a) then state else DISABLED)
       (if negb keep_regenerate then state else regenerate_button b)
       state
       (if negb keep_regenerate then state else open_output_button b)
       state).


(** The three callbacks [run_generation] queues after a successful
    [generate_slide]. *)
Definition enable_after_success (a : gui) : gui :=
  let b := btns a in
  mkGui (docx_path a)
    (mkButtons (browse_button b) (generate_button b) NORMAL NORMAL NORMAL
               (settings_button b)).

(** [_generate] up to the end of its worker thread: [ok] says whether
    [generate_slide] returned or raised. The worker's callbacks, queued
    with [root.after(0, ...)], run in order on the main loop; while it
    runs every button is disabled, so no other handler can interleave. *)
Definition _generate (ok : bool) (a : gui) : gui :=
  if negb (truthy (docx_path a)) then a
  else
    let a1 := _set_buttons_state DISABLED false a in
    let a2 := if ok then enable_after_success a1 else a1 in
    _set_buttons_state NORMAL true a2.

(** [_regenerate] up to the end of its worker thread: [response_exists]
    is [os.path.exists(self.response_path)]. The worker queues the same
    final callback whether [regenerate_slide] returns or raises. *)
Definition _regenerate (response_exists : bool) (a : gui) : gui :=
  if negb response_exists then a
  else _set_buttons_state NORMAL true (_set_buttons_state DISABLED false a).




(* ================================================================== *)
(** * Proofs *)

Open Scope string_scope.

(* ------------------------------------------------------------------ *)
(** ** Writers: what they log, and the shape skeleton they preserve *)

Inductive kind_tag := TText | TTable (dims : list nat) | TOther.

Definition tag (k : shape_kind) : kind_tag :=
  match k with
  | KText _ => TText
  | KTable cells => TTable (map (@List.length string) cells)
  | KOther => TOther
  end.

(** Names and kinds of a slide's shapes, with table dimensions. *)
Definition skel (sl : slide) : list (string * kind_tag) :=
  map (fun sh => (sh_name sh, tag (sh_kind sh))) sl.

Definition cell_ok (dims : list nat) (row col : Z) : bool :=
  match cell_index row, cell_index col with
  | Some r, Some c =>
      match nth_error dims r with
      | Some w => Nat.ltb c w
      | None => false
      end
  | _, _ => false
  end.

(** The shape a [_set_text name] call writes, if any. *)
Definition text_target (st : fstate) (name : string) : option nat :=
  match _get_shape (fs_cache st) name with
  | Some p =>
      match nth_error (skel (fs_slide st)) p with
      | Some (_, TText) => Some p
      | _ => None
      end
  | None => None
  end.

(** The table a [_set_table_cell name row col] call writes, if any. *)
Definition cell_target (st : fstate) (name : string) (row col : Z) : option nat :=
  match _get_shape (fs_cache st) name with
  | Some p =>
      match nth_error (skel (fs_slide st)) p with
      | Some (_, TTable dims) => if cell_ok dims row col then Some p else None
      | _ => None
      end
  | None => None
  end.

Definition text_write (st : fstate) (name text : string) : list write :=
  match text_target st name with
  | Some p => [WText p text]
  | None => []
  end.

Definition cell_write (st : fstate) (name : string) (row col : Z) (text : string)
  : list write :=
  match cell_target st name row col with
  | Some p => [WCell p row col text]
  | None => []
  end.

Lemma nth_error_update_nth_other {A} (l : list A) i j x :
  i <> j -> nth_error (update_nth l i x) j = nth_error l j.
Proof.
  revert i j; induction l as [|y l IH]; intros [|i] [|j] H; simpl; auto; congruence.
Qed.

Lemma nth_error_update_nth_same {A} (l : list A) i x y :
  nth_error l i = Some y -> nth_error (update_nth l i x) i = Some x.
Proof.
  revert i; induction l as [|z l IH]; intros [|i] H; simpl in *; try discriminate; auto.
Qed.

Lemma map_update_nth {A B} (f : A -> B) (l : list A) i x y :
  nth_error l i = Some y -> f x = f y -> map f (update_nth l i x) = map f l.
Proof.
  revert i; induction l as [|z l IH]; intros [|i] H E; simpl in *; try discriminate.
  - inversion H; subst; rewrite E; reflexivity.
  - f_equal; eauto.
Qed.

Lemma length_update_nth {A} (l : list A) i x :
  List.length (update_nth l i x) = List.length l.
Proof. revert i; induction l; intros [|i]; simpl; auto. Qed.

Lemma set_cell_spec cells row col text :
  match set_cell cells row col text with
  | Some cells' => cell_ok (map (@List.length string) cells) row col = true
                   /\ map (@List.length string) cells' = map (@List.length string) cells
  | None => cell_ok (map (@List.length string) cells) row col = false
  end.
Proof.
  unfold set_cell, cell_ok.
  destruct (cell_index row) as [r|]; destruct (cell_index col) as [c|]; auto.
  rewrite nth_error_map.
  destruct (nth_error cells r) as [rw|] eqn:Er; simpl; auto.
  destruct (nth_error rw c) as [x|] eqn:Ec.
  - split.
    + apply Nat.ltb_lt, nth_error_Some; congruence.
    + apply (map_update_nth _ _ _ _ rw Er).
      rewrite length_update_nth; reflexivity.
  - apply Nat.ltb_ge, nth_error_None; auto.
Qed.

Lemma set_text_eq name text st :
  exists sl', _set_text name text st
              = (Ok tt, mkF sl' (fs_cache st) (fs_log st ++ text_write st name text)%list)
              /\ skel sl' = skel (fs_slide st).
Proof.
  destruct st as [sl cache lg]; unfold _set_text, text_write, text_target, skel; simpl.
  destruct (_get_shape cache name) as [p|];
    [|exists sl; rewrite app_nil_r; auto].
  rewrite nth_error_map.
  destruct (nth_error sl p) as [[n [t| |]]|] eqn:E; simpl;
    try (exists sl; rewrite app_nil_r; auto; fail).
  eexists; split; [reflexivity|].
  apply (map_update_nth _ _ _ _ _ E); reflexivity.
Qed.

Lemma set_table_cell_eq name row col text st :
  exists sl', _set_table_cell name row col text st
              = (Ok tt, mkF sl' (fs_cache st) (fs_log st ++ cell_write st name row col text)%list)
              /\ skel sl' = skel (fs_slide st).
Proof.
  destruct st as [sl cache lg]; unfold _set_table_cell, cell_write, cell_target, skel; simpl.
  destruct (_get_shape cache name) as [p|];
    [|exists sl; rewrite app_nil_r; auto].
  rewrite nth_error_map.
  destruct (nth_error sl p) as [[n [t|cells|]]|] eqn:E; simpl;
    try (exists sl; rewrite app_nil_r; auto; fail).
  pose proof (set_cell_spec cells row col text) as Hs.
  destruct (set_cell cells row col text) as [cells'|].
  - destruct Hs as [Hok Hd]; rewrite Hok.
    eexists; split; [reflexivity|].
    apply (map_update_nth _ _ _ _ _ E); simpl; rewrite Hd; reflexivity.
  - rewrite Hs; exists sl; rewrite app_nil_r; auto.
Qed.

(** Targets depend on the cache and the skeleton only. *)
Lemma text_write_skel st st' name text :
  fs_cache st' = fs_cache st -> skel (fs_slide st') = skel (fs_slide st) ->
  text_write st' name text = text_write st name text.
Proof. intros Hc Hs; unfold text_write, text_target; rewrite Hc, Hs; reflexivity. Qed.

Lemma cell_write_skel st st' name row col text :
  fs_cache st' = fs_cache st -> skel (fs_slide st') = skel (fs_slide st) ->
  cell_write st' name row col text = cell_write st name row col text.
Proof. intros Hc Hs; unfold cell_write, cell_target; rewrite Hc, Hs; reflexivity. Qed.

(** [m] always succeeds, keeps the cache and the skeleton, and appends
    [f st] to the log, where [f] reads only the cache and the skeleton. *)
Definition respects (f : fstate -> list write) : Prop :=
  forall st st', fs_cache st' = fs_cache st -> skel (fs_slide st') = skel (fs_slide st) ->
  f st' = f st.

Definition Writes (m : SE fstate unit) (f : fstate -> list write) : Prop :=
  respects f /\
  forall st, exists sl', m st = (Ok tt, mkF sl' (fs_cache st) (fs_log st ++ f st)%list)
                         /\ skel sl' = skel (fs_slide st).

Lemma Writes_set_text name text :
  Writes (_set_text name text) (fun st => text_write st name text).
Proof.
  split; [intros ? ? ? ?; apply text_write_skel; auto | apply set_text_eq].
Qed.

Lemma Writes_set_table_cell name row col text :
  Writes (_set_table_cell name row col text) (fun st => cell_write st name row col text).
Proof.
  split; [intros ? ? ? ?; apply cell_write_skel; auto | apply set_table_cell_eq].
Qed.

Lemma Writes_bind m1 m2 f1 f2 :
  Writes m1 f1 -> Writes m2 f2 -> Writes (m1 ;; m2) (fun st => f1 st ++ f2 st)%list.
Proof.
  intros [R1 H1] [R2 H2]; split.
  - intros st st' Hc Hs; rewrite (R1 st st'), (R2 st st'); auto.
  - intros st; destruct (H1 st) as [sl1 [E1 S1]].
    destruct (H2 (mkF sl1 (fs_cache st) (fs_log st ++ f1 st)%list)) as [sl2 [E2 S2]].
    exists sl2; unfold bind; rewrite E1, E2; simpl; split.
    + rewrite (R2 st (mkF sl1 (fs_cache st) (fs_log st ++ f1 st)%list)); auto.
      rewrite app_assoc; reflexivity.
    + simpl in S2; congruence.
Qed.

Lemma Writes_if_in k content body f :
  (forall v, Writes (body v) (f v)) ->
  Writes (if_in k content body)
         (fun st => match dict_get k content with Some v => f v st | None => [] end).
Proof.
  intros H; unfold if_in; destruct (dict_get k content) as [v|].
  - apply H.
  - split; [intros ? ? ? ?; reflexivity|].
    intros st; exists (fs_slide st); rewrite app_nil_r; destruct st; auto.
Qed.

Lemma run_fill_Writes m f sl :
  Writes m f ->
  run_fill (_build_shape_cache ;; m) sl
  = (Ok tt, snd (m (mkF sl (cache_of sl 0 []) [])))
  /\ fs_log (snd (run_fill (_build_shape_cache ;; m) sl)) = f (mkF sl (cache_of sl 0 []) []).
Proof.
  intros [_ H]; destruct (H (mkF sl (cache_of sl 0 []) [])) as [sl' [E _]].
  unfold run_fill, bind, _build_shape_cache; simpl; rewrite E; simpl; auto.
Qed.

Ltac writes_auto :=
  repeat first [ apply Writes_bind | apply Writes_set_text | apply Writes_set_table_cell
               | apply Writes_if_in; intro ].

(** The state a filler works in after [_build_shape_cache]. *)
Definition cached (sl : slide) : fstate := mkF sl (cache_of sl 0 []) [].

Definition opt_cell (st : fstate) (k : string) (content : dict string) (row col : Z)
  : list write :=
  match dict_get k content with
  | Some v => cell_write st "Tableau 18" row col v
  | None => []
  end.

(** The writes [fill_slide_type_107] performs, in order. *)
Lemma fill_107_log title content sl :
  let st := cached sl in
  fst (run_fill (fill_slide_type_107 title content) sl) = Ok tt /\
  fs_log (snd (run_fill (fill_slide_type_107 title content) sl))
  = (text_write st "Titre 1" title
     ++ cell_write st "Tableau 18" 2 1 (numbered_msg "1. " "idea_1" "description_1" content)
     ++ cell_write st "Tableau 18" 3 1 (numbered_msg "2. " "idea_2" "description_2" content)
     ++ opt_cell st "pro_1" content 2 2 ++ opt_cell st "con_1" content 2 3
     ++ opt_cell st "pro_2" content 3 2 ++ opt_cell st "con_2" content 3 3)%list.
Proof.
  intros st.
  assert (W : Writes
    (_set_text "Titre 1" title ;;
     _set_table_cell "Tableau 18" 2 1 (numbered_msg "1. " "idea_1" "description_1" content) ;;
     _set_table_cell "Tableau 18" 3 1 (numbered_msg "2. " "idea_2" "description_2" content) ;;
     if_in "pro_1" content (fun v => _set_table_cell "Tableau 18" 2 2 v) ;;
     if_in "con_1" content (fun v => _set_table_cell "Tableau 18" 2 3 v) ;;
     if_in "pro_2" content (fun v => _set_table_cell "Tableau 18" 3 2 v) ;;
     if_in "con_2" content (fun v => _set_table_cell "Tableau 18" 3 3 v))
    (fun st => text_write st "Titre 1" title
     ++ (cell_write st "Tableau 18" 2 1 (numbered_msg "1. " "idea_1" "description_1" content)
     ++ (cell_write st "Tableau 18" 3 1 (numbered_msg "2. " "idea_2" "description_2" content)
     ++ (opt_cell st "pro_1" content 2 2 ++ (opt_cell st "con_1" content 2 3
     ++ (opt_cell st "pro_2" content 3 2 ++ opt_cell st "con_2" content 3 3))))))%list).
  { writes_auto. }
  destruct (run_fill_Writes _ _ sl W) as [E L].
  unfold fill_slide_type_107; rewrite L; split; [rewrite E; reflexivity | reflexivity].
Qed.


Lemma In_text_write_cell st n t p r c x :
  ~ In (WCell p r c x) (text_write st n t).
Proof. unfold text_write; destruct (text_target st n); simpl; intuition discriminate. Qed.

Lemma In_cell_write_cell st n r' c' t p r c x :
  In (WCell p r c x) (cell_write st n r' c' t) -> r = r' /\ c = c'.
Proof.
  unfold cell_write; destruct (cell_target st n r' c'); simpl; intuition congruence.
Qed.

Lemma In_opt_cell_cell st k content r' c' p r c x :
  In (WCell p r c x) (opt_cell st k content r' c') -> r = r' /\ c = c'.
Proof.
  unfold opt_cell; destruct (dict_get k content); simpl;
    [apply In_cell_write_cell | intuition].
Qed.

Lemma In_cell_write_self st n r c t p :
  cell_target st n r c = Some p -> In (WCell p r c t) (cell_write st n r c t).
Proof. unfold cell_write; intros ->; simpl; auto. Qed.

Lemma In_text_write_self st n t p :
  text_target st n = Some p -> In (WText p t) (text_write st n t).
Proof. unfold text_write; intros ->; simpl; auto. Qed.

(** Template slides as shipped: [Tableau 18] with a 3 x 3 table. *)
Example ex107_targets : cell_target (cached tpl107) "Tableau 18" 2 1 = Some 1%nat.
Proof. reflexivity. Qed.

Lemma str_app_nil_r (s : string) : s ++ "" = s.
Proof. induction s; simpl; congruence. Qed.

Lemma str_app_assoc (a b c : string) : a ++ (b ++ c) = (a ++ b) ++ c.
Proof. induction a; simpl; congruence. Qed.

(** The text of a numbered composite field, read off the source. *)
Lemma numbered_msg_eq prefix idea desc content :
  numbered_msg prefix idea desc content
  = (match dict_get idea content with Some v => prefix ++ v ++ nl | None => "" end)
    ++ (match dict_get desc content with Some d => d | None => "" end).
Proof.
  unfold numbered_msg, add_if_in.
  destruct (dict_get idea content), (dict_get desc content); simpl;
    rewrite ?str_app_nil_r; reflexivity.
Qed.




(** C6. For the numbered composite at ordinal 1 of [fill_slide_type_107],
    with [idea_1 = Reduce cost] and [description_1 = via automation], the
    text written to cell (2,1) is exactly [1. Reduce cost], a newline, then
    [via automation], and no other text is written to that cell. *)
Theorem fill_107_numbered_prefix_ordinal_1 title content sl p :
  dict_get "idea_1" content = Some "Reduce cost" ->
  dict_get "description_1" content = Some "via automation" ->
  cell_target (cached sl) "Tableau 18" 2 1 = Some p ->
  numbered_msg "1. " "idea_1" "description_1" content = "1. Reduce cost" ++ nl ++ "via automation"
  /\ In (WCell p 2 1 ("1. Reduce cost" ++ nl ++ "via automation"))
        (fs_log (snd (run_fill (fill_slide_type_107 title content) sl)))
  /\ (forall q x, In (WCell q 2 1 x) (fs_log (snd (run_fill (fill_slide_type_107 title content) sl)))
                  -> x = "1. Reduce cost" ++ nl ++ "via automation").
Proof.
  intros Hi Hd Hp.
  assert (M : numbered_msg "1. " "idea_1" "description_1" content
              = "1. Reduce cost" ++ nl ++ "via automation").
  { rewrite numbered_msg_eq, Hi, Hd; reflexivity. }
  destruct (fill_107_log title content sl) as [_ L].
  split; [exact M|split].
  - rewrite L, <- M; apply in_or_app; right; apply in_or_app; left.
    apply In_cell_write_self; exact Hp.
  - intros q x Hin; rewrite L in Hin; repeat rewrite in_app_iff in Hin.
    destruct Hin as [H|[H|[H|[H|[H|[H|H]]]]]];
      first [ destruct (In_text_write_cell _ _ _ _ _ _ _ H)
            | apply In_opt_cell_cell in H; destruct H; discriminate
            | idtac ].
    + unfold cell_write in H; destruct (cell_target _ _ _ _); simpl in H;
        [destruct H as [H|[]]; inversion H; subst; exact M | destruct H].
    + apply In_cell_write_cell in H; destruct H; discriminate.
Qed.

Lemma fill_107_numbered_prefix_ordinal_1_witness :
  In (WCell 1 2 1 ("1. Reduce cost" ++ nl ++ "via automation"))
     (fs_log (snd (run_fill (fill_slide_type_107 "T"
        [("idea_1", "Reduce cost"); ("description_1", "via automation")]) tpl107))).
Proof.
  exact (proj1 (proj2 (fill_107_numbered_prefix_ordinal_1 "T"
     [("idea_1", "Reduce cost"); ("description_1", "via automation")] tpl107 1
     eq_refl eq_refl eq_refl))).
Defined.

(* ------------------------------------------------------------------ *)
(** ** The shape cache *)

(** The last position whose lowered name is [k]. *)
Fixpoint find_last (k : string) (sl : slide) : option nat :=
  match sl with
  | [] => None
  | sh :: sl' =>
      match find_last k sl' with
      | Some j => Some (S j)
      | None => if String.eqb (lower (sh_name sh)) k then Some 0%nat else None
      end
  end.

Lemma dict_get_set {V} (k k' : string) (v : V) d :
  dict_get k (dict_set k' v d) = if String.eqb k k' then Some v else dict_get k d.
Proof.
  induction d as [|[k'' v''] d IH]; simpl.
  - reflexivity.
  - destruct (String.eqb_spec k' k'') as [->|Hne]; simpl.
    + destruct (String.eqb k k''); reflexivity.
    + rewrite IH. destruct (String.eqb_spec k k') as [->|]; simpl.
      * apply String.eqb_neq in Hne; rewrite Hne; reflexivity.
      * reflexivity.
Qed.

Lemma cache_of_get k sl from d :
  dict_get k (cache_of sl from d)
  = match find_last k sl with Some j => Some (from + j)%nat | None => dict_get k d end.
Proof.
  revert from d; induction sl as [|sh sl IH]; intros from d; simpl; auto.
  rewrite IH; destruct (find_last k sl) as [j|].
  - f_equal; lia.
  - rewrite dict_get_set, String.eqb_sym.
    destruct (String.eqb (lower (sh_name sh)) k); [f_equal; lia | reflexivity].
Qed.

Lemma find_last_None k sl :
  find_last k sl = None <->
  forall j sh, nth_error sl j = Some sh -> lower (sh_name sh) <> k.
Proof.
  induction sl as [|sh sl IH]; simpl.
  - split; auto. intros _ [|j] sh' H; discriminate.
  - destruct (find_last k sl) eqn:F.
    + split; [discriminate|]. intros A.
      assert (C : Some n = None) by (apply IH; intros j sh' H; apply (A (S j)); exact H).
      discriminate.
    + destruct (String.eqb_spec (lower (sh_name sh)) k) as [Ek|Nk].
      * split; [discriminate|]. intros A. exfalso; apply (A 0%nat sh); auto.
      * split; auto. intros _ [|j] sh' H; simpl in H.
        -- inversion H; subst; exact Nk.
        -- apply (proj1 IH eq_refl j sh' H).
Qed.

Lemma find_last_Some k sl i :
  find_last k sl = Some i ->
  exists sh, nth_error sl i = Some sh /\ lower (sh_name sh) = k
             /\ forall j sh', (i < j)%nat -> nth_error sl j = Some sh' -> lower (sh_name sh') <> k.
Proof.
  revert i; induction sl as [|sh sl IH]; intros i; simpl; [discriminate|].
  destruct (find_last k sl) as [j|] eqn:F.
  - intros E; inversion E; subst i.
    destruct (IH j eq_refl) as [sh1 [N [L A]]].
    exists sh1; split; [exact N|split; [exact L|]].
    intros [|j'] sh' Hlt Hn; [lia|]. apply (A j'); simpl in Hn; auto; lia.
  - destruct (String.eqb_spec (lower (sh_name sh)) k) as [Ek|Nk]; [|discriminate].
    intros E; inversion E; subst i.
    exists sh; split; [reflexivity|split; [exact Ek|]].
    intros [|j] sh' Hlt Hn; [lia|]. simpl in Hn.
    exact (proj1 (find_last_None k sl) F j sh' Hn).
Qed.

Lemma find_last_spec k sl i :
  find_last k sl = Some i <->
  exists sh, nth_error sl i = Some sh /\ lower (sh_name sh) = k
             /\ forall j sh', (i < j)%nat -> nth_error sl j = Some sh' -> lower (sh_name sh') <> k.
Proof.
  split; [apply find_last_Some|].
  intros [sh [N [L A]]].
  destruct (find_last k sl) as [i'|] eqn:F.
  - destruct (find_last_Some k sl i' F) as [sh' [N' [L' A']]].
    destruct (Nat.lt_trichotomy i i') as [Lt|[Eq|Gt]].
    + exfalso; exact (A i' sh' Lt N' L').
    + subst; reflexivity.
    + exfalso; exact (A' i sh Gt N L).
  - exfalso; exact (proj1 (find_last_None k sl) F i sh N L).
Qed.

Definition dup_slide : slide := [mkShape "Box" (KText "first"); mkShape "BOX" (KText "second")].

(** C3 (counterexample). On a slide whose shapes 0 and 1 are named [Box]
    and [BOX], the cache built by [_build_shape_cache] resolves [box] to
    shape 1, not to the first match, shape 0. *)
Lemma shape_cache_duplicate_resolves_to_last :
  lower (sh_name (nth 0 dup_slide (mkShape "" KOther)))
    = lower (sh_name (nth 1 dup_slide (mkShape "" KOther)))
  /\ _get_shape (fs_cache (snd (_build_shape_cache (mkF dup_slide [] [])))) "box" = Some 1%nat
  /\ _get_shape (fs_cache (snd (_build_shape_cache (mkF dup_slide [] [])))) "box" <> Some 0%nat.
Proof. vm_compute. split; [reflexivity | split; [reflexivity | discriminate]]. Qed.

(** C3 (amended). After [_build_shape_cache], [_get_shape name] resolves to
    shape [i] exactly when [i] is the LAST shape, in the slide's iteration
    order, whose lowered name equals [name] lowered. *)
Theorem shape_cache_last_match st name i :
  _get_shape (fs_cache (snd (_build_shape_cache st))) name = Some i <->
  exists sh, nth_error (fs_slide st) i = Some sh /\ lower (sh_name sh) = lower name
    /\ forall j sh', (i < j)%nat -> nth_error (fs_slide st) j = Some sh' ->
                     lower (sh_name sh') <> lower name.
Proof.
  unfold _get_shape, _build_shape_cache; simpl.
  rewrite cache_of_get.
  destruct (find_last (lower name) (fs_slide st)) as [j|] eqn:F.
  - rewrite <- (find_last_spec (lower name) (fs_slide st) i), F; simpl.
    split; intros E; inversion E; reflexivity.
  - rewrite <- (find_last_spec (lower name) (fs_slide st) i), F; simpl.
    split; discriminate.
Qed.

(* ------------------------------------------------------------------ *)
(** ** The fan-out loop *)

Lemma Writes_ext m m' f g :
  (forall st, m st = m' st) -> (forall st, f st = g st) -> Writes m' f -> Writes m g.
Proof.
  intros Em Ef [R H]; split.
  - intros st st' Hc Hs; rewrite <- !Ef; apply R; auto.
  - intros st; destruct (H st) as [sl' [E S]]; exists sl'; rewrite Em, E, Ef; auto.
Qed.

Lemma Writes_ret : Writes (ret tt) (fun _ => []).
Proof.
  split; [intros ? ? ? ?; reflexivity|].
  intros [sl c l]; exists sl; simpl; rewrite app_nil_r; auto.
Qed.

Definition fan_body (zones points : list string) (i : nat) : SE fstate unit :=
  z <- py_index zones i ;;
  p <- py_index points i ;;
  _set_text z p.

Definition fan_writes (zones points : list string) (a n : nat) (st : fstate) : list write :=
  List.concat (map (fun i => text_write st (nth i zones "") (nth i points "")) (seq a n)).

Lemma fan_body_Writes zones points i :
  (i < List.length zones)%nat -> (i < List.length points)%nat ->
  Writes (fan_body zones points i)
         (fun st => text_write st (nth i zones "") (nth i points "")).
Proof.
  intros Hz Hp.
  destruct (nth_error zones i) as [z|] eqn:Ez; [|apply nth_error_None in Ez; lia].
  destruct (nth_error points i) as [p|] eqn:Ep; [|apply nth_error_None in Ep; lia].
  rewrite (nth_error_nth _ _ "" Ez), (nth_error_nth _ _ "" Ep).
  apply (Writes_ext _ (_set_text z p) (fun st => text_write st z p) _);
    [|reflexivity|apply Writes_set_text].
  intros st; unfold fan_body, py_index, bind, ret; rewrite Ez, Ep; reflexivity.
Qed.

Lemma fan_loop_Writes zones points n a :
  (a + n <= List.length zones)%nat -> (a + n <= List.length points)%nat ->
  Writes (for_ (seq a n) (fan_body zones points)) (fan_writes zones points a n).
Proof.
  revert a; induction n as [|n IH]; intros a Hz Hp.
  - change (Writes (ret tt) (fun _ : fstate => @nil write)); apply Writes_ret.
  - change (Writes (fan_body zones points a ;; for_ (seq (S a) n) (fan_body zones points))
                   (fun st => text_write st (nth a zones "") (nth a points "")
                              ++ fan_writes zones points (S a) n st)%list).
    apply Writes_bind.
    + apply fan_body_Writes; lia.
    + apply IH; lia.
Qed.

Lemma fan_loop_overflow zones points n a st :
  (a <= List.length zones)%nat -> (List.length zones < a + n)%nat ->
  (a + n <= List.length points)%nat ->
  fst (for_ (seq a n) (fan_body zones points) st) = Err IndexError.
Proof.
  revert a st; induction n as [|n IH]; intros a st H1 H2 H3; [lia|]; simpl.
  destruct (Nat.eq_dec a (List.length zones)) as [E|Ne].
  - unfold bind at 1, fan_body, bind at 1, py_index.
    rewrite (proj2 (nth_error_None zones a)) by lia; reflexivity.
  - destruct (fan_body_Writes zones points a) as [_ W]; try lia.
    destruct (W st) as [sl' [E _]].
    unfold bind at 1; rewrite E. apply IH; lia.
Qed.

Lemma fan_out_present zones key content v st :
  dict_get key content = Some v ->
  fan_out zones key content st
  = for_ (seq 0 (List.length (splitlines v))) (fan_body zones (splitlines v)) st.
Proof. intros H; unfold fan_out, if_in; rewrite H; reflexivity. Qed.

Lemma In_fan_writes zones points a n st w :
  In w (fan_writes zones points a n st) ->
  exists i p, (a <= i < a + n)%nat /\ text_target st (nth i zones "") = Some p
              /\ w = WText p (nth i points "").
Proof.
  unfold fan_writes; intros H.
  apply in_concat in H; destruct H as [l [Hl Hw]].
  apply in_map_iff in Hl; destruct Hl as [i [Ei Hi]]; subst l.
  apply in_seq in Hi.
  unfold text_write in Hw; destruct (text_target st (nth i zones "")) as [p|] eqn:T;
    simpl in Hw; [|destruct Hw].
  destruct Hw as [Hw|[]]; exists i, p; auto.
Qed.

Lemma In_fan_writes_self zones points a n st i p :
  (a <= i < a + n)%nat -> text_target st (nth i zones "") = Some p ->
  In (WText p (nth i points "")) (fan_writes zones points a n st).
Proof.
  intros Hi T; unfold fan_writes; apply in_concat.
  exists (text_write st (nth i zones "") (nth i points "")); split.
  - apply in_map_iff; exists i; split; [reflexivity|apply in_seq; lia].
  - apply In_text_write_self; exact T.
Qed.

Lemma err_bind {S A B} (m : SE S A) (k : A -> SE S B) e st :
  fst (m st) = Err e -> fst (bind m k st) = Err e.
Proof. unfold bind; destruct (m st) as [[a|e'] st']; simpl; congruence. Qed.

Lemma Writes_then_err m f (k : SE fstate unit) e st :
  Writes m f -> (forall st', fst (k st') = Err e) -> fst ((m ;; k) st) = Err e.
Proof.
  intros [_ W] K; destruct (W st) as [sl' [E _]]; unfold bind; rewrite E; apply K.
Qed.

(** C7. For a fan-out over a list of five target shapes ([fan_out], as in
    [fill_slide_type_69]), when the slot value splits into K <= 5 lines,
    the call succeeds and appends exactly, in order, the writes of line i to
    target shape i for i < K; every write it makes is one of these, so a
    shape bound only to targets K..4 is not written. *)
Theorem fan_out_first_K_lines zones key content v st :
  List.length zones = 5%nat -> dict_get key content = Some v ->
  (List.length (splitlines v) <= 5)%nat ->
  let K := List.length (splitlines v) in
  exists sl',
    fan_out zones key content st
    = (Ok tt, mkF sl' (fs_cache st) (fs_log st ++ fan_writes zones (splitlines v) 0 K st))
    /\ skel sl' = skel (fs_slide st)
    /\ (forall i p, (i < K)%nat -> text_target st (nth i zones "") = Some p ->
          In (WText p (nth i (splitlines v) "")) (fan_writes zones (splitlines v) 0 K st))
    /\ (forall w, In w (fan_writes zones (splitlines v) 0 K st) ->
          exists i p, (i < K)%nat /\ text_target st (nth i zones "") = Some p
                      /\ w = WText p (nth i (splitlines v) ""))
    /\ (forall j q, (K <= j < 5)%nat -> text_target st (nth j zones "") = Some q ->
          (forall i, (i < K)%nat -> text_target st (nth i zones "") <> Some q) ->
          forall x, ~ In (WText q x) (fan_writes zones (splitlines v) 0 K st)).
Proof.
  intros Hz Hv HK K.
  destruct (fan_loop_Writes zones (splitlines v) K 0) as [_ W]; try (subst K; lia).
  destruct (W st) as [sl' [E S]].
  exists sl'; rewrite fan_out_present with (v := v) by exact Hv.
  split; [exact E|split; [exact S|split; [|split]]].
  - intros i p Hi T; apply In_fan_writes_self; [lia|exact T].
  - intros w Hw; destruct (In_fan_writes _ _ _ _ _ _ Hw) as [i [p [Hi R]]].
    exists i, p; split; [lia|exact R].
  - intros j q Hj Tj Hn x Hin.
    destruct (In_fan_writes _ _ _ _ _ _ Hin) as [i [p [Hi [Ti Ew]]]].
    inversion Ew; subst p. apply (Hn i); [lia|exact Ti].
Qed.

Lemma fan_out_first_K_lines_witness :
  fan_writes zones69_1 (splitlines ("A" ++ nl ++ "B" ++ nl ++ "C")) 0 3 (cached tpl69)
  = [WText 1 "A"; WText 2 "B"; WText 3 "C"]
  /\ exists sl',
    fan_out zones69_1 "detail_1" [("detail_1", "A" ++ nl ++ "B" ++ nl ++ "C")] (cached tpl69)
    = (Ok tt, mkF sl' (fs_cache (cached tpl69))
                (fs_log (cached tpl69)
                 ++ fan_writes zones69_1 (splitlines ("A" ++ nl ++ "B" ++ nl ++ "C")) 0 3
                      (cached tpl69))).
Proof.
  split; [reflexivity|].
  destruct (fan_out_first_K_lines zones69_1 "detail_1"
              [("detail_1", "A" ++ nl ++ "B" ++ nl ++ "C")] ("A" ++ nl ++ "B" ++ nl ++ "C")
              (cached tpl69) eq_refl eq_refl (proj1 (Nat.leb_le 3 5) eq_refl))
    as [sl' [E _]].
  exists sl'; exact E.
Defined.

(** C8. When [detail_1] splits into more than five lines,
    [fill_slide_type_69] fails with an [IndexError] raised by [zones[i]] in
    its fan-out loop, instead of dropping the extra lines. *)
Theorem fill_69_fan_out_overflow title content sl v :
  dict_get "detail_1" content = Some v -> (5 < List.length (splitlines v))%nat ->
  fst (run_fill (fill_slide_type_69 title content) sl) = Err IndexError.
Proof.
  intros Hv HK.
  unfold run_fill, fill_slide_type_69; unfold bind at 1, _build_shape_cache at 1; simpl.
  apply (Writes_then_err _ _ _ _ _ (Writes_set_text "Title 5" title)); intros st1.
  apply (Writes_then_err _ _ _ _ _
           (Writes_if_in "pro" content _ _ (fun v => Writes_set_text "ZoneTexte 71" v)));
    intros st2.
  apply (Writes_then_err _ _ _ _ _
           (Writes_if_in "con" content _ _ (fun v => Writes_set_text "ZoneTexte 72" v)));
    intros st3.
  apply err_bind; rewrite fan_out_present with (v := v) by exact Hv.
  apply fan_loop_overflow; simpl; lia.
Qed.

Lemma fill_69_fan_out_overflow_witness :
  fst (run_fill (fill_slide_type_69 "T"
         [("detail_1", "1" ++ nl ++ "2" ++ nl ++ "3" ++ nl ++ "4" ++ nl ++ "5" ++ nl ++ "6")])
         tpl69) = Err IndexError.
Proof.
  apply (fill_69_fan_out_overflow "T" _ tpl69
           ("1" ++ nl ++ "2" ++ nl ++ "3" ++ nl ++ "4" ++ nl ++ "5" ++ nl ++ "6")).
  - reflexivity.
  - apply Nat.leb_le; reflexivity.
Defined.

(* ------------------------------------------------------------------ *)
(** ** The controller on plans *)

Definition entry_id (e : entry) : Z :=
  match e_slide_index e with Some id => id | None => 0%Z end.

(** The library slide an entry's template id selects. *)
Definition template (library : list slide) (e : entry) : slide :=
  nth (Z.to_nat (entry_id e - 1)) library [].

(** That slide after the entry's filler ran on it. *)
Definition filled (library : list slide) (filler_body : Z -> string -> dict string -> SE fstate unit)
  (e : entry) : slide :=
  match e with
  | mkEntry (Some id) (Some t) (Some sl) =>
      fs_slide (snd (filler_body id t sl (mkF (template library e) [] [])))
  | _ => template library e
  end.

Definition title_filled (title : string) (sl : slide) : slide :=
  fs_slide (snd (fill_slide_type_title title (mkF sl [] []))).

(** The template id is a library position. *)
Definition in_library (library : list slide) (e : entry) : bool :=
  match e_slide_index e with
  | Some id => (1 <=? id)%Z && (id <=? Z.of_nat (List.length library))%Z
  | None => false
  end.

(** A well-formed entry: all three keys, a known slide type, a template in
    the library, and a filler that returns normally on it. *)
Definition entry_ok (library : list slide)
  (filler_body : Z -> string -> dict string -> SE fstate unit) (e : entry) : bool :=
  match e with
  | mkEntry (Some id) (Some t) (Some sl) =>
      has_filler id && in_library library e
      && match fst (filler_body id t sl (mkF (template library e) [] [])) with
         | Ok _ => true
         | Err _ => false
         end
  | _ => false
  end.

(** The events of the fill loop on well-formed entries. *)
Fixpoint loop_trace (index : nat) (es : list entry) : list event :=
  match es with
  | [] => []
  | e :: es' => EvFill index (entry_id e) :: EvSave :: loop_trace (S index) es'
  end.

Lemma copied_app t1 t2 : copied (t1 ++ t2)%list = (copied t1 ++ copied t2)%list.
Proof. induction t1 as [|[] t1 IH]; simpl; try rewrite IH; auto. Qed.

Lemma fills_app t1 t2 : fills (t1 ++ t2)%list = (fills t1 ++ fills t2)%list.
Proof. induction t1 as [|[] t1 IH]; simpl; try rewrite IH; auto. Qed.

Lemma copied_map_EvCopy ks : copied (map EvCopy ks) = ks.
Proof. induction ks; simpl; congruence. Qed.

Lemma fills_map_EvCopy ks : fills (map EvCopy ks) = [].
Proof. induction ks; simpl; congruence. Qed.

Lemma copied_loop_trace index es : copied (loop_trace index es) = [].
Proof. revert index; induction es; intros; simpl; auto. Qed.

Lemma fills_loop_trace index es :
  fills (loop_trace index es) = combine (seq index (List.length es)) (map entry_id es).
Proof. revert index; induction es; intros; simpl; f_equal; auto. Qed.

Lemma update_nth_app {A} (pre l : list A) x y :
  update_nth (pre ++ x :: l)%list (List.length pre) y = (pre ++ y :: l)%list.
Proof. induction pre; simpl; congruence. Qed.

Lemma in_library_pos library e :
  in_library library e = true ->
  e_slide_index e = Some (entry_id e) /\ (0 <= entry_id e - 1)%Z
  /\ (Z.to_nat (entry_id e - 1) < List.length library)%nat.
Proof.
  unfold in_library, entry_id; destruct (e_slide_index e) as [id|]; [|discriminate].
  rewrite andb_true_iff, Z.leb_le, Z.leb_le; intros [H1 H2]; split; [auto|split; lia].
Qed.


Definition has_index (e : entry) : bool :=
  match e_slide_index e with Some _ => true | None => false end.

Lemma copy_indices_ok es h :
  forallb has_index es = true ->
  copy_indices es h = (Ok (map (fun e => entry_id e - 1)%Z es), h).
Proof.
  induction es as [|e es IH]; simpl; [reflexivity|].
  rewrite andb_true_iff; intros [He Hs].
  unfold has_index, entry_id in *; destruct (e_slide_index e) as [id|]; [|discriminate].
  unfold bind, key, ret at 1; rewrite (IH Hs); reflexivity.
Qed.

Lemma copy_indices_missing es h :
  existsb (fun e => negb (has_index e)) es = true ->
  copy_indices es h = (Err (KeyError "slide_index"), h).
Proof.
  induction es as [|e es IH]; simpl; [discriminate|].
  unfold has_index; destruct (e_slide_index e) as [id|]; simpl; [|reflexivity].
  intros H; unfold bind at 1, key, ret at 1; unfold bind; rewrite (IH H); reflexivity.
Qed.

Lemma paste_loop library ks h d :
  pres h = Some d ->
  forallb (fun k => (0 <=? k)%Z && (k <? Z.of_nat (List.length library))%Z) ks = true ->
  for_ ks (paste_library_slide library) h
  = (Ok tt, mkHost (disk h) (Some (d ++ map (fun k => nth (Z.to_nat k) library []) ks))
                   (trace h ++ map EvCopy ks))%list.
Proof.
  revert h d; induction ks as [|k ks IH]; intros h d Hp Hk; simpl.
  - destruct h; simpl in *; subst; rewrite !app_nil_r; reflexivity.
  - simpl in Hk; rewrite !andb_true_iff, Z.leb_le, Z.ltb_lt in Hk; destruct Hk as [[H0 H1] Hk].
    unfold bind at 1, paste_library_slide at 1; rewrite Hp.
    replace (0 <=? k)%Z with true by (symmetry; apply Z.leb_le; lia).
    rewrite (nth_error_nth' library (n := Z.to_nat k) []) by lia.
    rewrite (IH _ (d ++ [nth (Z.to_nat k) library []])%list) by (simpl; auto); simpl.
    rewrite <- !app_assoc; reflexivity.
Qed.

Lemma title_fill_ok title st :
  exists st', fill_slide_type_title title st = (Ok tt, st').
Proof.
  unfold fill_slide_type_title, bind at 1, _build_shape_cache.
  destruct (set_text_eq "Title 1" title
              (mkF (fs_slide st) (cache_of (fs_slide st) 0 []) (fs_log st))) as [sl' [E _]].
  rewrite E; eexists; reflexivity.
Qed.

Lemma fill_loop_app fb index l1 l2 h :
  fill_loop fb index (l1 ++ l2)%list h
  = (fill_loop fb index l1 ;; fill_loop fb (index + List.length l1) l2) h.
Proof.
  revert index h; induction l1 as [|e l1 IH]; intros index h; simpl.
  - rewrite Nat.add_0_r; reflexivity.
  - unfold bind at 1 2 3.
    destruct (fill_entry fb index e h) as [[[]|err] h']; [|reflexivity].
    rewrite IH, Nat.add_succ_r; reflexivity.
Qed.

Lemma nth_error_app_len {A} (pre l : list A) x :
  nth_error (pre ++ x :: l)%list (List.length pre) = Some x.
Proof. induction pre; simpl; auto. Qed.

(** One iteration on a well-formed entry whose template is slide
    [length pre + 1] of the saved output deck. *)
Lemma fill_entry_ok library fb pre e rest h :
  entry_ok library fb e = true ->
  pres h = Some (pre ++ template library e :: rest)%list ->
  fill_entry fb (S (List.length pre)) e h
  = (Ok tt, mkHost (Some (pre ++ filled library fb e :: rest))
                   (Some (pre ++ filled library fb e :: rest))
                   (trace h ++ [EvFill (S (List.length pre)) (entry_id e); EvSave]))%list.
Proof.
  intros He Hp.
  destruct e as [[id|] [t|] [sl|]]; cbv beta iota delta [entry_ok] in He; try discriminate.
  rewrite !andb_true_iff in He; destruct He as [[Hf _] Hr].
  destruct (fb id t sl (mkF (template library (mkEntry (Some id) (Some t) (Some sl))) [] []))
    as [r st] eqn:Ef.
  simpl in Hr; destruct r as [[]|err]; [|discriminate].
  unfold fill_entry, key, bind, ret; simpl; rewrite Hf.
  unfold fill_at; rewrite Hp.
  replace (S (List.length pre) - 1)%nat with (List.length pre) by lia.
  rewrite nth_error_app_len, Ef.
  unfold save_output; simpl; rewrite update_nth_app.
  rewrite <- app_assoc; reflexivity.
Qed.

(** The fill loop on well-formed entries, whose templates sit, in order,
    right after the slides [pre] of the saved output deck. *)
Lemma fill_loop_ok library fb pre es post h :
  forallb (entry_ok library fb) es = true ->
  pres h = Some (pre ++ map (template library) es ++ post)%list ->
  fill_loop fb (S (List.length pre)) es h
  = (Ok tt, mkHost (match es with [] => disk h | _ => Some (pre ++ map (filled library fb) es ++ post) end)
                   (Some (pre ++ map (filled library fb) es ++ post))
                   (trace h ++ loop_trace (S (List.length pre)) es))%list.
Proof.
  revert pre h; induction es as [|e es IH]; intros pre h Hok Hp.
  - destruct h as [dk pr tr]; simpl in *; subst; rewrite !app_nil_r; reflexivity.
  - simpl in Hok; rewrite andb_true_iff in Hok; destruct Hok as [He Hes].
    change (fill_loop fb (S (List.length pre)) (e :: es))
      with (fill_entry fb (S (List.length pre)) e ;; fill_loop fb (S (S (List.length pre))) es).
    unfold bind at 1.
    rewrite (fill_entry_ok library fb pre e (map (template library) es ++ post)%list h He Hp).
    assert (L : S (S (List.length pre)) = S (List.length (pre ++ [filled library fb e])%list))
      by (rewrite length_app; simpl; lia).
    rewrite L, (IH (pre ++ [filled library fb e])%list)
      by (auto; simpl; rewrite <- app_assoc; reflexivity).
    rewrite <- L; simpl; rewrite <- !app_assoc; destruct es; reflexivity.
Qed.

Lemma copy_slides_ok library ks h d :
  pres h = None -> disk h = Some d ->
  forallb (fun k => (0 <=? k)%Z && (k <? Z.of_nat (List.length library))%Z) ks = true ->
  copy_slides library ks h
  = (Ok tt, mkHost (Some (d ++ map (fun k => nth (Z.to_nat k) library []) ks))
                   (Some (d ++ map (fun k => nth (Z.to_nat k) library []) ks))
                   (trace h ++ map EvCopy ks ++ [EvSave]))%list.
Proof.
  intros Hp Hd Hk.
  unfold copy_slides, bind at 1, open_output at 1; rewrite Hp, Hd.
  unfold bind at 1; rewrite paste_loop with (d := d) by (reflexivity || exact Hk).
  unfold save_output; simpl; rewrite app_assoc; reflexivity.
Qed.

Lemma build_slide_prefix library fb data h title es lib0 :
  p_presentation_title data = Some title -> p_slides data = Some es ->
  nth_error library 0 = Some lib0 ->
  forallb (in_library library) es = true ->
  let D := title_filled title lib0 :: map (template library) es in
  _build_slide library fb data h
  = (fill_loop fb 2 es ;; close_output ;; emit EvQuit)
      (mkHost (Some D) (Some D)
         (trace h ++ [EvCreateBlank] ++ map EvCopy (0%Z :: map (fun e => entry_id e - 1)%Z es)
          ++ [EvSave; EvFillTitle; EvSave])).
Proof.
  intros Ht Hs H0 Hl D.
  assert (Hi : forallb has_index es = true).
  { rewrite forallb_forall in *; intros e He; specialize (Hl e He).
    unfold in_library, has_index in *; destruct (e_slide_index e); auto. }
  assert (Hk : forallb (fun k => (0 <=? k)%Z && (k <? Z.of_nat (List.length library))%Z)
                 (0%Z :: map (fun e => entry_id e - 1)%Z es) = true).
  { simpl; apply andb_true_iff; split.
    - assert (0 < List.length library)%nat by (destruct library; [discriminate|simpl; lia]).
      apply Z.ltb_lt; lia.
    - apply forallb_forall; intros k Hk; apply in_map_iff in Hk; destruct Hk as [e [<- He]].
      rewrite forallb_forall in Hl.
      destruct (in_library_pos library e (Hl e He)) as [_ [A B]].
      apply andb_true_iff; split; [apply Z.leb_le | apply Z.ltb_lt]; lia. }
  unfold _build_slide; rewrite Ht, Hs.
  unfold key at 1 2; unfold bind at 1 2 3 4; unfold ret at 1 2.
  unfold create_blank at 1. 
  unfold bind at 1. rewrite copy_indices_ok by exact Hi.
  unfold bind at 1. rewrite copy_slides_ok with (d := []) by (reflexivity || exact Hk).
  assert (M : map (fun k => nth (Z.to_nat k) library []) (0%Z :: map (fun e => entry_id e - 1)%Z es)
              = lib0 :: map (template library) es).
  { simpl; rewrite map_map; f_equal; apply nth_error_nth; exact H0. }
  rewrite M, app_nil_l.
  destruct (title_fill_ok title (mkF lib0 [] [])) as [st Ef].
  unfold bind at 1, fill_at at 1; cbn [pres nth_error Nat.sub]; rewrite Ef.
  unfold bind at 1, save_output at 1; cbn [pres disk trace update_nth].
  unfold D, title_filled; rewrite Ef; cbn [snd].
  rewrite <- !app_assoc; reflexivity.
Qed.





Definition lib_w : list slide := [tpl81; tpl69; tpl107; tpl107].
Definition fb_w : Z -> string -> dict string -> SE fstate unit :=
  fun _ t c => fill_slide_type_107 t c.


(** [_build_slide] when the fill loop raises at entry [e], after the
    entries before it were filled. *)
Lemma build_slide_fails_at library fb data h title pre e post lib0 err :
  p_presentation_title data = Some title -> p_slides data = Some (pre ++ e :: post)%list ->
  nth_error library 0 = Some lib0 ->
  forallb (in_library library) (pre ++ e :: post)%list = true ->
  forallb (entry_ok library fb) pre = true ->
  (forall index h2, fill_entry fb index e h2 = (Err err, h2)) ->
  exists h' tr,
    _build_slide library fb data h = (Err err, h')
    /\ trace h' = (trace h ++ tr)%list
    /\ copied tr = 0%Z :: map (fun e => entry_id e - 1)%Z (pre ++ e :: post)
    /\ fills tr = combine (seq 2 (List.length pre)) (map entry_id pre).
Proof.
  intros Ht Hs H0 Hl Hok He.
  rewrite (build_slide_prefix library fb data h title _ lib0 Ht Hs H0 Hl).
  unfold bind at 1; rewrite fill_loop_app.
  change 2%nat with (S (List.length [title_filled title lib0])).
  unfold bind at 1.
  rewrite (fill_loop_ok library fb [title_filled title lib0] pre (map (template library) (e :: post)) _ Hok)
    by (rewrite map_app; reflexivity).
  cbn [fill_loop]; unfold bind at 1 2; rewrite He.
  set (tr := ([EvCreateBlank] ++ map EvCopy (0%Z :: map (fun e => entry_id e - 1)%Z (pre ++ e :: post))
              ++ [EvSave; EvFillTitle; EvSave] ++ loop_trace 2 pre)%list).
  eexists; exists tr; split; [reflexivity|split; [|split]].
  - cbn [trace]; unfold tr; rewrite <- !app_assoc; reflexivity.
  - unfold tr; rewrite !copied_app, copied_map_EvCopy, copied_loop_trace; simpl.
    rewrite !app_nil_r; reflexivity.
  - unfold tr; rewrite !fills_app, fills_map_EvCopy, fills_loop_trace; simpl; reflexivity.
Qed.

Lemma fill_entry_missing_key fb index e h :
  has_filler (entry_id e) = true ->
  e_slide_title e = None \/ e_slots e = None ->
  e_slide_index e = Some (entry_id e) ->
  fill_entry fb index e h
  = (Err (KeyError (match e_slide_title e with None => "slide_title" | Some _ => "slots" end)), h).
Proof.
  intros Hf Hm Hi; destruct e as [[id|] t sl]; unfold entry_id in *; simpl in *; try discriminate.
  unfold fill_entry, bind, key, ret; simpl; rewrite Hf.
  destruct t as [t|]; [destruct Hm as [Hm|Hm]; [discriminate|subst sl]|]; reflexivity.
Qed.


Lemma in_library_index library pre e post :
  forallb (in_library library) (pre ++ e :: post)%list = true ->
  e_slide_index e = Some (entry_id e).
Proof.
  intros H; rewrite forallb_forall in H.
  refine (proj1 (in_library_pos library e (H e _))).
  apply in_or_app; right; left; reflexivity.
Qed.

(** C4 (counterexample). A plan whose only entry lacks [slide_title] is
    rejected only in the fill loop: by then the output deck has been
    created and saved with the title slide and the entry's template copied
    (library positions 0 and 3). *)
Lemma build_slide_copies_before_key_check :
  fst (_build_slide lib_w fb_w (mkPlan (Some "Deck") (Some [mkEntry (Some 4%Z) None (Some [])]))
         (mkHost None None [])) = Err (KeyError "slide_title")
  /\ copied (trace (snd (_build_slide lib_w fb_w
         (mkPlan (Some "Deck") (Some [mkEntry (Some 4%Z) None (Some [])])) (mkHost None None []))))
     = [0; 3]%Z
  /\ disk (snd (_build_slide lib_w fb_w
         (mkPlan (Some "Deck") (Some [mkEntry (Some 4%Z) None (Some [])])) (mkHost None None [])))
     = Some [title_filled "Deck" tpl81; tpl107].
Proof. vm_compute. split; [reflexivity|split; reflexivity]. Qed.

(** C4 (amended). [_build_slide] checks the plan's structure in stages,
    each interleaved with deck mutations: a missing [presentation_title] or
    [slides] fails before any host event; an entry missing [slide_index]
    fails after the output deck was created but before any slide is copied;
    an entry (of a known slide type, all template ids in the library) that
    misses [slide_title] or [slots] is only detected when the fill loop
    reaches it, after every template has been copied and the earlier
    entries filled. *)
Theorem build_slide_validation_stages library fb data h :
  (p_presentation_title data = None ->
     _build_slide library fb data h = (Err (KeyError "presentation_title"), h))
  /\ (forall title, p_presentation_title data = Some title -> p_slides data = None ->
        _build_slide library fb data h = (Err (KeyError "slides"), h))
  /\ (forall title es, p_presentation_title data = Some title -> p_slides data = Some es ->
        existsb (fun e => negb (has_index e)) es = true ->
        _build_slide library fb data h
        = (Err (KeyError "slide_index"), mkHost (Some []) None (trace h ++ [EvCreateBlank])%list))
  /\ (forall title pre e post lib0,
        p_presentation_title data = Some title -> p_slides data = Some (pre ++ e :: post)%list ->
        nth_error library 0 = Some lib0 ->
        forallb (in_library library) (pre ++ e :: post)%list = true ->
        forallb (entry_ok library fb) pre = true ->
        has_filler (entry_id e) = true -> e_slide_title e = None \/ e_slots e = None ->
        exists h' tr k,
          _build_slide library fb data h = (Err (KeyError k), h')
          /\ In k ["slide_title"; "slots"]
          /\ trace h' = (trace h ++ tr)%list
          /\ copied tr = 0%Z :: map (fun e => entry_id e - 1)%Z (pre ++ e :: post)
          /\ fills tr = combine (seq 2 (List.length pre)) (map entry_id pre)).
Proof.
  split; [|split; [|split]].
  - intros Ht; unfold _build_slide, bind, key; rewrite Ht; reflexivity.
  - intros title Ht Hs; unfold _build_slide, bind at 1, key at 1; rewrite Ht.
    unfold ret, bind, key; rewrite Hs; reflexivity.
  - intros title es Ht Hs Hm; unfold _build_slide; rewrite Ht, Hs.
    unfold key at 1 2; unfold bind at 1 2 3 4; unfold ret at 1 2; unfold create_blank at 1.
    unfold bind at 1; rewrite copy_indices_missing by exact Hm; reflexivity.
  - intros title pre e post lib0 Ht Hs H0 Hl Hok Hf Hm.
    destruct (build_slide_fails_at library fb data h title pre e post lib0
                (KeyError (match e_slide_title e with None => "slide_title" | Some _ => "slots" end))
                Ht Hs H0 Hl Hok) as [h' [tr [E [T [C F]]]]].
    { intros index h2; apply fill_entry_missing_key; auto.
      exact (in_library_index library pre e post Hl). }
    exists h', tr, (match e_slide_title e with None => "slide_title" | Some _ => "slots" end).
    split; [exact E|split; [|auto]].
    destruct (e_slide_title e); simpl; auto.
Qed.

Lemma build_slide_validation_stages_witness :
  exists h' tr k,
    _build_slide lib_w fb_w (mkPlan (Some "Deck") (Some [mkEntry (Some 4%Z) None (Some [])]))
      (mkHost None None []) = (Err (KeyError k), h')
    /\ In k ["slide_title"; "slots"]
    /\ trace h' = ([] ++ tr)%list
    /\ copied tr = [0; 3]%Z.
Proof.
  destruct (proj2 (proj2 (proj2 (build_slide_validation_stages lib_w fb_w
              (mkPlan (Some "Deck") (Some [mkEntry (Some 4%Z) None (Some [])]))
              (mkHost None None []))))
              "Deck" [] (mkEntry (Some 4%Z) None (Some [])) [] tpl81
              eq_refl eq_refl eq_refl eq_refl eq_refl eq_refl (or_introl eq_refl))
    as [h' [tr [k [E [K [T [C _]]]]]]].
  exists h', tr, k; split; [exact E|split; [exact K|split; [exact T|exact C]]].
Defined.







(* ================================================================== *)
(** * The trailing-comma normalisation of [summarise_document] *)

Open Scope list_scope.

(* ------------------------------------------------------------------ *)
(** ** The normalisation as a filter *)

Ltac ascii_cases c := destruct c as [[] [] [] [] [] [] [] []].

(** The JSON value starts: quote, braces, brackets, the letters of the
    literals, minus and digits. *)
Definition vstart (c : ascii) : bool :=
  Ascii.eqb c c_quote || Ascii.eqb c "{"%char || Ascii.eqb c "["%char
  || Ascii.eqb c "n"%char || Ascii.eqb c "t"%char || Ascii.eqb c "f"%char
  || Ascii.eqb c "N"%char || Ascii.eqb c "I"%char || Ascii.eqb c "-"%char || is_digit c.

(** A character the filter never drops and that no dropped comma can sit
    before. *)
Definition solid (c : ascii) : bool :=
  negb (Ascii.eqb c ","%char) && negb (is_py_space c) && negb (is_close c).

Lemma close_not_comma c : is_close c = true -> Ascii.eqb c ","%char = false.
Proof. ascii_cases c; vm_compute; intros; congruence. Qed.

Lemma space_not_comma c : is_py_space c = true -> Ascii.eqb c ","%char = false.
Proof. ascii_cases c; vm_compute; intros; congruence. Qed.

Lemma json_ws_space c : is_json_ws c = true -> is_py_space c = true.
Proof. ascii_cases c; vm_compute; intros; congruence. Qed.

Lemma vstart_solid c : vstart c = true -> solid c = true /\ is_json_ws c = false.
Proof. ascii_cases c; vm_compute; intros; first [split; reflexivity | congruence]. Qed.

Lemma clean_cons_nc c s : Ascii.eqb c ","%char = false -> clean (c :: s) = c :: clean s.
Proof. intros H; simpl; rewrite H; reflexivity. Qed.

Lemma clean_cons_solid c s : solid c = true -> clean (c :: s) = c :: clean s.
Proof.
  unfold solid; intros H; apply clean_cons_nc.
  destruct (Ascii.eqb c ","%char); [discriminate|reflexivity].
Qed.

Lemma closes_head s :
  closes s = true -> exists c s', s = c :: s' /\ solid c = false /\ Ascii.eqb c ","%char = false.
Proof.
  destruct s as [|c s']; simpl; [discriminate|]; intros H.
  exists c, s'; split; [reflexivity|]; unfold solid.
  destruct (is_close c) eqn:C.
  - rewrite !andb_false_r, (close_not_comma c C); auto.
  - destruct (is_py_space c) eqn:P; [|discriminate].
    rewrite andb_false_r, (space_not_comma c P); auto.
Qed.

(** The first character of the filtered text is solid exactly when that
    of the text is, and then it is the same. *)
Definition hd_solid (s : payload) : option ascii :=
  match s with
  | c :: _ => if solid c then Some c else None
  | [] => None
  end.

Lemma hd_solid_clean s : hd_solid (clean s) = hd_solid s.
Proof.
  destruct s as [|c s']; simpl; [reflexivity|].
  destruct (Ascii.eqb c ","%char) eqn:E; simpl.
  - assert (Sc : solid c = false) by (unfold solid; rewrite E; reflexivity).
    rewrite Sc; destruct (closes s') eqn:C; simpl.
    + destruct (closes_head s' C) as [d [s'' [-> [Sd Ed]]]].
      rewrite clean_cons_nc by exact Ed; simpl; rewrite Sd; reflexivity.
    + rewrite Sc; reflexivity.
  - reflexivity.
Qed.

Lemma clean_cases s :
  (exists c t, s = c :: t /\ solid c = true /\ clean s = c :: clean t)
  \/ (hd_solid s = None /\ hd_solid (clean s) = None).
Proof.
  destruct s as [|c t]; [right; auto|].
  destruct (solid c) eqn:S.
  - left; exists c, t; rewrite clean_cons_solid; auto.
  - right; rewrite hd_solid_clean; simpl; rewrite S; auto.
Qed.

Lemma unsolid_facts c :
  solid c = false ->
  is_digit c = false /\ Ascii.eqb c "0"%char = false /\ Ascii.eqb c "."%char = false
  /\ Ascii.eqb c "e"%char = false /\ Ascii.eqb c "E"%char = false
  /\ Ascii.eqb c "-"%char = false /\ Ascii.eqb c "+"%char = false
  /\ Ascii.eqb "n"%char c = false /\ Ascii.eqb "t"%char c = false /\ Ascii.eqb "f"%char c = false
  /\ Ascii.eqb "N"%char c = false /\ Ascii.eqb "I"%char c = false /\ Ascii.eqb "-"%char c = false
  /\ Ascii.eqb c c_quote = false /\ Ascii.eqb c "{"%char = false /\ Ascii.eqb c "["%char = false.
Proof. ascii_cases c; vm_compute; intros; first [congruence | repeat split]. Qed.

Lemma digit_solid c : is_digit c = true -> solid c = true.
Proof. ascii_cases c; vm_compute; intros; congruence. Qed.

Lemma sign_solid c : Ascii.eqb c "+"%char || Ascii.eqb c "-"%char = true -> solid c = true.
Proof. ascii_cases c; vm_compute; intros; congruence. Qed.

Ltac unsolid_head H :=
  let c := fresh "c" in let x := fresh "x" in let S := fresh "S" in
  match type of H with
  | hd_solid ?s = None =>
      destruct s as [|c x]; [|simpl in H; destruct (solid c) eqn:S; [discriminate|];
        destruct (unsolid_facts c S) as (?&?&?&?&?&?&?&?&?&?&?&?&?&?&?&?)]
  end.

Lemma take_digits_unsolid s : hd_solid s = None -> take_digits s = ([], s).
Proof. intros H; unsolid_head H; simpl; auto; rewrite H0; reflexivity. Qed.

Lemma take_digits_clean s :
  take_digits (clean s) = (fst (take_digits s), clean (snd (take_digits s))).
Proof.
  induction s as [|c s IH]; [reflexivity|].
  destruct (is_digit c) eqn:D.
  - rewrite (clean_cons_solid c s (digit_solid c D)); simpl; rewrite D, IH.
    destruct (take_digits s); reflexivity.
  - replace (take_digits (c :: s)) with (@nil ascii, c :: s) by (simpl; rewrite D; reflexivity).
    cbn [fst snd].
    destruct (clean_cases (c :: s)) as [[c' [t [E [S C]]]]|[H1 H2]].
    + inversion E; subst c' t; rewrite C; simpl; rewrite D; reflexivity.
    + rewrite (take_digits_unsolid _ H2); reflexivity.
Qed.

Definition cl2 {A : Type} (p : A * payload) : A * payload := (fst p, clean (snd p)).

Lemma int_part_unsolid s : hd_solid s = None -> int_part s = None.
Proof. intros H; unsolid_head H; simpl; auto; rewrite H1, H0; reflexivity. Qed.

Lemma int_part_clean s : int_part (clean s) = option_map cl2 (int_part s).
Proof.
  destruct (clean_cases s) as [[c [t [-> [S C]]]]|[H1 H2]].
  - rewrite C; simpl.
    destruct (Ascii.eqb c "0"%char); [reflexivity|].
    destruct (is_digit c); [|reflexivity].
    rewrite take_digits_clean; destruct (take_digits t); reflexivity.
  - rewrite (int_part_unsolid _ H1), (int_part_unsolid _ H2); reflexivity.
Qed.

Lemma frac_part_unsolid s : hd_solid s = None -> frac_part s = ([], s).
Proof.
  intros H; unsolid_head H; simpl; auto.
  destruct x; [reflexivity|]; rewrite H2; reflexivity.
Qed.

Lemma frac_part_unsolid2 c s : hd_solid s = None -> frac_part (c :: s) = ([], c :: s).
Proof.
  intros H; unsolid_head H; simpl; auto.
  rewrite H0, andb_false_r; reflexivity.
Qed.

Lemma frac_part_clean s : frac_part (clean s) = cl2 (frac_part s).
Proof.
  destruct (clean_cases s) as [[c [t [-> [S C]]]]|[H1 H2]].
  - rewrite C.
    destruct (clean_cases t) as [[d [t' [-> [Sd Cd]]]]|[H1 H2]].
    + rewrite Cd; unfold cl2; cbn [frac_part].
      destruct (Ascii.eqb c "."%char && is_digit d).
      * rewrite take_digits_clean; destruct (take_digits t'); reflexivity.
      * cbn [fst snd]; rewrite C, Cd; reflexivity.
    + rewrite (frac_part_unsolid2 _ _ H1), (frac_part_unsolid2 _ _ H2).
      unfold cl2; cbn [fst snd]; rewrite C; reflexivity.
  - rewrite (frac_part_unsolid _ H1), (frac_part_unsolid _ H2); reflexivity.
Qed.

Lemma exp_part_unsolid s : hd_solid s = None -> exp_part s = ([], s).
Proof. intros H; unsolid_head H; [reflexivity|]; unfold exp_part; simpl; rewrite H3, H4; reflexivity. Qed.

(** The optional sign of an exponent, as [exp_part] reads it. *)
Definition exp_sign (t : payload) : payload * payload :=
  match t with
  | x :: t' => if Ascii.eqb x "+"%char || Ascii.eqb x "-"%char then ([x], t') else ([], t)
  | [] => ([], [])
  end.

Lemma exp_part_eq c t :
  exp_part (c :: t)
  = if Ascii.eqb c "e"%char || Ascii.eqb c "E"%char then
      let (sg, t1) := exp_sign t in
      match take_digits t1 with
      | ([], _) => ([], c :: t)
      | (ds, t2) => (c :: sg ++ ds, t2)
      end
    else ([], c :: t).
Proof. reflexivity. Qed.

Lemma exp_sign_unsolid u : hd_solid u = None -> exp_sign u = ([], u).
Proof. intros H; unsolid_head H; [reflexivity|]; unfold exp_sign; simpl; rewrite H5, H6; reflexivity. Qed.

Lemma exp_sign_clean t :
  exp_sign (clean t) = cl2 (exp_sign t).
Proof.
  destruct (clean_cases t) as [[x [t' [-> [S C]]]]|[H1 H2]].
  - rewrite C; unfold cl2; cbn [exp_sign].
    destruct (Ascii.eqb x "+"%char || Ascii.eqb x "-"%char); [reflexivity|].
    cbn [fst snd]; rewrite C; reflexivity.
  - rewrite (exp_sign_unsolid _ H1), (exp_sign_unsolid _ H2); reflexivity.
Qed.

Lemma exp_part_clean s : exp_part (clean s) = cl2 (exp_part s).
Proof.
  destruct (clean_cases s) as [[c [t [-> [S C]]]]|[H1 H2]].
  - rewrite C, !exp_part_eq.
    destruct (Ascii.eqb c "e"%char || Ascii.eqb c "E"%char);
      [|unfold cl2; cbn [fst snd]; rewrite C; reflexivity].
    rewrite exp_sign_clean; destruct (exp_sign t) as [sg t1]; unfold cl2 at 1; cbn [fst snd].
    rewrite take_digits_clean; destruct (take_digits t1) as [[|d ds] t2]; unfold cl2; cbn [fst snd];
      [rewrite C|]; reflexivity.
  - rewrite (exp_part_unsolid _ H1), (exp_part_unsolid _ H2); reflexivity.
Qed.

(** The optional minus of a number, as [scan_number] reads it. *)
Definition sign_split (s : payload) : payload * payload :=
  match s with
  | c :: t => if Ascii.eqb c "-"%char then ([c], t) else ([], s)
  | [] => ([], [])
  end.

Lemma scan_number_eq s :
  scan_number s =
  let (sign, s1) := sign_split s in
  match int_part s1 with
  | None => None
  | Some (ip, r1) =>
      let (fr, r2) := frac_part r1 in
      let (ex, r3) := exp_part r2 in
      match fr, ex with
      | [], [] =>
          Some (JInt (if Ascii.eqb (hd "+"%char sign) "-"%char
                      then (- digits_value ip)%Z else digits_value ip), r3)
      | _, _ => Some (JFloat (sign ++ ip ++ fr ++ ex), r3)
      end
  end.
Proof. reflexivity. Qed.

Lemma sign_split_unsolid u : hd_solid u = None -> sign_split u = ([], u).
Proof. intros H; unsolid_head H; [reflexivity|]; unfold sign_split; simpl; rewrite H5; reflexivity. Qed.

Lemma sign_split_clean s : sign_split (clean s) = cl2 (sign_split s).
Proof.
  destruct (clean_cases s) as [[c [t [-> [S C]]]]|[H1 H2]].
  - rewrite C; unfold cl2; cbn [sign_split].
    destruct (Ascii.eqb c "-"%char); cbn [fst snd]; [reflexivity|rewrite C; reflexivity].
  - rewrite (sign_split_unsolid _ H1), (sign_split_unsolid _ H2); reflexivity.
Qed.

Lemma scan_number_clean s : scan_number (clean s) = option_map cl2 (scan_number s).
Proof.
  rewrite !scan_number_eq, sign_split_clean.
  destruct (sign_split s) as [sign s1]; unfold cl2 at 1; cbn [fst snd].
  rewrite int_part_clean; destruct (int_part s1) as [[ip r1]|]; [|reflexivity].
  unfold option_map at 1, cl2 at 1; cbn [fst snd].
  rewrite frac_part_clean; destruct (frac_part r1) as [fr r2]; unfold cl2 at 1; cbn [fst snd].
  rewrite exp_part_clean; destruct (exp_part r2) as [ex r3]; unfold cl2 at 1; cbn [fst snd].
  destruct fr, ex; reflexivity.
Qed.

Lemma strip_prefix_clean l s :
  forallb solid l = true -> strip_prefix l (clean s) = option_map clean (strip_prefix l s).
Proof.
  revert s; induction l as [|x l IH]; intros s Hl; [reflexivity|].
  apply andb_prop in Hl; destruct Hl as [Hx Hl].
  destruct (clean_cases s) as [[c [t [-> [S C]]]]|[H1 H2]].
  - rewrite C; cbn [strip_prefix]; destruct (Ascii.eqb x c); [apply IH; exact Hl|reflexivity].
  - assert (G : forall u, hd_solid u = None -> strip_prefix (x :: l) u = None).
    { intros [|c u] H; [reflexivity|]; simpl in H |- *.
      destruct (Ascii.eqb x c) eqn:E; [|reflexivity].
      apply Ascii.eqb_eq in E; subst c; rewrite Hx in H; discriminate. }
    rewrite (G _ H1), (G _ H2); reflexivity.
Qed.

Lemma scan_scalar_clean s : scan_scalar (clean s) = option_map cl2 (scan_scalar s).
Proof.
  unfold scan_scalar.
  rewrite !strip_prefix_clean by reflexivity; rewrite scan_number_clean.
  destruct (strip_prefix (lit "null") s); [reflexivity|].
  destruct (strip_prefix (lit "true") s); [reflexivity|].
  destruct (strip_prefix (lit "false") s); [reflexivity|].
  destruct (scan_number s) as [[v r]|]; [reflexivity|].
  destruct (strip_prefix (lit "NaN") s); [reflexivity|].
  destruct (strip_prefix (lit "Infinity") s); [reflexivity|].
  destruct (strip_prefix (lit "-Infinity") s); reflexivity.
Qed.

(** Strings: a dropped comma inside a literal leaves a literal. *)

Lemma quote_not_comma : Ascii.eqb c_quote ","%char = false.
Proof. reflexivity. Qed.

Lemma bslash_not_comma : Ascii.eqb c_bslash ","%char = false.
Proof. reflexivity. Qed.

Lemma simple_escape_not_comma e n : simple_escape e = Some n -> Ascii.eqb e ","%char = false.
Proof.
  intros H; destruct (Ascii.eqb e ","%char) eqn:E; [|reflexivity].
  apply Ascii.eqb_eq in E; subst e; discriminate.
Qed.

Lemma hex4_not_comma h1 h2 h3 h4 n :
  hex4 h1 h2 h3 h4 = Some n ->
  Ascii.eqb h1 ","%char = false /\ Ascii.eqb h2 ","%char = false
  /\ Ascii.eqb h3 ","%char = false /\ Ascii.eqb h4 ","%char = false.
Proof.
  unfold hex4; intros H.
  destruct (hex_val h1) eqn:E1; [|discriminate].
  destruct (hex_val h2) eqn:E2; [|discriminate].
  destruct (hex_val h3) eqn:E3; [|discriminate].
  destruct (hex_val h4) eqn:E4; [|discriminate].
  assert (G : forall h m, hex_val h = Some m -> Ascii.eqb h ","%char = false).
  { intros h m Hh; destruct (Ascii.eqb h ","%char) eqn:E; [|reflexivity].
    apply Ascii.eqb_eq in E; subst h; discriminate. }
  repeat split; eapply G; eassumption.
Qed.

Lemma scan_chars_clean n :
  forall s acc x r, List.length s < n -> scan_chars s acc = Some (x, r) ->
  forall acc', exists x', scan_chars (clean s) acc' = Some (x', clean r).
Proof.
  induction n as [|n IH]; intros s acc x r L H acc'; [lia|].
  destruct s as [|c s1]; [discriminate|].
  cbn [scan_chars] in H.
  destruct (Ascii.eqb c c_quote) eqn:Q.
  - inversion H; subst r.
    apply Ascii.eqb_eq in Q; subst c.
    rewrite clean_cons_nc by reflexivity; cbn [scan_chars].
    eexists; reflexivity.
  - destruct (Ascii.eqb c c_bslash) eqn:B.
    + apply Ascii.eqb_eq in B; subst c.
      destruct s1 as [|e s2]; [discriminate|].
      destruct (simple_escape e) as [m|] eqn:SE.
      * rewrite clean_cons_nc, clean_cons_nc by (reflexivity || exact (simple_escape_not_comma e m SE)).
        cbn [scan_chars]; rewrite Q, SE.
        apply (IH s2 (m :: acc) x r); [simpl in L; lia|exact H].
      * destruct (Ascii.eqb e "u"%char) eqn:U; [|discriminate].
        apply Ascii.eqb_eq in U; subst e.
        destruct s2 as [|h1 [|h2 [|h3 [|h4 s3]]]]; try discriminate.
        destruct (hex4 h1 h2 h3 h4) as [m|] eqn:HX; [|discriminate].
        destruct (hex4_not_comma _ _ _ _ _ HX) as (N1 & N2 & N3 & N4).
        rewrite !clean_cons_nc by (reflexivity || assumption).
        cbn [scan_chars]; rewrite Q, SE, HX.
        apply (IH s3 (m :: acc) x r); [simpl in L; lia|exact H].
    + destruct (Nat.ltb (nat_of_ascii c) 32) eqn:Lt; [discriminate|].
      destruct (Ascii.eqb c ","%char && closes s1) eqn:D.
      * change (clean (c :: s1)) with (if Ascii.eqb c ","%char && closes s1 then clean s1 else c :: clean s1).
        rewrite D.
        apply (IH s1 (code c :: acc) x r); [simpl in L; lia|exact H].
      * change (clean (c :: s1)) with (if Ascii.eqb c ","%char && closes s1 then clean s1 else c :: clean s1).
        rewrite D; cbn [scan_chars]; rewrite Q, B, Lt.
        apply (IH s1 (code c :: acc) x r); [simpl in L; lia|exact H].
Qed.

(** Whitespace between tokens. *)

Lemma skip_ws_head u c u' : skip_ws u = c :: u' -> is_json_ws c = false.
Proof.
  induction u as [|a u IH]; simpl; [discriminate|].
  destruct (is_json_ws a) eqn:W; [exact IH|].
  intros H; inversion H; subst; exact W.
Qed.

Lemma skip_ws_length u : List.length (skip_ws u) <= List.length u.
Proof. induction u as [|a u IH]; simpl; [lia|]; destruct (is_json_ws a); simpl; lia. Qed.

Lemma json_ws_not_comma c : is_json_ws c = true -> Ascii.eqb c ","%char = false.
Proof. intros H; apply space_not_comma, json_ws_space, H. Qed.

Lemma json_ws_not_close c : is_json_ws c = true -> is_close c = false.
Proof. ascii_cases c; vm_compute; intros; congruence. Qed.

Lemma skip_ws_clean u : skip_ws (clean u) = skip_ws (clean (skip_ws u)).
Proof.
  induction u as [|a u IH]; [reflexivity|].
  cbn [skip_ws]; destruct (is_json_ws a) eqn:W; [|reflexivity].
  rewrite clean_cons_nc by (apply json_ws_not_comma; exact W).
  cbn [skip_ws]; rewrite W; exact IH.
Qed.

Lemma skip_ws_nc u c u' :
  skip_ws u = c :: u' -> Ascii.eqb c ","%char = false -> skip_ws (clean u) = c :: clean u'.
Proof.
  intros H N; rewrite skip_ws_clean, H, clean_cons_nc by exact N.
  cbn [skip_ws]; rewrite (skip_ws_head _ _ _ H); reflexivity.
Qed.

Lemma skip_ws_comma_keep u u' :
  skip_ws u = ","%char :: u' -> closes u' = false -> skip_ws (clean u) = ","%char :: clean u'.
Proof.
  intros H C; rewrite skip_ws_clean, H; cbn [clean]; rewrite C; reflexivity.
Qed.

Lemma skip_ws_comma_drop u u' :
  skip_ws u = ","%char :: u' -> closes u' = true -> skip_ws (clean u) = skip_ws (clean u').
Proof.
  intros H C; rewrite skip_ws_clean, H; cbn [clean]; rewrite C; reflexivity.
Qed.

Lemma closes_skip_ws u : closes (skip_ws u) = closes u.
Proof.
  induction u as [|a u IH]; [reflexivity|].
  cbn [skip_ws]; destruct (is_json_ws a) eqn:W; [|reflexivity].
  cbn [closes]; rewrite (json_ws_not_close _ W), (json_ws_space _ W); exact IH.
Qed.

Lemma closes_solid c u : solid c = true -> closes (c :: u) = false.
Proof.
  unfold solid; intros H; cbn [closes].
  destruct (Ascii.eqb c ","%char), (is_close c), (is_py_space c); simpl in H |- *;
    congruence.
Qed.

Lemma vstart_not_comma c : vstart c = true -> Ascii.eqb c ","%char = false.
Proof. ascii_cases c; vm_compute; intros; congruence. Qed.

Lemma length_tl {A} (l : list A) : List.length (tl l) <= List.length l.
Proof. destruct l; simpl; lia. Qed.

(** Every value starts with one of its start characters. *)

Lemma scan_scalar_vstart c t x : scan_scalar (c :: t) = Some x -> vstart c = true.
Proof.
  intros H; destruct (vstart c) eqn:V; [reflexivity|exfalso].
  ascii_cases c; try discriminate V; cbv in H; discriminate H.
Qed.

Lemma parse_value_vstart tc f t x :
  parse_value tc f t = Some x -> exists c t', t = c :: t' /\ vstart c = true.
Proof.
  destruct f as [|f]; [discriminate|].
  destruct t as [|c t']; [discriminate|].
  intros H; exists c, t'; split; [reflexivity|].
  cbn [parse_value] in H.
  destruct (Ascii.eqb c c_quote) eqn:E1; [unfold vstart; rewrite E1; reflexivity|].
  destruct (Ascii.eqb c "{"%char) eqn:E2; [unfold vstart; rewrite E2, orb_true_r; reflexivity|].
  destruct (Ascii.eqb c "["%char) eqn:E3; [unfold vstart; rewrite E3, orb_true_r; reflexivity|].
  apply scan_scalar_vstart in H; exact H.
Qed.

(** The lenient parse of a text and the strict parse of its normalised
    form walk the same values. *)

Lemma arr_loop_first tc pv g acc s x :
  arr_loop tc pv g acc s = Some x -> exists y, pv s = Some y.
Proof.
  destruct g as [|g]; [discriminate|]; cbn [arr_loop].
  destruct (pv s) as [y|]; [eauto|discriminate].
Qed.

Section Simulation.

Variable pvt pvf : payload -> option (jv * payload).
Hypothesis Hsim : forall u v r, pvt u = Some (v, r) -> exists v', pvf (clean u) = Some (v', clean r).
Hypothesis Hvs : forall u y, pvt u = Some y -> exists c u', u = c :: u' /\ vstart c = true.

Lemma arr_loop_sim g :
  forall acc s v r, arr_loop true pvt g acc s = Some (v, r) ->
  forall acc', exists v', arr_loop false pvf g acc' (clean s) = Some (v', clean r).
Proof.
  induction g as [|g IH]; intros acc s v r H acc'; [discriminate|].
  cbn [arr_loop] in H |- *.
  destruct (pvt s) as [[v0 r0]|] eqn:P; [|discriminate].
  destruct (Hsim _ _ _ P) as [v0' P']; rewrite P'.
  destruct (skip_ws r0) as [|c r'] eqn:SW; [discriminate|].
  destruct (Ascii.eqb c "]"%char) eqn:E1.
  - inversion H; subst r.
    apply Ascii.eqb_eq in E1; subst c.
    rewrite (skip_ws_nc _ _ _ SW) by reflexivity.
    cbn iota; rewrite Ascii.eqb_refl; eexists; reflexivity.
  - destruct (Ascii.eqb c ","%char) eqn:E2; [|discriminate].
    apply Ascii.eqb_eq in E2; subst c.
    destruct (true && peek_eq "]"%char (skip_ws r')) eqn:PK.
    + inversion H; subst r.
      destruct (skip_ws r') as [|d r3] eqn:SW'; [discriminate|].
      simpl in PK; apply Ascii.eqb_eq in PK; subst d.
      assert (Cl : closes r' = true) by (rewrite <- closes_skip_ws, SW'; reflexivity).
      rewrite (skip_ws_comma_drop _ _ SW Cl), (skip_ws_nc _ _ _ SW') by reflexivity.
      cbn iota; rewrite Ascii.eqb_refl; eexists; reflexivity.
    + destruct (arr_loop_first _ _ _ _ _ _ H) as [y Py].
      destruct (Hvs _ _ Py) as [c [u' [Eu Vc]]].
      destruct (vstart_solid c Vc) as [Sc _].
      assert (Cl : closes r' = false) by (rewrite <- closes_skip_ws, Eu; apply closes_solid, Sc).
      rewrite (skip_ws_comma_keep _ _ SW Cl).
      cbn iota; cbn [Ascii.eqb Bool.eqb andb].
      rewrite (skip_ws_nc _ _ _ Eu (vstart_not_comma c Vc)).
      rewrite <- (clean_cons_nc c u' (vstart_not_comma c Vc)), <- Eu.
      apply (IH _ _ _ _ H).
Qed.

Lemma obj_loop_sim g :
  forall acc s v r, obj_loop true pvt g acc s = Some (v, r) ->
  forall acc', exists v', obj_loop false pvf g acc' (clean s) = Some (v', clean r).
Proof.
  induction g as [|g IH]; intros acc s v r H acc'; [discriminate|].
  cbn [obj_loop] in H |- *.
  destruct (scan_chars s []) as [[k r0]|] eqn:SC; [|discriminate].
  destruct (scan_chars_clean (S (List.length s)) s [] k r0 (Nat.lt_succ_diag_r _) SC [])
    as [k' SC']; rewrite SC'.
  destruct (skip_ws r0) as [|c r1] eqn:SW0; [discriminate|].
  destruct (Ascii.eqb c ":"%char) eqn:Ec; [|discriminate].
  apply Ascii.eqb_eq in Ec; subst c.
  rewrite (skip_ws_nc _ _ _ SW0) by reflexivity.
  cbn iota; rewrite Ascii.eqb_refl.
  destruct (pvt (skip_ws r1)) as [[v0 r2]|] eqn:P; [|discriminate].
  destruct (Hvs _ _ P) as [c1 [u1 [E1 V1]]].
  rewrite (skip_ws_nc _ _ _ E1 (vstart_not_comma c1 V1)).
  rewrite <- (clean_cons_nc c1 u1 (vstart_not_comma c1 V1)), <- E1.
  destruct (Hsim _ _ _ P) as [v0' P']; rewrite P'.
  destruct (skip_ws r2) as [|d r3] eqn:SW2; [discriminate|].
  destruct (Ascii.eqb d "}"%char) eqn:Ed.
  - inversion H; subst r.
    apply Ascii.eqb_eq in Ed; subst d.
    rewrite (skip_ws_nc _ _ _ SW2) by reflexivity.
    cbn iota; rewrite Ascii.eqb_refl; eexists; reflexivity.
  - destruct (Ascii.eqb d ","%char) eqn:Ed2; [|discriminate].
    apply Ascii.eqb_eq in Ed2; subst d.
    destruct (skip_ws r3) as [|e r4] eqn:SW3; [discriminate|].
    destruct (Ascii.eqb e c_quote) eqn:Ee.
    + apply Ascii.eqb_eq in Ee; subst e.
      assert (Cl : closes r3 = false) by (rewrite <- closes_skip_ws, SW3; reflexivity).
      rewrite (skip_ws_comma_keep _ _ SW2 Cl).
      cbn iota; cbn [Ascii.eqb Bool.eqb].
      rewrite (skip_ws_nc _ _ _ SW3) by reflexivity.
      cbn iota; rewrite Ascii.eqb_refl.
      apply (IH _ _ _ _ H).
    + destruct (true && Ascii.eqb e "}"%char) eqn:Ec; [|discriminate].
      inversion H; subst r.
      simpl in Ec; apply Ascii.eqb_eq in Ec; subst e.
      assert (Cl : closes r3 = true) by (rewrite <- closes_skip_ws, SW3; reflexivity).
      rewrite (skip_ws_comma_drop _ _ SW2 Cl), (skip_ws_nc _ _ _ SW3) by reflexivity.
      cbn iota; rewrite Ascii.eqb_refl; eexists; reflexivity.
Qed.

End Simulation.

Lemma parse_value_sim f :
  forall t v r, parse_value true f t = Some (v, r) ->
  exists v', parse_value false f (clean t) = Some (v', clean r).
Proof.
  induction f as [|f IH]; intros t v r H; [discriminate|].
  assert (HV := parse_value_vstart _ _ _ _ H).
  destruct HV as [c [s1 [-> Vc]]].
  rewrite (clean_cons_nc c s1 (vstart_not_comma c Vc)).
  cbn [parse_value] in H |- *.
  destruct (Ascii.eqb c c_quote) eqn:Q.
  - destruct (scan_chars s1 []) as [[str r0]|] eqn:SC; [|discriminate].
    inversion H; subst r.
    destruct (scan_chars_clean (S (List.length s1)) s1 [] str r0 (Nat.lt_succ_diag_r _) SC [])
      as [str' SC']; rewrite SC'; eexists; reflexivity.
  - destruct (Ascii.eqb c "{"%char) eqn:B.
    + destruct (skip_ws s1) as [|d s3] eqn:SW; [discriminate|].
      destruct (Ascii.eqb d "}"%char) eqn:Ed.
      * inversion H; subst r.
        apply Ascii.eqb_eq in Ed; subst d.
        rewrite (skip_ws_nc _ _ _ SW) by reflexivity.
        cbn iota; rewrite Ascii.eqb_refl; eexists; reflexivity.
      * destruct (Ascii.eqb d c_quote) eqn:Eq; [|discriminate].
        apply Ascii.eqb_eq in Eq; subst d.
        rewrite (skip_ws_nc _ _ _ SW) by reflexivity.
        cbn iota; rewrite Ascii.eqb_refl.
        exact (obj_loop_sim _ _ IH (fun u y Hu => parse_value_vstart _ _ _ _ Hu) f [] s3 v r H []).
    + destruct (Ascii.eqb c "["%char) eqn:K.
      * destruct (peek_eq "]"%char (skip_ws s1)) eqn:PK.
        -- inversion H; subst v r.
           destruct (skip_ws s1) as [|d s3] eqn:SW; [discriminate|].
           simpl in PK; apply Ascii.eqb_eq in PK; subst d.
           rewrite (skip_ws_nc _ _ _ SW) by reflexivity.
           cbn; eexists; reflexivity.
        -- destruct (arr_loop_first _ _ _ _ _ _ H) as [y Py].
           destruct (parse_value_vstart _ _ _ _ Py) as [d [u [Eu Vd]]].
           rewrite (skip_ws_nc _ _ _ Eu (vstart_not_comma d Vd)).
           assert (Pd : peek_eq "]"%char (d :: clean u) = false).
           { rewrite Eu in PK; exact PK. }
           rewrite Pd, <- (clean_cons_nc d u (vstart_not_comma d Vd)), <- Eu.
           exact (arr_loop_sim _ _ IH (fun u y Hu => parse_value_vstart _ _ _ _ Hu) f [] _ v r H []).
      * rewrite <- (clean_cons_nc c s1 (vstart_not_comma c Vc)), scan_scalar_clean, H.
        eexists; reflexivity.
Qed.

(** Every value consumes a character, so the fuel of [json_parse] is
    enough for any text its value parse succeeds on. *)

Lemma take_digits_length s ds r : take_digits s = (ds, r) -> List.length r <= List.length s.
Proof.
  revert ds r; induction s as [|c s IH]; intros ds r H; cbn [take_digits] in H.
  - inversion H; simpl; lia.
  - destruct (is_digit c); [|inversion H; simpl; lia].
    destruct (take_digits s) as [ds' r'] eqn:T; inversion H; subst.
    specialize (IH _ _ eq_refl); simpl; lia.
Qed.

Lemma int_part_length s ip r : int_part s = Some (ip, r) -> List.length r < List.length s.
Proof.
  destruct s as [|c t]; cbn [int_part]; intros H; [discriminate|].
  destruct (Ascii.eqb c "0"%char); [inversion H; simpl; lia|].
  destruct (is_digit c); [|discriminate].
  destruct (take_digits t) as [ds r'] eqn:T; inversion H; subst.
  apply take_digits_length in T; simpl; lia.
Qed.

Lemma frac_part_length s fr r : frac_part s = (fr, r) -> List.length r <= List.length s.
Proof.
  destruct s as [|c [|d t]]; cbn [frac_part]; intros H; try (inversion H; simpl; lia).
  destruct (Ascii.eqb c "."%char && is_digit d); [|inversion H; simpl; lia].
  destruct (take_digits t) as [ds r'] eqn:T; inversion H; subst.
  apply take_digits_length in T; simpl; lia.
Qed.

Lemma exp_sign_length t sg t1 : exp_sign t = (sg, t1) -> List.length t1 <= List.length t.
Proof.
  destruct t as [|x t']; cbn [exp_sign]; intros H; [inversion H; simpl; lia|].
  destruct (Ascii.eqb x "+"%char || Ascii.eqb x "-"%char); inversion H; simpl; lia.
Qed.

Lemma exp_part_length s ex r : exp_part s = (ex, r) -> List.length r <= List.length s.
Proof.
  destruct s as [|c t]; intros H; [inversion H; simpl; lia|].
  rewrite exp_part_eq in H.
  destruct (Ascii.eqb c "e"%char || Ascii.eqb c "E"%char); [|inversion H; simpl; lia].
  destruct (exp_sign t) as [sg t1] eqn:ES.
  destruct (take_digits t1) as [[|d ds] t2] eqn:T; inversion H; subst; [simpl; lia|].
  apply take_digits_length in T; apply exp_sign_length in ES; simpl; lia.
Qed.

Lemma sign_split_length s sg s1 : sign_split s = (sg, s1) -> List.length s1 <= List.length s.
Proof.
  destruct s as [|c t]; cbn [sign_split]; intros H; [inversion H; simpl; lia|].
  destruct (Ascii.eqb c "-"%char); inversion H; simpl; lia.
Qed.

Lemma scan_number_length s v r : scan_number s = Some (v, r) -> List.length r < List.length s.
Proof.
  rewrite scan_number_eq.
  destruct (sign_split s) as [sg s1] eqn:E0.
  destruct (int_part s1) as [[ip r1]|] eqn:E1; [|discriminate].
  destruct (frac_part r1) as [fr r2] eqn:E2.
  destruct (exp_part r2) as [ex r3] eqn:E3.
  apply sign_split_length in E0; apply int_part_length in E1;
    apply frac_part_length in E2; apply exp_part_length in E3.
  destruct fr, ex; intros H; inversion H; subst; lia.
Qed.

Lemma strip_prefix_length l s r :
  strip_prefix l s = Some r -> List.length r + List.length l = List.length s.
Proof.
  revert s; induction l as [|x l IH]; intros s H; cbn [strip_prefix] in H.
  - inversion H; simpl; lia.
  - destruct s as [|c s]; [discriminate|].
    destruct (Ascii.eqb x c); [|discriminate].
    apply IH in H; simpl; lia.
Qed.

Lemma scan_scalar_length s v r : scan_scalar s = Some (v, r) -> List.length r < List.length s.
Proof.
  unfold scan_scalar.
  destruct (strip_prefix (lit "null") s) eqn:E;
    [intros H; inversion H; subst; apply strip_prefix_length in E; simpl in E; lia|].
  destruct (strip_prefix (lit "true") s) eqn:E';
    [intros H; inversion H; subst; apply strip_prefix_length in E'; simpl in E'; lia|].
  destruct (strip_prefix (lit "false") s) eqn:E2;
    [intros H; inversion H; subst; apply strip_prefix_length in E2; simpl in E2; lia|].
  destruct (scan_number s) as [[v' r']|] eqn:E3;
    [intros H; inversion H; subst; exact (scan_number_length _ _ _ E3)|].
  destruct (strip_prefix (lit "NaN") s) eqn:E4;
    [intros H; inversion H; subst; apply strip_prefix_length in E4; simpl in E4; lia|].
  destruct (strip_prefix (lit "Infinity") s) eqn:E5;
    [intros H; inversion H; subst; apply strip_prefix_length in E5; simpl in E5; lia|].
  destruct (strip_prefix (lit "-Infinity") s) eqn:E6;
    [intros H; inversion H; subst; apply strip_prefix_length in E6; simpl in E6; lia|].
  discriminate.
Qed.

Lemma scan_chars_length n :
  forall s acc x r, List.length s < n -> scan_chars s acc = Some (x, r) ->
  List.length r < List.length s.
Proof.
  induction n as [|n IH]; intros s acc x r L H; [lia|].
  destruct s as [|c s1]; [discriminate|].
  cbn [scan_chars] in H.
  destruct (Ascii.eqb c c_quote); [inversion H; subst; simpl; lia|].
  destruct (Ascii.eqb c c_bslash).
  - destruct s1 as [|e s2]; [discriminate|].
    destruct (simple_escape e) as [m|].
    + apply IH in H; simpl in *; lia.
    + destruct (Ascii.eqb e "u"%char); [|discriminate].
      destruct s2 as [|h1 [|h2 [|h3 [|h4 s3]]]]; try discriminate.
      destruct (hex4 h1 h2 h3 h4); [|discriminate].
      apply IH in H; simpl in *; lia.
  - destruct (Nat.ltb (nat_of_ascii c) 32); [discriminate|].
    apply IH in H; simpl in *; lia.
Qed.

Section Fuel.

Variable tc : bool.
Variable pv pv' : payload -> option (jv * payload).
Hypothesis Hcons : forall u v r, pv u = Some (v, r) -> List.length r < List.length u.

Lemma arr_loop_length g :
  forall acc s v r, arr_loop tc pv g acc s = Some (v, r) -> List.length r < List.length s.
Proof.
  induction g as [|g IH]; intros acc s v r H; [discriminate|].
  cbn [arr_loop] in H.
  destruct (pv s) as [[v0 r0]|] eqn:P; [|discriminate].
  apply Hcons in P.
  destruct (skip_ws r0) as [|c r'] eqn:SW; [discriminate|].
  assert (L0 := skip_ws_length r0); rewrite SW in L0; simpl in L0.
  destruct (Ascii.eqb c "]"%char); [inversion H; subst; lia|].
  destruct (Ascii.eqb c ","%char); [|discriminate].
  assert (L1 := skip_ws_length r').
  destruct (tc && peek_eq "]"%char (skip_ws r')).
  - inversion H; subst; assert (L2 := length_tl (skip_ws r')); lia.
  - apply IH in H; lia.
Qed.

Lemma obj_loop_length g :
  forall acc s v r, obj_loop tc pv g acc s = Some (v, r) -> List.length r < List.length s.
Proof.
  induction g as [|g IH]; intros acc s v r H; [discriminate|].
  cbn [obj_loop] in H.
  destruct (scan_chars s []) as [[k r0]|] eqn:SC; [|discriminate].
  apply (scan_chars_length (S (List.length s))) in SC; [|lia].
  destruct (skip_ws r0) as [|c r1] eqn:SW0; [discriminate|].
  assert (L0 := skip_ws_length r0); rewrite SW0 in L0; simpl in L0.
  destruct (Ascii.eqb c ":"%char); [|discriminate].
  destruct (pv (skip_ws r1)) as [[v0 r2]|] eqn:P; [|discriminate].
  apply Hcons in P; assert (L1 := skip_ws_length r1).
  destruct (skip_ws r2) as [|d r3] eqn:SW2; [discriminate|].
  assert (L2 := skip_ws_length r2); rewrite SW2 in L2; simpl in L2.
  destruct (Ascii.eqb d "}"%char); [inversion H; subst; lia|].
  destruct (Ascii.eqb d ","%char); [|discriminate].
  destruct (skip_ws r3) as [|e r4] eqn:SW3; [discriminate|].
  assert (L3 := skip_ws_length r3); rewrite SW3 in L3; simpl in L3.
  destruct (Ascii.eqb e c_quote); [apply IH in H; lia|].
  destruct (tc && Ascii.eqb e "}"%char); [inversion H; subst; lia|discriminate].
Qed.

Variable n : nat.
Hypothesis Hmono : forall u y, List.length u < n -> pv u = Some y -> pv' u = Some y.

Lemma arr_loop_fuel g :
  forall acc s x, arr_loop tc pv g acc s = Some x -> List.length s < n ->
  forall g', List.length s < g' -> arr_loop tc pv' g' acc s = Some x.
Proof.
  induction g as [|g IH]; intros acc s x H Ln g' Lg; [discriminate|].
  destruct g' as [|g']; [lia|].
  cbn [arr_loop] in H |- *.
  destruct (pv s) as [[v0 r0]|] eqn:P; [|discriminate].
  rewrite (Hmono _ _ Ln P).
  apply Hcons in P.
  destruct (skip_ws r0) as [|c r'] eqn:SW; [discriminate|].
  assert (L0 := skip_ws_length r0); rewrite SW in L0; simpl in L0.
  destruct (Ascii.eqb c "]"%char); [exact H|].
  destruct (Ascii.eqb c ","%char); [|discriminate].
  assert (L1 := skip_ws_length r').
  destruct (tc && peek_eq "]"%char (skip_ws r')); [exact H|].
  apply (IH _ _ _ H); lia.
Qed.

Lemma obj_loop_fuel g :
  forall acc s x, obj_loop tc pv g acc s = Some x -> List.length s < n ->
  forall g', List.length s < g' -> obj_loop tc pv' g' acc s = Some x.
Proof.
  induction g as [|g IH]; intros acc s x H Ln g' Lg; [discriminate|].
  destruct g' as [|g']; [lia|].
  cbn [obj_loop] in H |- *.
  destruct (scan_chars s []) as [[k r0]|] eqn:SC; [|discriminate].
  apply (scan_chars_length (S (List.length s))) in SC; [|lia].
  destruct (skip_ws r0) as [|c r1] eqn:SW0; [discriminate|].
  assert (L0 := skip_ws_length r0); rewrite SW0 in L0; simpl in L0.
  destruct (Ascii.eqb c ":"%char); [|discriminate].
  assert (L1 := skip_ws_length r1).
  destruct (pv (skip_ws r1)) as [[v0 r2]|] eqn:P; [|discriminate].
  assert (Lu : List.length (skip_ws r1) < n) by lia.
  rewrite (Hmono _ _ Lu P).
  apply Hcons in P.
  destruct (skip_ws r2) as [|d r3] eqn:SW2; [discriminate|].
  assert (L2 := skip_ws_length r2); rewrite SW2 in L2; simpl in L2.
  destruct (Ascii.eqb d "}"%char); [exact H|].
  destruct (Ascii.eqb d ","%char); [|discriminate].
  destruct (skip_ws r3) as [|e r4] eqn:SW3; [discriminate|].
  assert (L3 := skip_ws_length r3); rewrite SW3 in L3; simpl in L3.
  destruct (Ascii.eqb e c_quote); [|exact H].
  apply (IH _ _ _ H); lia.
Qed.

End Fuel.

Lemma parse_value_length tc f :
  forall t v r, parse_value tc f t = Some (v, r) -> List.length r < List.length t.
Proof.
  induction f as [|f IH]; intros t v r H; [discriminate|].
  destruct t as [|c s1]; [discriminate|].
  cbn [parse_value] in H.
  destruct (Ascii.eqb c c_quote).
  - destruct (scan_chars s1 []) as [[str r0]|] eqn:SC; [|discriminate].
    inversion H; subst.
    apply (scan_chars_length (S (List.length s1))) in SC; [simpl; lia|lia].
  - destruct (Ascii.eqb c "{"%char).
    + destruct (skip_ws s1) as [|d s3] eqn:SW; [discriminate|].
      assert (L0 := skip_ws_length s1); rewrite SW in L0; simpl in L0.
      destruct (Ascii.eqb d "}"%char); [inversion H; subst; simpl; lia|].
      destruct (Ascii.eqb d c_quote); [|discriminate].
      apply (obj_loop_length tc _ IH) in H; simpl; lia.
    + destruct (Ascii.eqb c "["%char).
      * assert (L0 := skip_ws_length s1).
        destruct (peek_eq "]"%char (skip_ws s1)).
        -- inversion H; subst; assert (L1 := length_tl (skip_ws s1)); simpl; lia.
        -- apply (arr_loop_length tc _ IH) in H; simpl; lia.
      * apply scan_scalar_length in H; exact H.
Qed.

Lemma parse_value_fuel tc f :
  forall t x, parse_value tc f t = Some x ->
  forall f', List.length t < f' -> parse_value tc f' t = Some x.
Proof.
  induction f as [|f IH]; intros t x H f' L; [discriminate|].
  destruct f' as [|f']; [lia|].
  destruct t as [|c s1]; [discriminate|].
  simpl in L.
  cbn [parse_value] in H |- *.
  destruct (Ascii.eqb c c_quote); [exact H|].
  destruct (Ascii.eqb c "{"%char).
  - destruct (skip_ws s1) as [|d s3] eqn:SW; [discriminate|].
    assert (L0 := skip_ws_length s1); rewrite SW in L0; simpl in L0.
    destruct (Ascii.eqb d "}"%char); [exact H|].
    destruct (Ascii.eqb d c_quote); [|discriminate].
    refine (obj_loop_fuel tc _ _ (parse_value_length tc f) f' _ f [] s3 x H _ f' _); [|lia|lia].
    intros u y Lu Hu; apply (IH u y Hu f' Lu).
  - destruct (Ascii.eqb c "["%char); [|exact H].
    assert (L0 := skip_ws_length s1).
    destruct (peek_eq "]"%char (skip_ws s1)); [exact H|].
    refine (arr_loop_fuel tc _ _ (parse_value_length tc f) f' _ f [] _ x H _ f' _); [|lia|lia].
    intros u y Lu Hu; apply (IH u y Hu f' Lu).
Qed.

(** [re.sub] is the filter. *)

Definition no_comma (g : payload) : bool := forallb (fun c => negb (Ascii.eqb c ","%char)) g.

Lemma clean_app_nc g r : no_comma g = true -> clean (g ++ r) = g ++ clean r.
Proof.
  induction g as [|c g IH]; intros H; [reflexivity|].
  simpl in H; apply andb_prop in H; destruct H as [Hc Hg].
  simpl app; rewrite clean_cons_nc by (apply negb_true_iff; exact Hc).
  rewrite IH by exact Hg; reflexivity.
Qed.

Lemma match_group_spec s :
  match match_group s with
  | Some (g, r) => s = g ++ r /\ g <> [] /\ closes s = true /\ no_comma g = true
  | None => closes s = false
  end.
Proof.
  induction s as [|c s IH]; [reflexivity|].
  cbn [match_group closes].
  destruct (is_close c) eqn:Cl.
  - repeat split; [discriminate|].
    simpl; rewrite (close_not_comma c Cl); reflexivity.
  - destruct (is_py_space c) eqn:Sp; [|reflexivity].
    destruct (match_group s) as [[g r]|]; [|exact IH].
    destruct IH as (-> & _ & C & N).
    repeat split; [discriminate|exact C|].
    simpl; rewrite (space_not_comma c Sp), N; reflexivity.
Qed.

Lemma re_sub_clean n : forall s, List.length s <= n -> re_sub_fuel n s = clean s.
Proof.
  induction n as [|n IH]; intros s L.
  - destruct s; [reflexivity|simpl in L; lia].
  - destruct s as [|c s]; [reflexivity|].
    simpl in L; cbn [re_sub_fuel clean].
    destruct (Ascii.eqb c ","%char); cbn [andb].
    + assert (M := match_group_spec s).
      destruct (match_group s) as [[g r]|].
      * destruct M as (-> & Hg & C & N).
        rewrite C, clean_app_nc by exact N.
        rewrite IH; [reflexivity|].
        rewrite length_app in L; destruct g; [congruence|simpl in L; lia].
      * rewrite M, IH by lia; reflexivity.
    + rewrite IH by lia; reflexivity.
Qed.

Lemma cleaned_response_clean s : cleaned_response s = clean s.
Proof. apply re_sub_clean; lia. Qed.

Lemma closes_app a t : closes t = false -> closes (a ++ t) = closes a.
Proof.
  intros H; induction a as [|c a IH]; [exact H|].
  simpl app; cbn [closes]; rewrite IH; reflexivity.
Qed.

Lemma clean_app a t : closes t = false -> clean (a ++ t) = clean a ++ clean t.
Proof.
  intros H; induction a as [|c a IH]; [reflexivity|].
  simpl app; cbn [clean]; rewrite closes_app by exact H.
  destruct (Ascii.eqb c ","%char && closes a); rewrite IH; reflexivity.
Qed.

Lemma skip_ws_clean_nil r : skip_ws r = [] -> skip_ws (clean r) = [].
Proof. intros H; rewrite skip_ws_clean, H; reflexivity. Qed.

Lemma length_skip_ws_clean s : List.length (skip_ws (clean s)) <= List.length (clean s).
Proof. apply skip_ws_length. Qed.

Lemma lenient_parse_normalised s v :
  json_parse true s = Some v -> exists v', json_loads (cleaned_response s) = Some v'.
Proof.
  unfold json_loads, json_parse; rewrite cleaned_response_clean.
  destruct (parse_value true (S (List.length s)) (skip_ws s)) as [[v0 r]|] eqn:P; [|discriminate].
  destruct (skip_ws r) eqn:R; [|discriminate]; intros _.
  destruct (parse_value_vstart _ _ _ _ P) as [c [u [Eu Vc]]].
  destruct (parse_value_sim _ _ _ _ P) as [v' P'].
  assert (Sk : skip_ws (clean s) = clean (skip_ws s)).
  { rewrite (skip_ws_nc _ _ _ Eu (vstart_not_comma c Vc)), Eu, clean_cons_nc
      by exact (vstart_not_comma c Vc); reflexivity. }
  rewrite Sk.
  assert (L : List.length (clean (skip_ws s)) < S (List.length (clean s))).
  { rewrite <- Sk; assert (Hl := length_skip_ws_clean s); lia. }
  rewrite (parse_value_fuel _ _ _ _ P' _ L), (skip_ws_clean_nil _ R).
  eexists; reflexivity.
Qed.

(** The content plan of one slide whose slot [idea_1] holds [slot]. *)
Definition plan_json (slot : string) : jv :=
  JObj [(jkey "presentation_title", JStr (jkey "Deck"));
        (jkey "slides",
         JArr [JObj [(jkey "slide_index", JInt 4);
                     (jkey "slide_title", JStr (jkey "S"));
                     (jkey "slots", JObj [(jkey "idea_1", JStr (jkey slot))])]])].

Definition plan_text : payload :=
  jlit "{'presentation_title': 'Deck', 'slides': [{'slide_index': 4, 'slide_title': 'S', 'slots': {'idea_1': 'Cost, }'}}]}".

(** C9: the normalisation turns every payload that is JSON except for
    trailing commas right before a closing bracket (the lenient parse
    [json_parse true] accepts it) into a payload [json.loads] accepts;
    the payload [{"a": 1,}] loads, after normalisation, as [{"a": 1}]. *)
Theorem trailing_commas_normalised :
  (forall s v, json_parse true s = Some v -> exists v', json_loads (cleaned_response s) = Some v')
  /\ json_loads (jlit "{'a': 1,}") = None
  /\ json_loads (cleaned_response (jlit "{'a': 1,}")) = Some (JObj [(jkey "a", JInt 1)]).
Proof.
  split; [exact lenient_parse_normalised|].
  split; vm_compute; reflexivity.
Qed.

Lemma trailing_commas_normalised_witness :
  json_parse true (jlit "{'a': 1,}") = Some (JObj [(jkey "a", JInt 1)])
  /\ exists v', json_loads (cleaned_response (jlit "{'a': 1,}")) = Some v'.
Proof.
  split; [vm_compute; reflexivity|].
  apply (proj1 trailing_commas_normalised _ (JObj [(jkey "a", JInt 1)])).
  vm_compute; reflexivity.
Defined.

(** C10: the normalisation deletes a comma followed by [\s*] and a
    bracket wherever it stands, whatever the text around it (inside a
    string literal too); a valid content plan whose slot text holds
    ["Cost, }"] loads, after normalisation, with the slot text ["Cost }"]. *)
Theorem normalisation_not_json_aware a w c b :
  forallb is_py_space w = true -> is_close c = true ->
  cleaned_response (a ++ ","%char :: w ++ c :: b)
  = cleaned_response a ++ w ++ c :: cleaned_response b
  /\ json_loads plan_text = Some (plan_json "Cost, }")
  /\ json_loads (cleaned_response plan_text) = Some (plan_json "Cost }")
  /\ plan_json "Cost, }" <> plan_json "Cost }".
Proof.
  intros Hw Hc.
  split; [|split; [vm_compute; reflexivity|split; [vm_compute; reflexivity|]]].
  - rewrite !cleaned_response_clean.
    rewrite clean_app by reflexivity; f_equal.
    assert (Cl : closes (w ++ c :: b) = true).
    { clear - Hw Hc; induction w as [|x w IH]; cbn [app closes]; [rewrite Hc; reflexivity|].
      simpl in Hw; apply andb_prop in Hw; destruct Hw as [Hx Hw].
      rewrite Hx; destruct (is_close x); [reflexivity|exact (IH Hw)]. }
    cbn [clean]; rewrite Cl; cbn [andb].
    rewrite clean_app_nc.
    + rewrite clean_cons_nc by exact (close_not_comma c Hc); reflexivity.
    + clear - Hw; induction w as [|x w IH]; [reflexivity|].
      simpl in Hw |- *; apply andb_prop in Hw; destruct Hw as [Hx Hw].
      rewrite (space_not_comma x Hx); exact (IH Hw).
  - vm_compute; discriminate.
Qed.

Lemma normalisation_not_json_aware_witness :
  cleaned_response (jlit "{'k': 'x" ++ ","%char :: [" "%char] ++ "]"%char :: jlit "'}")
  = jlit "{'k': 'x ]'}".
Proof.
  destruct (normalisation_not_json_aware (jlit "{'k': 'x") [" "%char] "]"%char (jlit "'}")
              eq_refl eq_refl) as [E _].
  rewrite E; vm_compute; reflexivity.
Defined.
(* ------------------------------------------------------------------ *)
(** ** The final slide: the template with the write log replayed *)

Open Scope string_scope.

Definition apply_write (sl : slide) (w : write) : slide :=
  match w with
  | WText p t =>
      match nth_error sl p with
      | Some (mkShape n (KText _)) => update_nth sl p (mkShape n (KText t))
      | _ => sl
      end
  | WCell p r c t =>
      match nth_error sl p with
      | Some (mkShape n (KTable cells)) =>
          match set_cell cells r c t with
          | Some cells' => update_nth sl p (mkShape n (KTable cells'))
          | None => sl
          end
      | _ => sl
      end
  end.

Definition replay (sl : slide) (ws : list write) : slide := fold_left apply_write ws sl.

(** [m] always succeeds, keeps the cache, appends [f st] to the log, and
    leaves the slide it started from with [f st] replayed on it. *)
Definition Replays (m : SE fstate unit) (f : fstate -> list write) : Prop :=
  respects f /\
  forall st, m st = (Ok tt, mkF (replay (fs_slide st) (f st)) (fs_cache st)
                                (fs_log st ++ f st)%list).

Lemma skel_apply_write sl w : skel (apply_write sl w) = skel sl.
Proof.
  unfold skel; destruct w as [p t|p r c t]; simpl.
  - destruct (nth_error sl p) as [[n [t0| |]]|] eqn:E; auto.
    apply (map_update_nth _ _ _ _ _ E); reflexivity.
  - destruct (nth_error sl p) as [[n [|cells|]]|] eqn:E; auto.
    pose proof (set_cell_spec cells r c t) as Hs.
    destruct (set_cell cells r c t) as [cells'|]; auto.
    apply (map_update_nth _ _ _ _ _ E); simpl; rewrite (proj2 Hs); reflexivity.
Qed.

Lemma skel_replay sl ws : skel (replay sl ws) = skel sl.
Proof.
  unfold replay; revert sl; induction ws as [|w ws IH]; intros sl; simpl; auto.
  rewrite IH; apply skel_apply_write.
Qed.

Lemma Replays_Writes m f : Replays m f -> Writes m f.
Proof.
  intros [R H]; split; [exact R|].
  intros st; exists (replay (fs_slide st) (f st)); split; [apply H|apply skel_replay].
Qed.

Lemma Replays_set_text name text :
  Replays (_set_text name text) (fun st => text_write st name text).
Proof.
  split; [intros ? ? ? ?; apply text_write_skel; auto|].
  intros [sl cache lg]; unfold _set_text, text_write, text_target, skel; simpl.
  destruct (_get_shape cache name) as [p|]; [|rewrite app_nil_r; reflexivity].
  rewrite nth_error_map.
  destruct (nth_error sl p) as [[n [t| |]]|] eqn:E; simpl;
    try (rewrite app_nil_r; reflexivity).
  unfold replay; simpl; rewrite E; reflexivity.
Qed.

Lemma Replays_set_table_cell name row col text :
  Replays (_set_table_cell name row col text) (fun st => cell_write st name row col text).
Proof.
  split; [intros ? ? ? ?; apply cell_write_skel; auto|].
  intros [sl cache lg]; unfold _set_table_cell, cell_write, cell_target, skel; simpl.
  destruct (_get_shape cache name) as [p|]; [|rewrite app_nil_r; reflexivity].
  rewrite nth_error_map.
  destruct (nth_error sl p) as [[n [t|cells|]]|] eqn:E; simpl;
    try (rewrite app_nil_r; reflexivity).
  pose proof (set_cell_spec cells row col text) as Hs.
  destruct (set_cell cells row col text) as [cells'|] eqn:Ec.
  - rewrite (proj1 Hs); unfold replay; simpl; rewrite E, Ec; reflexivity.
  - rewrite Hs, app_nil_r; reflexivity.
Qed.

Lemma Replays_ret : Replays (ret tt) (fun _ => []).
Proof.
  split; [intros ? ? ? ?; reflexivity|].
  intros [sl c l]; simpl; rewrite app_nil_r; reflexivity.
Qed.

Lemma Replays_bind m1 m2 f1 f2 :
  Replays m1 f1 -> Replays m2 f2 -> Replays (m1 ;; m2) (fun st => f1 st ++ f2 st)%list.
Proof.
  intros [R1 H1] [R2 H2]; split.
  - intros st st' Hc Hs; rewrite (R1 st st'), (R2 st st'); auto.
  - intros st; unfold bind; rewrite H1, H2; simpl.
    rewrite (R2 st (mkF (replay (fs_slide st) (f1 st)) (fs_cache st) (fs_log st ++ f1 st)%list))
      by (simpl; auto using skel_replay).
    unfold replay; rewrite fold_left_app, app_assoc; reflexivity.
Qed.

Lemma Replays_if_in k content body f :
  (forall v, Replays (body v) (f v)) ->
  Replays (if_in k content body)
          (fun st => match dict_get k content with Some v => f v st | None => [] end).
Proof.
  intros H; unfold if_in; destruct (dict_get k content) as [v|]; [apply H|].
  apply Replays_ret.
Qed.

Lemma Replays_getitem k content x (m : string -> SE fstate unit) f :
  dict_get k content = Some x -> Replays (m x) f ->
  Replays (v <- getitem content k ;; m v) f.
Proof. intros E; unfold getitem, key, bind, ret; rewrite E; auto. Qed.

Lemma getitem_missing {A} k content (m : string -> SE fstate A) st :
  dict_get k content = None -> (v <- getitem content k ;; m v) st = (Err (KeyError k), st).
Proof. intros E; unfold getitem, key, bind, raise; rewrite E; reflexivity. Qed.

Lemma Replays_ret_bind {A} (x : A) (k : A -> SE fstate unit) f :
  Replays (k x) f -> Replays (y <- ret x ;; k y) f.
Proof. intros [R H]; split; [exact R|intros st; exact (H st)]. Qed.

Lemma run_fill_Replays m f sl :
  Replays m f ->
  run_fill (_build_shape_cache ;; m) sl
  = (Ok tt, mkF (replay sl (f (cached sl))) (cache_of sl 0 []) (f (cached sl))).
Proof. intros [_ H]; unfold run_fill, bind, _build_shape_cache; simpl; rewrite H; reflexivity. Qed.

(** [(m ;; k)] after a replaying [m]. *)
Lemma Replays_then m f (k : SE fstate unit) st :
  Replays m f ->
  (m ;; k) st = k (mkF (replay (fs_slide st) (f st)) (fs_cache st) (fs_log st ++ f st)%list).
Proof. intros [_ H]; unfold bind; rewrite H; reflexivity. Qed.

(** The writes of [if k in content: _set_text(name, content[k])]. *)
Definition opt_text (st : fstate) (k : string) (content : dict string) (name : string)
  : list write :=
  match dict_get k content with
  | Some v => text_write st name v
  | None => []
  end.

Lemma Replays_opt_text k content name :
  Replays (if_in k content (fun v => _set_text name v)) (fun st => opt_text st k content name).
Proof.
  unfold opt_text; apply Replays_if_in; intros v; apply Replays_set_text.
Qed.

Lemma bind_assoc {S A B C} (m1 : SE S A) (m2 : SE S B) (k : SE S C) st :
  (m1 ;; (m2 ;; k)) st = ((m1 ;; m2) ;; k) st.
Proof. unfold bind; destruct (m1 st) as [[a|e] s']; reflexivity. Qed.

Lemma bind_err {S A B} (m : SE S A) (k : A -> SE S B) st e st' :
  m st = (Err e, st') -> bind m k st = (Err e, st').
Proof. intros E; unfold bind; rewrite E; reflexivity. Qed.

Ltac replays_auto_with t :=
  repeat first [ t | apply Replays_opt_text | apply Replays_bind | apply Replays_set_text | apply Replays_set_table_cell
               | apply Replays_ret | apply Replays_if_in; intro ].

Ltac replays_auto := replays_auto_with fail.

(** The text a shape shows, if it has a text frame. *)
Definition text_at (sl : slide) (p : nat) : option string :=
  match nth_error sl p with
  | Some (mkShape _ (KText t)) => Some t
  | _ => None
  end.

(** The text of the last write to the text frame of shape [p] in a log. *)
Fixpoint last_text (p : nat) (ws : list write) : option string :=
  match ws with
  | [] => None
  | WText q t :: ws' =>
      match last_text p ws' with
      | Some u => Some u
      | None => if Nat.eqb q p then Some t else None
      end
  | WCell _ _ _ _ :: ws' => last_text p ws'
  end.

Lemma text_at_apply_write sl w p :
  text_at (apply_write sl w) p
  = match w with
    | WText q t => if Nat.eqb q p then option_map (fun _ => t) (text_at sl p) else text_at sl p
    | WCell _ _ _ _ => text_at sl p
    end.
Proof.
  unfold text_at; destruct w as [q t|q r c t]; simpl.
  - destruct (Nat.eqb_spec q p) as [->|Hne].
    + destruct (nth_error sl p) as [[n [t0| |]]|] eqn:E; simpl; try rewrite E; auto.
      rewrite (nth_error_update_nth_same _ _ _ _ E); reflexivity.
    + destruct (nth_error sl q) as [[n [t0| |]]|] eqn:E; auto.
      rewrite nth_error_update_nth_other by exact Hne; reflexivity.
  - destruct (nth_error sl q) as [[n [|cells|]]|] eqn:E; auto.
    destruct (set_cell cells r c t) as [cells'|]; auto.
    destruct (Nat.eqb_spec q p) as [->|Hne].
    + rewrite (nth_error_update_nth_same _ _ _ _ E), E; reflexivity.
    + rewrite nth_error_update_nth_other by exact Hne; reflexivity.
Qed.

Lemma text_at_replay sl ws p :
  text_at (replay sl ws) p
  = match text_at sl p with
    | Some t0 => match last_text p ws with Some t => Some t | None => Some t0 end
    | None => None
    end.
Proof.
  unfold replay; revert sl; induction ws as [|w ws IH]; intros sl; simpl.
  - destruct (text_at sl p); reflexivity.
  - rewrite IH, text_at_apply_write.
    destruct w as [q t|q r c t]; [|reflexivity].
    destruct (Nat.eqb q p), (text_at sl p), (last_text p ws); reflexivity.
Qed.

Lemma last_text_app p a b :
  last_text p (a ++ b)%list
  = match last_text p b with Some t => Some t | None => last_text p a end.
Proof.
  induction a as [|w a IH]; simpl.
  - destruct (last_text p b); reflexivity.
  - rewrite IH; destruct w; [|reflexivity].
    destruct (last_text p b), (last_text p a); reflexivity.
Qed.

(** A resolved text target of the cache [_build_shape_cache] builds is a
    text shape whose lowered name is the lowered name asked for. *)
Lemma text_target_cached sl name p :
  text_target (cached sl) name = Some p ->
  exists n t0, nth_error sl p = Some (mkShape n (KText t0)) /\ lower n = lower name.
Proof.
  unfold text_target, cached, _get_shape; simpl.
  rewrite cache_of_get.
  destruct (find_last (lower name) sl) as [j|] eqn:F; [|discriminate]; simpl.
  unfold skel; rewrite nth_error_map.
  destruct (find_last_Some _ _ _ F) as [[n k] [N [L _]]].
  rewrite N; simpl.
  destruct k as [t0| |]; simpl; try discriminate.
  intros E; inversion E; subst; eauto.
Qed.

Lemma text_target_text_at sl name p :
  text_target (cached sl) name = Some p -> exists t0, text_at sl p = Some t0.
Proof.
  intros H; destruct (text_target_cached _ _ _ H) as [n [t0 [N _]]].
  exists t0; unfold text_at; rewrite N; reflexivity.
Qed.

Lemma text_target_lower st name name' :
  lower name' = lower name -> text_target st name' = text_target st name.
Proof. intros E; unfold text_target, _get_shape; rewrite E; reflexivity. Qed.

(** What a [_set_text name'] call leaves as the last text of the shape
    that [name] resolves to. *)
Lemma last_text_text_write sl name name' p t :
  text_target (cached sl) name = Some p ->
  last_text p (text_write (cached sl) name' t)
  = if String.eqb (lower name') (lower name) then Some t else None.
Proof.
  intros H; destruct (String.eqb_spec (lower name') (lower name)) as [E|E].
  - unfold text_write; rewrite (text_target_lower _ _ _ E), H; simpl.
    rewrite Nat.eqb_refl; reflexivity.
  - unfold text_write; destruct (text_target (cached sl) name') as [q|] eqn:Q; [|reflexivity].
    simpl; destruct (Nat.eqb_spec q p) as [->|]; [|reflexivity].
    exfalso; destruct (text_target_cached _ _ _ H) as [n [t0 [N L]]].
    destruct (text_target_cached _ _ _ Q) as [n' [t0' [N' L']]].
    rewrite N in N'; inversion N'; subst; congruence.
Qed.

Lemma last_text_opt_text sl name name' p k content :
  text_target (cached sl) name = Some p ->
  last_text p (opt_text (cached sl) k content name')
  = if String.eqb (lower name') (lower name) then dict_get k content else None.
Proof.
  intros H; unfold opt_text; destruct (dict_get k content) as [v|].
  - rewrite (last_text_text_write _ _ _ _ _ H); reflexivity.
  - destruct (String.eqb (lower name') (lower name)); reflexivity.
Qed.

(** Rewrites the last text of shape [p] in a filler's log, deciding the
    comparisons of concrete shape names. *)
Ltac last_text_simpl H :=
  rewrite ?last_text_app, ?(last_text_opt_text _ _ _ _ _ _ H),
    ?(last_text_text_write _ _ _ _ _ H);
  repeat match goal with
  | |- context [String.eqb (lower ?a) (lower ?b)] =>
      let e := eval vm_compute in (String.eqb (lower a) (lower b)) in
      change (String.eqb (lower a) (lower b)) with e
  end;
  cbn beta iota.

(* ------------------------------------------------------------------ *)
(** ** [fill_slide_type_8] *)

Lemma fill_8_log title content :
  Replays
    (_set_text "Titre 1" title ;;
     if_in "summary_title_1" content (fun v => _set_text "ZoneTexte 4" v) ;;
     if_in "summary_title_2" content (fun v => _set_text "ZoneTexte 6" v) ;;
     if_in "zonetexte_8" content (fun v => _set_text "ZoneTexte 8" v) ;;
     if_in "source_1" content (fun v => _set_text "ZoneTexte 6" v) ;;
     if_in "source_2" content (fun v => _set_text "ZoneTexte 10" v))
    (fun st => text_write st "Titre 1" title
     ++ (opt_text st "summary_title_1" content "ZoneTexte 4"
     ++ (opt_text st "summary_title_2" content "ZoneTexte 6"
     ++ (opt_text st "zonetexte_8" content "ZoneTexte 8"
     ++ (opt_text st "source_1" content "ZoneTexte 6"
     ++ opt_text st "source_2" content "ZoneTexte 10")))))%list.
Proof. replays_auto. Qed.

(** X1. [fill_slide_type_8] writes both [summary_title_2] and [source_1] to
    [ZoneTexte 6]; the shape ends up showing [source_1] when it is given,
    else [summary_title_2], else its template text. *)
Theorem fill_8_zonetexte_6_shared title content sl p :
  text_target (cached sl) "ZoneTexte 6" = Some p ->
  fst (run_fill (fill_slide_type_8 title content) sl) = Ok tt /\
  text_at (fs_slide (snd (run_fill (fill_slide_type_8 title content) sl))) p
  = match dict_get "source_1" content with
    | Some v => Some v
    | None => match dict_get "summary_title_2" content with
              | Some v => Some v
              | None => text_at sl p
              end
    end.
Proof.
  intros H; unfold fill_slide_type_8; rewrite (run_fill_Replays _ _ sl (fill_8_log title content)).
  split; [reflexivity|]; simpl.
  rewrite text_at_replay; destruct (text_target_text_at _ _ _ H) as [t0 T]; rewrite T.
  last_text_simpl H.
  destruct (dict_get "source_1" content), (dict_get "summary_title_2" content); reflexivity.
Qed.

(* ------------------------------------------------------------------ *)
(** ** [fill_slide_type_11] *)

(** X2. [fill_slide_type_11] writes all three consequences to [ZoneTexte 32]:
    the shape ends up showing the last consequence given, in the order
    [consequence_3], [consequence_2], [consequence_1], else its template
    text. *)
Theorem fill_11_zonetexte_32_shared title content sl p :
  text_target (cached sl) "ZoneTexte 32" = Some p ->
  fst (run_fill (fill_slide_type_11 title content) sl) = Ok tt /\
  text_at (fs_slide (snd (run_fill (fill_slide_type_11 title content) sl))) p
  = match dict_get "consequence_3" content with
    | Some v => Some v
    | None => match dict_get "consequence_2" content with
              | Some v => Some v
              | None => match dict_get "consequence_1" content with
                        | Some v => Some v
                        | None => text_at sl p
                        end
              end
    end.
Proof.
  intros H; unfold fill_slide_type_11.
  erewrite run_fill_Replays by replays_auto.
  split; [reflexivity|]; simpl.
  rewrite text_at_replay; destruct (text_target_text_at _ _ _ H) as [t0 T]; rewrite T.
  last_text_simpl H.
  destruct (dict_get "consequence_3" content), (dict_get "consequence_2" content),
    (dict_get "consequence_1" content); reflexivity.
Qed.

(* ------------------------------------------------------------------ *)
(** ** [fill_slide_type_81] *)

(** X3. [fill_slide_type_81] fills its fifth box, [Rectangle 39], with the
    fourth step's message, the same text as [Rectangle 38]: both boxes end
    up showing [step_4] and [description_4], and [step_5] and
    [description_5] are never read. *)
Theorem fill_81_fifth_box_repeats_step_4 title content sl p q :
  text_target (cached sl) "Rectangle 38" = Some p ->
  text_target (cached sl) "Rectangle 39" = Some q ->
  fst (run_fill (fill_slide_type_81 title content) sl) = Ok tt /\
  text_at (fs_slide (snd (run_fill (fill_slide_type_81 title content) sl))) p
  = Some (step_msg "step_4" "description_4" content) /\
  text_at (fs_slide (snd (run_fill (fill_slide_type_81 title content) sl))) q
  = Some (step_msg "step_4" "description_4" content).
Proof.
  intros Hp Hq; unfold fill_slide_type_81.
  erewrite run_fill_Replays by replays_auto.
  split; [reflexivity|]; simpl.
  rewrite !text_at_replay.
  destruct (text_target_text_at _ _ _ Hp) as [t0 T]; rewrite T.
  destruct (text_target_text_at _ _ _ Hq) as [t1 T1]; rewrite T1.
  split; [last_text_simpl Hp | last_text_simpl Hq]; reflexivity.
Qed.

(* ------------------------------------------------------------------ *)
(** ** [fill_slide_type_21] *)

Lemma Replays_role_5 content x :
  dict_get "rol5_4" content = Some x ->
  Replays (if_in "role_5" content (fun _ =>
             v <- getitem content "rol5_4" ;; _set_text "Rectangle 19-5" v))
          (fun st => match dict_get "role_5" content with
                     | Some _ => text_write st "Rectangle 19-5" x
                     | None => []
                     end).
Proof.
  intros E; unfold if_in.
  destruct (dict_get "role_5" content).
  - apply (Replays_getitem _ _ x); [exact E|apply Replays_set_text].
  - apply Replays_ret.
Qed.

(** X4. [fill_slide_type_21] fills [Rectangle 19-5] from the key [rol5_4]
    when [role_5] is given: without [rol5_4] it raises [KeyError] and the
    shape keeps its template text; with it, the shape shows the [rol5_4]
    value. The [role_5] value is never written. *)
Theorem fill_21_role_5_reads_rol5_4 title content sl p r :
  text_target (cached sl) "Rectangle 19-5" = Some p ->
  dict_get "role_5" content = Some r ->
  match dict_get "rol5_4" content with
  | Some v =>
      fst (run_fill (fill_slide_type_21 title content) sl) = Ok tt /\
      text_at (fs_slide (snd (run_fill (fill_slide_type_21 title content) sl))) p = Some v
  | None =>
      fst (run_fill (fill_slide_type_21 title content) sl) = Err (KeyError "rol5_4") /\
      text_at (fs_slide (snd (run_fill (fill_slide_type_21 title content) sl))) p
      = text_at sl p
  end.
Proof.
  intros H Hr.
  destruct (text_target_text_at _ _ _ H) as [t0 T].
  destruct (dict_get "rol5_4" content) as [v|] eqn:E.
  - unfold fill_slide_type_21.
    erewrite run_fill_Replays
      by replays_auto_with ltac:(apply (Replays_role_5 _ _ E)).
    split; [reflexivity|]; simpl.
    rewrite text_at_replay, T.
    last_text_simpl H; rewrite Hr; last_text_simpl H; reflexivity.
  - eassert (R : run_fill (fill_slide_type_21 title content) sl
                  = (Err (KeyError "rol5_4"), _)).
    { unfold run_fill, fill_slide_type_21; unfold bind at 1, _build_shape_cache at 1; simpl.
      do 10 rewrite bind_assoc.
      erewrite Replays_then by replays_auto.
      erewrite bind_err by (unfold if_in; rewrite Hr; apply getitem_missing; exact E).
      reflexivity. }
    rewrite R; split; [reflexivity|]; simpl.
    rewrite text_at_replay, T.
    last_text_simpl H; reflexivity.
Qed.

(* ------------------------------------------------------------------ *)
(** ** [fill_slide_type_22] *)

Lemma Replays_info_4 content t :
  (in_dict "title4" content = false /\ t = "")
  \/ (in_dict "title4" content = true /\ dict_get "title_4" content = Some t) ->
  Replays (info_4 <- (if in_dict "title4" content
                      then v <- getitem content "title_4" ;; ret ("" ++ v)
                      else ret "") ;;
           _set_text "Rectangle 20"
             (add_if_in "expertise_4" content "" "" (add_if_in "role_4" content "" "" info_4)))
          (fun st => text_write st "Rectangle 20"
             (add_if_in "expertise_4" content "" "" (add_if_in "role_4" content "" "" t))).
Proof.
  intros [[E ->]|[E T]]; rewrite E.
  - apply Replays_ret_bind, Replays_set_text.
  - unfold getitem, key; rewrite T; apply Replays_ret_bind, Replays_set_text.
Qed.

(** X5. [fill_slide_type_22] builds the fourth person's info, written to
    [Rectangle 20], from [content["title_4"]] only when the key [title4]
    is present: without [title4] the [title_4] value is left out; with
    [title4] but no [title_4] the filler raises [KeyError] before writing
    the shape. The value of [title4] itself is never shown. *)
Theorem fill_22_title_4_guarded_by_title4 title content sl p :
  text_target (cached sl) "Rectangle 20" = Some p ->
  match dict_get "title4" content, dict_get "title_4" content with
  | None, _ =>
      fst (run_fill (fill_slide_type_22 title content) sl) = Ok tt /\
      text_at (fs_slide (snd (run_fill (fill_slide_type_22 title content) sl))) p
      = Some (add_if_in "expertise_4" content "" "" (add_if_in "role_4" content "" "" ""))
  | Some _, Some t =>
      fst (run_fill (fill_slide_type_22 title content) sl) = Ok tt /\
      text_at (fs_slide (snd (run_fill (fill_slide_type_22 title content) sl))) p
      = Some (add_if_in "expertise_4" content "" "" (add_if_in "role_4" content "" "" t))
  | Some _, None =>
      fst (run_fill (fill_slide_type_22 title content) sl) = Err (KeyError "title_4") /\
      text_at (fs_slide (snd (run_fill (fill_slide_type_22 title content) sl))) p
      = text_at sl p
  end.
Proof.
  intros H; destruct (text_target_text_at _ _ _ H) as [t0 T].
  destruct (dict_get "title4" content) as [x|] eqn:E4;
    [destruct (dict_get "title_4" content) as [t|] eqn:Et|].
  - unfold fill_slide_type_22.
    erewrite run_fill_Replays
      by (replays_auto_with ltac:(apply (Replays_info_4 _ t);
                                  right; unfold in_dict; rewrite E4; auto)).
    split; [reflexivity|]; simpl.
    rewrite text_at_replay, T; last_text_simpl H; reflexivity.
  - eassert (R : run_fill (fill_slide_type_22 title content) sl
                  = (Err (KeyError "title_4"), _)).
    { unfold run_fill, fill_slide_type_22; unfold bind at 1, _build_shape_cache at 1; simpl.
      do 7 rewrite bind_assoc.
      erewrite Replays_then by replays_auto.
      erewrite bind_err
        by (unfold in_dict; rewrite E4; apply getitem_missing; exact Et).
      reflexivity. }
    rewrite R; split; [reflexivity|]; simpl.
    rewrite text_at_replay, T; last_text_simpl H; reflexivity.
  - unfold fill_slide_type_22.
    erewrite run_fill_Replays
      by (replays_auto_with ltac:(apply (Replays_info_4 _ "");
                                  left; unfold in_dict; rewrite E4; auto)).
    split; [reflexivity|]; simpl.
    rewrite text_at_replay, T; last_text_simpl H; reflexivity.
Qed.

(* ------------------------------------------------------------------ *)
(** ** [fill_slide_type_66], [fill_slide_type_67], [fill_slide_type_68] *)

Lemma Replays_cause_2 content x :
  dict_get "cause_1" content = Some x ->
  Replays (if_in "cause_2" content (fun _ =>
             v <- getitem content "cause_1" ;; _set_text "Content Placeholder 4-2c" v))
          (fun st => match dict_get "cause_2" content with
                     | Some _ => text_write st "Content Placeholder 4-2c" x
                     | None => []
                     end).
Proof.
  intros E; unfold if_in.
  destruct (dict_get "cause_2" content).
  - apply (Replays_getitem _ _ x); [exact E|apply Replays_set_text].
  - apply Replays_ret.
Qed.

Ltac fill_cause_2_case F title content sl H Hc T :=
  let Ec := fresh "Ec" in
  destruct (dict_get "cause_1" content) as [c1|] eqn:Ec;
  [ unfold F; erewrite run_fill_Replays
      by replays_auto_with ltac:(apply (Replays_cause_2 _ _ Ec));
    split; [reflexivity|]; simpl;
    rewrite text_at_replay, T; last_text_simpl H; rewrite Hc; last_text_simpl H; reflexivity
  | eassert (R : run_fill (F title content) sl = (Err (KeyError "cause_1"), _));
    [ unfold run_fill, F; unfold bind at 1, _build_shape_cache at 1; simpl;
      do 2 rewrite bind_assoc;
      erewrite Replays_then by replays_auto;
      erewrite bind_err by (unfold if_in; rewrite Hc; apply getitem_missing; exact Ec);
      reflexivity
    | rewrite R; split; [reflexivity|]; simpl;
      rewrite text_at_replay, T; last_text_simpl H; reflexivity ] ].

(** X6. In [fill_slide_type_66], [fill_slide_type_67] and
    [fill_slide_type_68], a given [cause_2] is never shown: the shape
    [Content Placeholder 4-2c] gets the value of [cause_1] instead, and
    without [cause_1] the filler raises [KeyError] and the shape keeps its
    template text. *)
Theorem cause_2_slot_reads_cause_1 f title content sl p c2 :
  In f [fill_slide_type_66; fill_slide_type_67; fill_slide_type_68] ->
  text_target (cached sl) "Content Placeholder 4-2c" = Some p ->
  dict_get "cause_2" content = Some c2 ->
  match dict_get "cause_1" content with
  | Some c1 =>
      fst (run_fill (f title content) sl) = Ok tt /\
      text_at (fs_slide (snd (run_fill (f title content) sl))) p = Some c1
  | None =>
      fst (run_fill (f title content) sl) = Err (KeyError "cause_1") /\
      text_at (fs_slide (snd (run_fill (f title content) sl))) p = text_at sl p
  end.
Proof.
  intros Hf H Hc; destruct (text_target_text_at _ _ _ H) as [t0 T].
  destruct Hf as [<-|[<-|[<-|[]]]].
  - fill_cause_2_case fill_slide_type_66 title content sl H Hc T.
  - fill_cause_2_case fill_slide_type_67 title content sl H Hc T.
  - fill_cause_2_case fill_slide_type_68 title content sl H Hc T.
Qed.

(* ------------------------------------------------------------------ *)
(** ** [fill_slide_type_152] *)

(** The writes of [if a in content and b in content:
    _set_text(name, content[k] + "\n" + content[d])] when it does not
    raise. *)
Definition pair_text (st : fstate) (a b k d : string) (content : dict string)
  (name : string) : list write :=
  if in_dict a content && in_dict b content then
    match dict_get k content, dict_get d content with
    | Some x, Some y => text_write st name (x ++ nl ++ y)
    | _, _ => []
    end
  else [].

Lemma Replays_pair a b k d content name :
  (in_dict a content && in_dict b content = true ->
   in_dict k content && in_dict d content = true) ->
  Replays (if_both a b content
             (x <- getitem content k ;; y <- getitem content d ;;
              _set_text name (x ++ nl ++ y)))
          (fun st => pair_text st a b k d content name).
Proof.
  intros G; unfold if_both, pair_text.
  destruct (in_dict a content && in_dict b content); [|apply Replays_ret].
  specialize (G eq_refl); unfold in_dict in G.
  destruct (dict_get k content) as [x|] eqn:Ek; [|discriminate].
  destruct (dict_get d content) as [y|] eqn:Ed; [|discriminate].
  apply (Replays_getitem _ _ x); [exact Ek|].
  apply (Replays_getitem _ _ y); [exact Ed|apply Replays_set_text].
Qed.

Lemma last_text_pair_text sl name name' p a b k d content :
  text_target (cached sl) name = Some p ->
  last_text p (pair_text (cached sl) a b k d content name')
  = if String.eqb (lower name') (lower name) then
      if in_dict a content && in_dict b content then
        match dict_get k content, dict_get d content with
        | Some x, Some y => Some (x ++ nl ++ y)
        | _, _ => None
        end
      else None
    else None.
Proof.
  intros H; unfold pair_text.
  destruct (in_dict a content && in_dict b content);
    [|destruct (String.eqb (lower name') (lower name)); reflexivity].
  destruct (dict_get k content) as [x|], (dict_get d content) as [y|];
    try (rewrite (last_text_text_write _ _ _ _ _ H); reflexivity);
    destruct (String.eqb (lower name') (lower name)); reflexivity.
Qed.

Lemma in_dict_Some k content v : dict_get k content = Some v -> in_dict k content = true.
Proof. unfold in_dict; intros ->; reflexivity. Qed.

(** X7. [fill_slide_type_152] fills its second box, [Rectangle 25], from
    [success_key_1] and [description_2] when [success_key_2] and
    [description_2] are given: the [success_key_2] value is never shown,
    and without [success_key_1] the filler raises [KeyError] before
    writing the box. *)
Theorem fill_152_second_box_reads_success_key_1 title content sl p k2 d2 :
  text_target (cached sl) "Rectangle 25" = Some p ->
  dict_get "success_key_2" content = Some k2 ->
  dict_get "description_2" content = Some d2 ->
  match dict_get "success_key_1" content with
  | Some k1 =>
      fst (run_fill (fill_slide_type_152 title content) sl) = Ok tt /\
      text_at (fs_slide (snd (run_fill (fill_slide_type_152 title content) sl))) p
      = Some (k1 ++ nl ++ d2)
  | None =>
      fst (run_fill (fill_slide_type_152 title content) sl) = Err (KeyError "success_key_1") /\
      text_at (fs_slide (snd (run_fill (fill_slide_type_152 title content) sl))) p
      = text_at sl p
  end.
Proof.
  intros H Hk Hd; destruct (text_target_text_at _ _ _ H) as [t0 T].
  destruct (dict_get "success_key_1" content) as [k1|] eqn:E1.
  - unfold fill_slide_type_152.
    erewrite run_fill_Replays
      by replays_auto_with ltac:(apply Replays_pair; rewrite !andb_true_iff;
           pose proof (in_dict_Some _ _ _ E1); intuition).
    split; [reflexivity|]; simpl.
    rewrite text_at_replay, T.
    rewrite ?last_text_app, ?(last_text_pair_text _ _ _ _ _ _ _ _ _ H).
    last_text_simpl H.
    rewrite (in_dict_Some _ _ _ Hk), (in_dict_Some _ _ _ Hd), E1, Hd; reflexivity.
  - eassert (R : run_fill (fill_slide_type_152 title content) sl
                  = (Err (KeyError "success_key_1"), _)).
    { unfold run_fill, fill_slide_type_152; unfold bind at 1, _build_shape_cache at 1; simpl.
      rewrite bind_assoc.
      erewrite Replays_then
        by replays_auto_with ltac:(apply Replays_pair;
             unfold in_dict at 1; rewrite E1; discriminate).
      erewrite bind_err; [reflexivity|].
      unfold if_both; rewrite (in_dict_Some _ _ _ Hk), (in_dict_Some _ _ _ Hd); simpl.
      apply getitem_missing; exact E1. }
    rewrite R; split; [reflexivity|]; simpl.
    rewrite text_at_replay, T.
    rewrite ?last_text_app, ?(last_text_pair_text _ _ _ _ _ _ _ _ _ H).
    last_text_simpl H; reflexivity.
Qed.

(* ------------------------------------------------------------------ *)
(** ** [_set_table_cell] and [_set_bullets] *)

(** The text of [Table.Cell(row, col)], if that cell exists. *)
Definition cell_at (cells : list (list string)) (row col : Z) : option string :=
  match cell_index row, cell_index col with
  | Some r, Some c =>
      match nth_error cells r with
      | Some rw => nth_error rw c
      | None => None
      end
  | _, _ => None
  end.

Lemma cell_index_inj i j r : cell_index i = Some r -> cell_index j = Some r -> i = j.
Proof.
  unfold cell_index; destruct (1 <=? i)%Z eqn:Ei, (1 <=? j)%Z eqn:Ej; try discriminate.
  apply Z.leb_le in Ei; apply Z.leb_le in Ej.
  intros A B; inversion A; inversion B; lia.
Qed.

Lemma set_cell_at cells row col text cells' i j :
  set_cell cells row col text = Some cells' ->
  cell_at cells' i j
  = if (i =? row)%Z && (j =? col)%Z then Some text else cell_at cells i j.
Proof.
  unfold set_cell, cell_at.
  destruct (cell_index row) as [r|] eqn:Er; [|discriminate].
  destruct (cell_index col) as [c|] eqn:Ec; [|discriminate].
  destruct (nth_error cells r) as [rw|] eqn:Erw; [|discriminate].
  destruct (nth_error rw c) as [x|] eqn:Ex; [|discriminate].
  intros E; inversion E; subst cells'; clear E.
  destruct (cell_index i) as [ri|] eqn:Ei;
    [|destruct (Z.eqb_spec i row); [subst; congruence|reflexivity]].
  destruct (cell_index j) as [cj|] eqn:Ej;
    [|destruct (Z.eqb_spec j col); [subst; congruence|]; rewrite andb_false_r; reflexivity].
  destruct (Nat.eq_dec ri r) as [->|Nr].
  - rewrite (nth_error_update_nth_same _ _ _ _ Erw), Erw.
    assert (Ir : i = row) by (apply (cell_index_inj _ _ r); auto); subst i.
    rewrite Z.eqb_refl; simpl.
    destruct (Nat.eq_dec cj c) as [->|Nc].
    + rewrite (nth_error_update_nth_same _ _ _ _ Ex).
      assert (Ic : j = col) by (apply (cell_index_inj _ _ c); auto); subst j.
      rewrite Z.eqb_refl; reflexivity.
    + rewrite nth_error_update_nth_other by congruence.
      destruct (Z.eqb_spec j col); [subst; congruence|reflexivity].
  - rewrite nth_error_update_nth_other by congruence.
    destruct (Z.eqb_spec i row); [subst; congruence|reflexivity].
Qed.

Lemma set_cell_None cells row col text :
  set_cell cells row col text = None <-> cell_at cells row col = None.
Proof.
  unfold set_cell, cell_at.
  destruct (cell_index row), (cell_index col); try tauto.
  destruct (nth_error cells n); [|tauto].
  destruct (nth_error l n0); split; congruence.
Qed.

(** X8. [_set_table_cell] on a resolved table: when cell [(row, col)] exists
    it becomes [text] and every other cell and every other shape is
    unchanged; when it does not (a row or column out of range, or below
    1), the exception is swallowed and nothing changes. It never
    raises. *)
Theorem set_table_cell_in_range st name p n cells row col text :
  _get_shape (fs_cache st) name = Some p ->
  nth_error (fs_slide st) p = Some (mkShape n (KTable cells)) ->
  fst (_set_table_cell name row col text st) = Ok tt /\
  match cell_at cells row col with
  | Some _ =>
      exists cells',
        nth_error (fs_slide (snd (_set_table_cell name row col text st))) p
        = Some (mkShape n (KTable cells'))
        /\ (forall i j, cell_at cells' i j
                        = if (i =? row)%Z && (j =? col)%Z then Some text else cell_at cells i j)
        /\ (forall q, q <> p ->
              nth_error (fs_slide (snd (_set_table_cell name row col text st))) q
              = nth_error (fs_slide st) q)
  | None => snd (_set_table_cell name row col text st) = st
  end.
Proof.
  intros G N; unfold _set_table_cell; rewrite G, N.
  destruct (set_cell cells row col text) as [cells'|] eqn:E.
  - destruct (cell_at cells row col) eqn:C.
    + split; [reflexivity|]; exists cells'; simpl; split; [|split].
      * apply (nth_error_update_nth_same _ _ _ _ N).
      * intros i j; apply (set_cell_at _ _ _ _ _ _ _ E).
      * intros q Hq; apply nth_error_update_nth_other; congruence.
    + apply (proj2 (set_cell_None cells row col text)) in C; congruence.
  - apply set_cell_None in E; rewrite E; split; reflexivity.
Qed.

(** Characters [str.splitlines()] splits at. *)
Fixpoint has_line_break (s : string) : bool :=
  match s with
  | EmptyString => false
  | String c s' => is_line_break c || has_line_break s'
  end.


Lemma splitlines_aux_app x rest cur :
  has_line_break x = false ->
  splitlines_aux (x ++ rest) cur = splitlines_aux rest (cur ++ x).
Proof.
  revert cur; induction x as [|c x IH]; intros cur H; simpl.
  - rewrite str_app_nil_r; reflexivity.
  - simpl in H; apply orb_false_iff in H; destruct H as [Hc Hx].
    assert (C : Ascii.eqb c (chr 13) = false).
    { destruct (Ascii.eqb_spec c (chr 13)) as [->|]; [discriminate Hc|reflexivity]. }
    rewrite C, Hc, IH by exact Hx.
    rewrite <- str_app_assoc; reflexivity.
Qed.

Lemma splitlines_join items :
  forallb (fun x => negb (has_line_break x)) items = true ->
  last items "" <> "" ->
  splitlines (join_nl items) = items.
Proof.
  unfold splitlines; induction items as [|x items IH]; simpl; intros H L; [reflexivity|].
  apply andb_true_iff in H; destruct H as [Hx H]; apply negb_true_iff in Hx.
  destruct items as [|y items].
  - rewrite <- (str_app_nil_r x), splitlines_aux_app by exact Hx; simpl.
    rewrite str_app_nil_r; destruct (String.eqb_spec x ""); [contradiction|reflexivity].
  - change (join_nl (x :: y :: items)) with (x ++ String (chr 10) (join_nl (y :: items))).
    rewrite splitlines_aux_app by exact Hx.
    change (splitlines_aux (String (chr 10) (join_nl (y :: items))) ("" ++ x))
      with (("" ++ x) :: splitlines_aux (join_nl (y :: items)) "").
    rewrite IH by auto; reflexivity.
Qed.

(** X9. [_set_bullets] on a shape with a text frame: the shape's text, split
    again with [str.splitlines()], gives back the items, provided no item
    contains a line break and the last item is not empty. *)
Theorem set_bullets_splitlines st name p items :
  text_target st name = Some p ->
  forallb (fun x => negb (has_line_break x)) items = true ->
  last items "" <> "" ->
  fst (_set_bullets name items st) = Ok tt /\
  exists t, text_at (fs_slide (snd (_set_bullets name items st))) p = Some t
            /\ splitlines t = items.
Proof.
  intros H B L; unfold _set_bullets; rewrite (proj2 (Replays_set_text _ _) st).
  split; [reflexivity|]; exists (join_nl items); split; [|apply splitlines_join; auto].
  assert (T : exists t0, text_at (fs_slide st) p = Some t0).
  { unfold text_target, skel in H.
    destruct (_get_shape (fs_cache st) name) as [q|]; [|discriminate].
    rewrite nth_error_map in H; unfold text_at.
    destruct (nth_error (fs_slide st) q) as [[m [t0| |]]|] eqn:N; simpl in H;
      try discriminate.
    inversion H; subst; rewrite N; eauto. }
  simpl; unfold text_write; rewrite H, text_at_replay.
  destruct T as [t0 T]; rewrite T; simpl; rewrite Nat.eqb_refl; reflexivity.
Qed.

(* ------------------------------------------------------------------ *)
(** ** The return values of [copy_slides] and [copy_slide] *)

Lemma bind_eq {S A B} (m : SE S A) (k : A -> SE S B) s :
  bind m k s = match m s with
               | (Ok a, s') => k a s'
               | (Err e, s') => (Err e, s')
               end.
Proof. reflexivity. Qed.

Lemma paste_library_slide_pres library k h d :
  pres h = Some d ->
  match paste_library_slide library k h with
  | (Ok _, h') => exists sl, pres h' = Some (d ++ [sl])%list
  | (Err _, _) => True
  end.
Proof.
  intros Hp; unfold paste_library_slide; rewrite Hp.
  destruct (0 <=? k)%Z; [|exact I].
  destruct (nth_error library (Z.to_nat k)) as [sl|]; [|exact I].
  exists sl; reflexivity.
Qed.

Lemma paste_each_eq library ks h d :
  pres h = Some d ->
  paste_each library ks h
  = match for_ ks (paste_library_slide library) h with
    | (Ok _, h') => (Ok (seq (S (List.length d)) (List.length ks)), h')
    | (Err e, h') => (Err e, h')
    end.
Proof.
  revert h d; induction ks as [|k ks IH]; intros h d Hp; [reflexivity|].
  cbn [paste_each for_]; rewrite bind_eq; unfold slide_count at 1; rewrite Hp.
  rewrite !(bind_eq (paste_library_slide library k)).
  pose proof (paste_library_slide_pres library k h d Hp) as P.
  destruct (paste_library_slide library k h) as [[[]|e] h1]; [|reflexivity].
  destruct P as [sl P].
  rewrite bind_eq, (IH _ _ P).
  destruct (for_ ks (paste_library_slide library) h1) as [[[]|e] h2]; [|reflexivity].
  unfold ret; rewrite length_app; simpl; rewrite Nat.add_1_r; reflexivity.
Qed.

(** X10. [copy_slides] returns [Count + 1, ..., Count + len(slide_indices)] for
    the [Count] slides of the output deck once it is open, and otherwise
    runs as the loop without return value: the same deck, trace and error. *)
Theorem copy_slides_returns_new_indices library ks h :
  copy_slides_indices library ks h
  = match copy_slides library ks h with
    | (Ok _, h') =>
        (Ok (seq (S (List.length (match pres h with
                                   | Some d => d
                                   | None => match disk h with Some d => d | None => [] end
                                   end))) (List.length ks)), h')
    | (Err e, h') => (Err e, h')
    end.
Proof.
  unfold copy_slides_indices, copy_slides.
  rewrite !(bind_eq open_output); unfold open_output at 1 2.
  destruct (pres h) as [d|] eqn:Hp.
  - rewrite !bind_eq, (paste_each_eq _ _ _ d Hp).
    destruct (for_ ks (paste_library_slide library) h) as [[[]|e] h']; [|reflexivity].
    rewrite !bind_eq; destruct (save_output h') as [[[]|e] h'']; reflexivity.
  - destruct (disk h) as [d|]; [|reflexivity].
    rewrite !bind_eq, (paste_each_eq _ _ _ d) by reflexivity.
    destruct (for_ ks (paste_library_slide library) _) as [[[]|e] h']; [|reflexivity].
    rewrite !bind_eq; destruct (save_output h') as [[[]|e] h'']; reflexivity.
Qed.

Lemma for_app {S A} (l1 l2 : list A) (f : A -> SE S unit) s :
  for_ (l1 ++ l2) f s = (for_ l1 f ;; for_ l2 f) s.
Proof.
  revert s; induction l1 as [|x l1 IH]; intros s; [reflexivity|].
  cbn [app for_]; rewrite !bind_eq; destruct (f x s) as [[[]|e] s']; [|reflexivity].
  rewrite IH; reflexivity.
Qed.

Definition in_library_range (library : list slide) (k : Z) : bool :=
  (0 <=? k)%Z && (k <? Z.of_nat (List.length library))%Z.

Lemma paste_out_of_range library k h d :
  pres h = Some d -> in_library_range library k = false ->
  paste_library_slide library k h = (Err (HostError "Slides"), h).
Proof.
  intros Hp Hk; unfold paste_library_slide; rewrite Hp.
  unfold in_library_range in Hk.
  destruct (0 <=? k)%Z eqn:H0; [|reflexivity]; simpl in Hk.
  rewrite Z.ltb_ge in Hk; rewrite (proj2 (nth_error_None _ _)) by lia; reflexivity.
Qed.

Lemma paste_in_range library k h d :
  pres h = Some d -> in_library_range library k = true ->
  paste_library_slide library k h
  = (Ok tt, mkHost (disk h) (Some (d ++ [nth (Z.to_nat k) library []]))
                   (trace h ++ [EvCopy k]))%list.
Proof.
  intros Hp Hk; unfold in_library_range in Hk; rewrite andb_true_iff, Z.leb_le, Z.ltb_lt in Hk.
  unfold paste_library_slide; rewrite Hp.
  replace (0 <=? k)%Z with true by (symmetry; apply Z.leb_le; lia).
  rewrite (nth_error_nth' library (n := Z.to_nat k) []) by lia; reflexivity.
Qed.

(** X11. When an index of [slide_indices] is out of the library's range,
    [copy_slides] raises after pasting the slides before it, and never
    reaches [save_output]: the output file on disk is left as it was, while
    the open output deck holds the slides pasted so far. *)
Theorem copy_slides_failure_unsaved library pre k post h d :
  pres h = None -> disk h = Some d ->
  forallb (in_library_range library) pre = true ->
  in_library_range library k = false ->
  copy_slides_indices library (pre ++ k :: post) h
  = (Err (HostError "Slides"),
     mkHost (Some d) (Some (d ++ map (fun k => nth (Z.to_nat k) library []) pre))
            (trace h ++ map EvCopy pre))%list.
Proof.
  intros Hp Hd Hpre Hk.
  unfold copy_slides_indices; rewrite bind_eq; unfold open_output at 1; rewrite Hp, Hd.
  rewrite bind_eq, (paste_each_eq _ _ _ d) by reflexivity.
  rewrite for_app; rewrite bind_eq.
  rewrite (paste_loop library pre _ d) by exact Hpre || reflexivity.
  cbn [for_]; rewrite bind_eq.
  rewrite (paste_out_of_range library k _ (d ++ map (fun k => nth (Z.to_nat k) library []) pre)%list)
    by (exact Hk || reflexivity).
  reflexivity.
Qed.

(** X12. [copy_slide] on a closed output deck: an index in the library's range
    is pasted at the end, the deck is saved and [Count + 1] is returned; an
    index out of range raises with nothing pasted and nothing saved, the
    output deck being left open. *)
Theorem copy_slide_result library k h d :
  pres h = None -> disk h = Some d ->
  copy_slide library k h
  = if in_library_range library k then
      (Ok (S (List.length d)),
       mkHost (Some (d ++ [nth (Z.to_nat k) library []])) (Some (d ++ [nth (Z.to_nat k) library []]))
              (trace h ++ [EvCopy k; EvSave]))%list
    else (Err (HostError "Slides"), mkHost (Some d) (Some d) (trace h)).
Proof.
  intros Hp Hd; unfold copy_slide; rewrite bind_eq; unfold open_output at 1; rewrite Hp, Hd.
  rewrite bind_eq; unfold slide_count at 1; cbn [pres].
  rewrite bind_eq.
  destruct (in_library_range library k) eqn:Hk.
  - rewrite (paste_in_range library k _ d) by (exact Hk || reflexivity).
    rewrite bind_eq; unfold save_output; simpl; rewrite <- app_assoc; reflexivity.
  - rewrite (paste_out_of_range library k _ d) by (exact Hk || reflexivity); reflexivity.
Qed.

(** X13. [close_output] drops the open deck without saving it: reopening
    then loads the output file as last saved, so the open deck's edits
    survive a close only when [save_output] ran before it. *)
Theorem close_discards_unsaved_edits h d d0 :
  pres h = Some d -> disk h = Some d0 ->
  pres (snd ((close_output ;; open_output) h)) = Some d0 /\
  pres (snd ((save_output ;; close_output ;; open_output) h)) = Some d.
Proof.
  intros Hp Hd; split.
  - rewrite bind_eq; unfold close_output at 1, open_output; simpl; rewrite Hd; reflexivity.
  - rewrite bind_eq; unfold save_output at 1; rewrite Hp.
    rewrite bind_eq; unfold close_output at 1, open_output; reflexivity.
Qed.

(* ------------------------------------------------------------------ *)
(** ** The buttons of [SlideGeneratorApp] *)

(** X14. After [_generate] with a selected file, every button is enabled again
    except [regenerate] and [open_output], which are enabled exactly when
    [generate_slide] returned without raising; without a selected file the
    buttons are left as they were. *)
Theorem generate_final_buttons ok a :
  btns (_generate ok a)
  = if truthy (docx_path a) then
      let r := if ok then NORMAL else DISABLED in
      mkButtons NORMAL NORMAL r NORMAL r NORMAL
    else btns a.
Proof.
  unfold _generate; destruct (truthy (docx_path a)) eqn:T; [|reflexivity].
  destruct ok; unfold _set_buttons_state, enable_after_success; simpl; rewrite T; reflexivity.
Qed.

(** X15. [_regenerate] on an existing response file ends with the [regenerate]
    and [open_output] buttons disabled, whether [regenerate_slide] returned
    or raised; the other buttons are enabled again, [generate] as far as a
    file is selected. *)
Theorem regenerate_disables_itself a :
  btns (_regenerate true a)
  = mkButtons NORMAL (if truthy (docx_path a) then NORMAL else DISABLED)
              DISABLED NORMAL DISABLED NORMAL.
Proof. unfold _regenerate, _set_buttons_state; simpl; reflexivity. Qed.





(* ------------------------------------------------------------------ *)
(** ** [response.txt]: written by [summarise_document], read back by
    [regenerate_slide] *)

(** What a written-then-read character becomes: a carriage return is read
    back as a newline. *)
Definition universal_nl (c : ascii) : ascii :=
  if Ascii.eqb c (chr 13) then chr 10 else c.

Lemma write_text_hd s : hd (chr 0) (write_text s) <> chr 10.
Proof.
  destruct s as [|c s]; simpl; [discriminate|].
  destruct (Ascii.eqb c (chr 10)) eqn:E; simpl; [discriminate|].
  apply Ascii.eqb_neq in E; exact E.
Qed.

Lemma read_write_text s : read_text (write_text s) = map universal_nl s.
Proof.
  induction s as [|c s IH]; [reflexivity|].
  cbn [write_text map]; unfold universal_nl at 1.
  destruct (Ascii.eqb c (chr 10)) eqn:E10.
  - apply Ascii.eqb_eq in E10; subst c; simpl; rewrite IH; reflexivity.
  - destruct (Ascii.eqb c (chr 13)) eqn:E13.
    + apply Ascii.eqb_eq in E13; subst c; rewrite <- IH.
      pose proof (write_text_hd s) as Hd; revert Hd.
      generalize (write_text s); intros [|c2 w] Hd; [reflexivity|].
      simpl in Hd; apply Ascii.eqb_neq in Hd.
      change (read_text (chr 13 :: c2 :: w))
        with (if Ascii.eqb c2 (chr 10) then chr 10 :: read_text w
              else chr 10 :: read_text (c2 :: w)).
      rewrite Hd; reflexivity.
    + cbn [read_text]; rewrite E13, IH; reflexivity.
Qed.

Lemma universal_nl_cases c :
  (c = chr 13 /\ universal_nl c = chr 10) \/ universal_nl c = c.
Proof.
  unfold universal_nl; destruct (Ascii.eqb c (chr 13)) eqn:E; [left|right; reflexivity].
  apply Ascii.eqb_eq in E; split; [exact E|reflexivity].
Qed.

Definition nl_rest {A} (o : option (A * payload)) : option (A * payload) :=
  match o with
  | Some (x, r) => Some (x, map universal_nl r)
  | None => None
  end.

Ltac nl_case c E :=
  destruct (universal_nl_cases c) as [[-> E] | E]; rewrite E; [cbn; rewrite ?andb_false_r; try reflexivity|].

Lemma skip_ws_nl s : skip_ws (map universal_nl s) = map universal_nl (skip_ws s).
Proof.
  induction s as [|c s IH]; [reflexivity|].
  cbn [map skip_ws]; nl_case c E; [exact IH|].
  destruct (is_json_ws c); [exact IH|simpl; rewrite E; reflexivity].
Qed.

Lemma take_digits_nl s :
  take_digits (map universal_nl s)
  = (fst (take_digits s), map universal_nl (snd (take_digits s))).
Proof.
  induction s as [|c s IH]; [reflexivity|].
  cbn [map]; nl_case c E.
  cbn [take_digits]; rewrite IH; destruct (is_digit c); [|simpl; rewrite E; reflexivity].
  destruct (take_digits s); reflexivity.
Qed.

Lemma int_part_nl s : int_part (map universal_nl s) = nl_rest (int_part s).
Proof.
  destruct s as [|c t]; [reflexivity|].
  cbn [map]; nl_case c E.
  unfold int_part; destruct (Ascii.eqb c "0"%char); [reflexivity|].
  destruct (is_digit c); [|reflexivity].
  rewrite take_digits_nl; destruct (take_digits t); reflexivity.
Qed.

Lemma frac_part_nl s :
  frac_part (map universal_nl s)
  = (fst (frac_part s), map universal_nl (snd (frac_part s))).
Proof.
  destruct s as [|c [|d t]]; [reflexivity| |].
  - cbn [map]; nl_case c E; simpl; rewrite ?E; reflexivity.
  - cbn [map]; nl_case c E; nl_case d E'.
    + destruct (Ascii.eqb c "."%char); simpl; rewrite ?E; reflexivity.
    + unfold frac_part; destruct (Ascii.eqb c "."%char && is_digit d); [|simpl; rewrite E, E'; reflexivity].
      rewrite take_digits_nl; destruct (take_digits t); reflexivity.
Qed.

Lemma exp_part_nl s :
  exp_part (map universal_nl s)
  = (fst (exp_part s), map universal_nl (snd (exp_part s))).
Proof.
  destruct s as [|c t]; [reflexivity|].
  cbn [map]; nl_case c E.
  unfold exp_part; destruct (Ascii.eqb c "e"%char || Ascii.eqb c "E"%char);
    [|simpl; rewrite E; reflexivity].
  destruct t as [|x t'].
  - simpl; rewrite E; reflexivity.
  - cbn [map]; nl_case x E'.
    + simpl; rewrite E; reflexivity.
    + destruct (Ascii.eqb x "+"%char || Ascii.eqb x "-"%char).
      * rewrite take_digits_nl; destruct (take_digits t') as [[|d ds] r]; simpl;
          rewrite ?E, ?E'; reflexivity.
      * replace (x :: map universal_nl t') with (map universal_nl (x :: t'))
          by (simpl; rewrite E'; reflexivity).
        rewrite take_digits_nl; destruct (take_digits (x :: t')) as [[|d ds] r]; simpl;
          rewrite ?E, ?E'; reflexivity.
Qed.

Lemma scan_number_nl s : scan_number (map universal_nl s) = nl_rest (scan_number s).
Proof.
  assert (Tail : forall sign s1,
    match int_part (map universal_nl s1) with
    | None => None
    | Some (ip, r1) =>
        let (fr, r2) := frac_part r1 in
        let (ex, r3) := exp_part r2 in
        match fr, ex with
        | [], [] =>
            Some (JInt (if Ascii.eqb (hd "+"%char sign) "-"%char
                        then (- digits_value ip)%Z else digits_value ip), r3)
        | _, _ => Some (JFloat (sign ++ ip ++ fr ++ ex)%list, r3)
        end
    end
    = nl_rest
    match int_part s1 with
    | None => None
    | Some (ip, r1) =>
        let (fr, r2) := frac_part r1 in
        let (ex, r3) := exp_part r2 in
        match fr, ex with
        | [], [] =>
            Some (JInt (if Ascii.eqb (hd "+"%char sign) "-"%char
                        then (- digits_value ip)%Z else digits_value ip), r3)
        | _, _ => Some (JFloat (sign ++ ip ++ fr ++ ex)%list, r3)
        end
    end).
  { intros sign s1; rewrite int_part_nl.
    destruct (int_part s1) as [[ip r1]|]; [|reflexivity]; cbn [nl_rest].
    rewrite frac_part_nl; destruct (frac_part r1) as [fr r2]; cbn [fst snd].
    rewrite exp_part_nl; destruct (exp_part r2) as [ex r3]; cbn [fst snd].
    destruct fr, ex; reflexivity. }
  destruct s as [|c t]; [reflexivity|].
  cbn [map]; nl_case c E.
  unfold scan_number; destruct (Ascii.eqb c "-"%char); [apply Tail|].
  replace (c :: map universal_nl t) with (map universal_nl (c :: t))
    by (simpl; rewrite E; reflexivity).
  apply Tail.
Qed.

Lemma strip_prefix_nl l s :
  forallb (fun x => negb (Ascii.eqb x (chr 10)) && negb (Ascii.eqb x (chr 13))) l = true ->
  strip_prefix l (map universal_nl s)
  = match strip_prefix l s with Some r => Some (map universal_nl r) | None => None end.
Proof.
  revert s; induction l as [|x l IH]; intros s Hl; [reflexivity|].
  simpl in Hl; rewrite !andb_true_iff, !negb_true_iff in Hl; destruct Hl as [[H10 H13] Hl].
  destruct s as [|c s]; [reflexivity|].
  cbn [map]; destruct (universal_nl_cases c) as [[-> E]|E]; rewrite E; cbn [strip_prefix].
  - rewrite H10, H13; reflexivity.
  - destruct (Ascii.eqb x c); [apply IH, Hl|reflexivity].
Qed.

Lemma scan_scalar_nl s : scan_scalar (map universal_nl s) = nl_rest (scan_scalar s).
Proof.
  unfold scan_scalar.
  rewrite !strip_prefix_nl by reflexivity.
  destruct (strip_prefix (lit "null") s); [reflexivity|].
  destruct (strip_prefix (lit "true") s); [reflexivity|].
  destruct (strip_prefix (lit "false") s); [reflexivity|].
  rewrite scan_number_nl; destruct (scan_number s) as [[v r]|]; [reflexivity|].
  destruct (strip_prefix (lit "NaN") s); [reflexivity|].
  destruct (strip_prefix (lit "Infinity") s); [reflexivity|].
  destruct (strip_prefix (lit "-Infinity") s); reflexivity.
Qed.

Lemma hex4_nl a b c d :
  hex4 (universal_nl a) (universal_nl b) (universal_nl c) (universal_nl d) = hex4 a b c d.
Proof.
  assert (Hv : forall h, hex_val (universal_nl h) = hex_val h).
  { intros h; destruct (universal_nl_cases h) as [[-> ->] | ->]; reflexivity. }
  unfold hex4; rewrite !Hv; reflexivity.
Qed.

Lemma scan_chars_nl s acc :
  scan_chars (map universal_nl s) acc = nl_rest (scan_chars s acc).
Proof.
  remember (List.length s) as n eqn:Hn; assert (Hle : List.length s <= n) by lia; clear Hn.
  revert s acc Hle; induction n as [|n IH]; intros s acc Hle.
  { destruct s; [reflexivity|simpl in Hle; lia]. }
  destruct s as [|c s1]; [reflexivity|]; simpl in Hle.
  cbn [map]; nl_case c E.
  cbn [scan_chars].
  destruct (Ascii.eqb c c_quote); [reflexivity|].
  destruct (Ascii.eqb c c_bslash).
  - destruct s1 as [|e s2]; [reflexivity|]; simpl in Hle.
    cbn [map]; nl_case e E'.
    destruct (simple_escape e); [apply IH; lia|].
    destruct (Ascii.eqb e "u"%char); [|reflexivity].
    destruct s2 as [|h1 [|h2 [|h3 [|h4 s3]]]]; try reflexivity; simpl in Hle.
    cbn [map]; rewrite hex4_nl.
    destruct (hex4 h1 h2 h3 h4); [apply IH; lia|reflexivity].
  - destruct (Nat.ltb (nat_of_ascii c) 32); [reflexivity|apply IH; lia].
Qed.

Lemma peek_eq_nl c s :
  c <> chr 10 -> c <> chr 13 -> peek_eq c (map universal_nl s) = peek_eq c s.
Proof.
  intros H10 H13; destruct s as [|x s]; [reflexivity|]; simpl.
  destruct (universal_nl_cases x) as [[-> ->] | ->]; [|reflexivity].
  rewrite Ascii.eqb_sym, (proj2 (Ascii.eqb_neq _ _) H10).
  rewrite Ascii.eqb_sym, (proj2 (Ascii.eqb_neq _ _) H13); reflexivity.
Qed.

Lemma tl_nl s : tl (map universal_nl s) = map universal_nl (tl s).
Proof. destruct s; reflexivity. Qed.

Section NewlineContainers.

Variable tc : bool.
Variable pv : payload -> option (jv * payload).
Hypothesis pv_nl : forall s, pv (map universal_nl s) = nl_rest (pv s).

Lemma arr_loop_nl g acc s :
  arr_loop tc pv g acc (map universal_nl s) = nl_rest (arr_loop tc pv g acc s).
Proof.
  revert acc s; induction g as [|g IH]; intros acc s; [reflexivity|].
  cbn [arr_loop]; rewrite pv_nl.
  destruct (pv s) as [[v r]|]; [|reflexivity]; cbn [nl_rest].
  rewrite skip_ws_nl; destruct (skip_ws r) as [|c r']; [reflexivity|].
  cbn [map]; nl_case c E.
  destruct (Ascii.eqb c "]"%char); [reflexivity|].
  destruct (Ascii.eqb c ","%char); [|reflexivity].
  rewrite skip_ws_nl, peek_eq_nl by discriminate.
  destruct (tc && peek_eq "]"%char (skip_ws r')); [rewrite tl_nl; reflexivity|apply IH].
Qed.

Lemma obj_loop_nl g acc s :
  obj_loop tc pv g acc (map universal_nl s) = nl_rest (obj_loop tc pv g acc s).
Proof.
  revert acc s; induction g as [|g IH]; intros acc s; [reflexivity|].
  cbn [obj_loop]; rewrite scan_chars_nl.
  destruct (scan_chars s []) as [[k r]|]; [|reflexivity]; cbn [nl_rest].
  rewrite skip_ws_nl; destruct (skip_ws r) as [|c r1]; [reflexivity|].
  cbn [map]; nl_case c E.
  destruct (Ascii.eqb c ":"%char); [|reflexivity].
  rewrite skip_ws_nl, pv_nl.
  destruct (pv (skip_ws r1)) as [[v r2]|]; [|reflexivity]; cbn [nl_rest].
  rewrite skip_ws_nl; destruct (skip_ws r2) as [|d r3]; [reflexivity|].
  cbn [map]; nl_case d E'.
  destruct (Ascii.eqb d "}"%char); [reflexivity|].
  destruct (Ascii.eqb d ","%char); [|reflexivity].
  rewrite skip_ws_nl; destruct (skip_ws r3) as [|e r4]; [reflexivity|].
  cbn [map]; nl_case e E''.
  destruct (Ascii.eqb e c_quote); [apply IH|].
  destruct (tc && Ascii.eqb e "}"%char); reflexivity.
Qed.

End NewlineContainers.

Lemma parse_value_nl tc f s :
  parse_value tc f (map universal_nl s) = nl_rest (parse_value tc f s).
Proof.
  revert s; induction f as [|f IH]; intros s; [reflexivity|].
  destruct s as [|c s1]; [reflexivity|].
  cbn [map]; nl_case c E.
  cbn [parse_value].
  destruct (Ascii.eqb c c_quote).
  { rewrite scan_chars_nl; destruct (scan_chars s1 []) as [[str r]|]; reflexivity. }
  destruct (Ascii.eqb c "{"%char).
  { rewrite skip_ws_nl; destruct (skip_ws s1) as [|d s3]; [reflexivity|].
    cbn [map]; nl_case d E'.
    destruct (Ascii.eqb d "}"%char); [reflexivity|].
    destruct (Ascii.eqb d c_quote); [|reflexivity].
    apply obj_loop_nl, IH. }
  destruct (Ascii.eqb c "["%char).
  { rewrite skip_ws_nl, peek_eq_nl by discriminate.
    destruct (peek_eq "]"%char (skip_ws s1)); [rewrite tl_nl; reflexivity|].
    apply arr_loop_nl, IH. }
  replace (c :: map universal_nl s1) with (map universal_nl (c :: s1))
    by (simpl; rewrite E; reflexivity).
  apply scan_scalar_nl.
Qed.

Lemma json_parse_nl tc s : json_parse tc (map universal_nl s) = json_parse tc s.
Proof.
  unfold json_parse; rewrite length_map, skip_ws_nl, parse_value_nl.
  destruct (parse_value tc (S (List.length s)) (skip_ws s)) as [[v r]|]; [|reflexivity].
  cbn [nl_rest]; rewrite skip_ws_nl; destruct (skip_ws r); reflexivity.
Qed.

(** What [json.loads] accepts, the lenient parser accepts with the same
    value. *)
Section StrictLenient.

Variable pv1 pv2 : payload -> option (jv * payload).
Hypothesis pv12 : forall s x, pv1 s = Some x -> pv2 s = Some x.
Hypothesis pv1_close : forall s, pv1 ("]"%char :: s) = None.

Lemma arr_loop_strict_lenient g acc s x :
  arr_loop false pv1 g acc s = Some x -> arr_loop true pv2 g acc s = Some x.
Proof.
  revert acc s; induction g as [|g IH]; intros acc s H; [discriminate|].
  cbn [arr_loop] in *.
  destruct (pv1 s) as [[v r]|] eqn:P; [|discriminate]; rewrite (pv12 _ _ P).
  destruct (skip_ws r) as [|c r']; [discriminate|].
  destruct (Ascii.eqb c "]"%char); [exact H|].
  destruct (Ascii.eqb c ","%char); [|discriminate].
  simpl andb in *.
  destruct (peek_eq "]"%char (skip_ws r')) eqn:Pk; [|apply IH, H].
  destruct (skip_ws r') as [|d r'']; [discriminate|].
  simpl in Pk; apply Ascii.eqb_eq in Pk; subst d.
  destruct g; cbn [arr_loop] in H; [discriminate|]; rewrite pv1_close in H; discriminate.
Qed.

Lemma obj_loop_strict_lenient g acc s x :
  obj_loop false pv1 g acc s = Some x -> obj_loop true pv2 g acc s = Some x.
Proof.
  revert acc s; induction g as [|g IH]; intros acc s H; [discriminate|].
  cbn [obj_loop] in *.
  destruct (scan_chars s []) as [[k r]|]; [|discriminate].
  destruct (skip_ws r) as [|c r1]; [discriminate|].
  destruct (Ascii.eqb c ":"%char); [|discriminate].
  destruct (pv1 (skip_ws r1)) as [[v r2]|] eqn:P; [|discriminate]; rewrite (pv12 _ _ P).
  destruct (skip_ws r2) as [|d r3]; [discriminate|].
  destruct (Ascii.eqb d "}"%char); [exact H|].
  destruct (Ascii.eqb d ","%char); [|discriminate].
  destruct (skip_ws r3) as [|e r4]; [discriminate|].
  destruct (Ascii.eqb e c_quote); [apply IH, H|discriminate].
Qed.

End StrictLenient.

Lemma parse_value_strict_lenient f s x :
  parse_value false f s = Some x -> parse_value true f s = Some x.
Proof.
  revert s x; induction f as [|f IH]; intros s x H; [discriminate|].
  destruct s as [|c s1]; [discriminate|].
  cbn [parse_value] in *.
  destruct (Ascii.eqb c c_quote); [exact H|].
  destruct (Ascii.eqb c "{"%char).
  - destruct (skip_ws s1) as [|d s3]; [discriminate|].
    destruct (Ascii.eqb d "}"%char); [exact H|].
    destruct (Ascii.eqb d c_quote); [|discriminate].
    exact (obj_loop_strict_lenient _ _ IH _ _ _ _ H).
  - destruct (Ascii.eqb c "["%char); [|exact H].
    destruct (peek_eq "]"%char (skip_ws s1)); [exact H|].
    refine (arr_loop_strict_lenient _ _ IH _ _ _ _ _ H).
    intros s; destruct f; reflexivity.
Qed.

Lemma json_loads_lenient s v : json_loads s = Some v -> json_parse true s = Some v.
Proof.
  unfold json_loads, json_parse.
  destruct (parse_value false (S (List.length s)) (skip_ws s)) as [[v0 r]|] eqn:P; [|discriminate].
  rewrite (parse_value_strict_lenient _ _ _ P); exact (fun H => H).
Qed.

(** X17. [generate_slide] saves the model's raw reply to [response.txt] and
    parses it after the trailing-comma normalisation; [regenerate_slide]
    reads that file back and parses it as it is, without the normalisation.
    So a reply [regenerate_slide] can load is one [generate_slide] built
    slides from, but not the other way round. *)
Theorem regenerate_reads_raw_reply model_name api_key reply :
  truthy model_name = true -> truthy api_key = true ->
  exists file,
    fst (generate_slide model_name api_key reply) = Some file /\
    regenerate_slide file = json_loads reply /\
    (forall data, json_loads reply = Some data ->
       exists data', snd (generate_slide model_name api_key reply) = GenBuild data').
Proof.
  intros Hm Hk; unfold generate_slide; rewrite Hm, Hk; cbn [negb].
  unfold summarise_document.
  exists (write_text reply); split; [reflexivity|split].
  - unfold regenerate_slide, json_loads; rewrite read_write_text; apply json_parse_nl.
  - intros data Hd; apply json_loads_lenient in Hd.
    destruct (lenient_parse_normalised _ _ Hd) as [v' E].
    exists v'; cbn [snd]; rewrite E; reflexivity.
Qed.

(* ------------------------------------------------------------------ *)
(** ** Instances *)

Lemma fill_8_zonetexte_6_shared_witness :
  text_target (cached [mkShape "Titre 1" (KText "T"); mkShape "ZoneTexte 6" (KText "z")])
    "ZoneTexte 6" = Some 1 /\
  text_at (fs_slide (snd (run_fill (fill_slide_type_8 "T" [("summary_title_2", "S2")])
                            [mkShape "Titre 1" (KText "T"); mkShape "ZoneTexte 6" (KText "z")]))) 1
  = Some "S2".
Proof.
  split; [vm_compute; reflexivity|].
  apply (fill_8_zonetexte_6_shared "T" [("summary_title_2", "S2")]
           [mkShape "Titre 1" (KText "T"); mkShape "ZoneTexte 6" (KText "z")] 1).
  vm_compute; reflexivity.
Defined.

Lemma fill_11_zonetexte_32_shared_witness :
  text_target (cached [mkShape "ZoneTexte 32" (KText "z")]) "ZoneTexte 32" = Some 0 /\
  text_at (fs_slide (snd (run_fill (fill_slide_type_11 "T"
                                      [("consequence_1", "C1"); ("consequence_2", "C2")])
                            [mkShape "ZoneTexte 32" (KText "z")]))) 0
  = Some "C2".
Proof.
  split; [vm_compute; reflexivity|].
  apply (fill_11_zonetexte_32_shared "T" [("consequence_1", "C1"); ("consequence_2", "C2")]
           [mkShape "ZoneTexte 32" (KText "z")] 0).
  vm_compute; reflexivity.
Defined.

Lemma fill_81_fifth_box_repeats_step_4_witness :
  text_target (cached tpl81) "Rectangle 38" = Some 4 /\
  text_target (cached tpl81) "Rectangle 39" = Some 5 /\
  text_at (fs_slide (snd (run_fill (fill_slide_type_81 "T" [("step_4", "S4")]) tpl81))) 5
  = Some (step_msg "step_4" "description_4" [("step_4", "S4")]).
Proof.
  split; [vm_compute; reflexivity|split; [vm_compute; reflexivity|]].
  apply (fill_81_fifth_box_repeats_step_4 "T" [("step_4", "S4")] tpl81 4 5);
    vm_compute; reflexivity.
Defined.

Lemma fill_21_role_5_reads_rol5_4_witness :
  text_target (cached [mkShape "Rectangle 19-5" (KText "z")]) "Rectangle 19-5" = Some 0 /\
  fst (run_fill (fill_slide_type_21 "T" [("role_5", "R5")]) [mkShape "Rectangle 19-5" (KText "z")])
  = Err (KeyError "rol5_4").
Proof.
  split; [vm_compute; reflexivity|].
  apply (fill_21_role_5_reads_rol5_4 "T" [("role_5", "R5")]
           [mkShape "Rectangle 19-5" (KText "z")] 0 "R5"); reflexivity.
Defined.

Lemma fill_22_title_4_guarded_by_title4_witness :
  text_target (cached [mkShape "Rectangle 20" (KText "z")]) "Rectangle 20" = Some 0 /\
  fst (run_fill (fill_slide_type_22 "T" [("title_4", "Lead"); ("role_4", "CFO")])
         [mkShape "Rectangle 20" (KText "z")]) = Ok tt /\
  text_at (fs_slide (snd (run_fill (fill_slide_type_22 "T" [("title_4", "Lead"); ("role_4", "CFO")])
                            [mkShape "Rectangle 20" (KText "z")]))) 0
  = Some (add_if_in "expertise_4" [("title_4", "Lead"); ("role_4", "CFO")] "" ""
            (add_if_in "role_4" [("title_4", "Lead"); ("role_4", "CFO")] "" "" "")).
Proof.
  split; [vm_compute; reflexivity|].
  apply (fill_22_title_4_guarded_by_title4 "T" [("title_4", "Lead"); ("role_4", "CFO")]
           [mkShape "Rectangle 20" (KText "z")] 0).
  vm_compute; reflexivity.
Defined.

Lemma cause_2_slot_reads_cause_1_witness :
  In fill_slide_type_67 [fill_slide_type_66; fill_slide_type_67; fill_slide_type_68] /\
  text_target (cached [mkShape "Content Placeholder 4-2c" (KText "z")])
    "Content Placeholder 4-2c" = Some 0 /\
  fst (run_fill (fill_slide_type_67 "T" [("cause_2", "C2")])
         [mkShape "Content Placeholder 4-2c" (KText "z")]) = Err (KeyError "cause_1").
Proof.
  split; [right; left; reflexivity|split; [vm_compute; reflexivity|]].
  apply (cause_2_slot_reads_cause_1 fill_slide_type_67 "T" [("cause_2", "C2")]
           [mkShape "Content Placeholder 4-2c" (KText "z")] 0 "C2").
  - right; left; reflexivity.
  - vm_compute; reflexivity.
  - reflexivity.
Defined.

Lemma fill_152_second_box_reads_success_key_1_witness :
  text_target (cached [mkShape "Rectangle 25" (KText "z")]) "Rectangle 25" = Some 0 /\
  text_at (fs_slide (snd (run_fill (fill_slide_type_152 "T"
             [("success_key_1", "K1"); ("description_1", "D1");
              ("success_key_2", "K2"); ("description_2", "D2")])
             [mkShape "Rectangle 25" (KText "z")]))) 0
  = Some ("K1" ++ nl ++ "D2").
Proof.
  split; [vm_compute; reflexivity|].
  apply (fill_152_second_box_reads_success_key_1 "T"
           [("success_key_1", "K1"); ("description_1", "D1");
            ("success_key_2", "K2"); ("description_2", "D2")]
           [mkShape "Rectangle 25" (KText "z")] 0 "K2" "D2");
    [vm_compute|..]; reflexivity.
Defined.

Lemma set_table_cell_in_range_witness :
  _get_shape (fs_cache (cached [mkShape "Table 1" (KTable [["a"; "b"]; ["c"; "d"]])])) "Table 1"
  = Some 0 /\
  snd (_set_table_cell "Table 1" 3 1 "X"
         (cached [mkShape "Table 1" (KTable [["a"; "b"]; ["c"; "d"]])]))
  = cached [mkShape "Table 1" (KTable [["a"; "b"]; ["c"; "d"]])].
Proof.
  split; [vm_compute; reflexivity|].
  apply (set_table_cell_in_range
           (cached [mkShape "Table 1" (KTable [["a"; "b"]; ["c"; "d"]])])
           "Table 1" 0 "Table 1" [["a"; "b"]; ["c"; "d"]] 3 1 "X");
    vm_compute; reflexivity.
Defined.

Lemma set_bullets_splitlines_witness :
  text_target (cached [mkShape "Content 1" (KText "")]) "Content 1" = Some 0 /\
  exists t, text_at (fs_slide (snd (_set_bullets "Content 1" ["a"; "b"]
                                     (cached [mkShape "Content 1" (KText "")])))) 0 = Some t
            /\ splitlines t = ["a"; "b"].
Proof.
  split; [vm_compute; reflexivity|].
  apply (set_bullets_splitlines (cached [mkShape "Content 1" (KText "")]) "Content 1" 0 ["a"; "b"]);
    [vm_compute; reflexivity | reflexivity | discriminate].
Defined.

Lemma copy_slides_failure_unsaved_witness :
  copy_slides_indices [[mkShape "A" (KText "a")]; [mkShape "B" (KText "b")]] [1; 0; 5; 0]%Z
    (mkHost (Some []) None [])
  = (Err (HostError "Slides"),
     mkHost (Some []) (Some [[mkShape "B" (KText "b")]; [mkShape "A" (KText "a")]])
            [EvCopy 1; EvCopy 0]).
Proof.
  apply (copy_slides_failure_unsaved [[mkShape "A" (KText "a")]; [mkShape "B" (KText "b")]]
           [1; 0]%Z 5%Z [0]%Z (mkHost (Some []) None []) []); reflexivity.
Defined.

Lemma copy_slide_result_witness :
  copy_slide [[mkShape "A" (KText "a")]] 0%Z (mkHost (Some [[]]) None [])
  = (Ok 2, mkHost (Some [[]; [mkShape "A" (KText "a")]]) (Some [[]; [mkShape "A" (KText "a")]])
                  [EvCopy 0; EvSave]).
Proof.
  apply (copy_slide_result [[mkShape "A" (KText "a")]] 0%Z (mkHost (Some [[]]) None []) [[]]);
    reflexivity.
Defined.

Lemma close_discards_unsaved_edits_witness :
  pres (snd ((close_output ;; open_output) (mkHost (Some []) (Some [[]]) []))) = Some [] /\
  pres (snd ((save_output ;; close_output ;; open_output) (mkHost (Some []) (Some [[]]) [])))
  = Some [[]].
Proof.
  apply (close_discards_unsaved_edits (mkHost (Some []) (Some [[]]) []) [[]] []); reflexivity.
Defined.

Lemma regenerate_reads_raw_reply_witness :
  exists file,
    fst (generate_slide (Some "gpt-4o") (Some "sk") (jlit "{'a': [1,]}")) = Some file /\
    regenerate_slide file = json_loads (jlit "{'a': [1,]}") /\
    (forall data, json_loads (jlit "{'a': [1,]}") = Some data ->
       exists data', snd (generate_slide (Some "gpt-4o") (Some "sk") (jlit "{'a': [1,]}"))
                     = GenBuild data').
Proof.
  apply regenerate_reads_raw_reply; reflexivity.
Defined.

(* ------------------------------------------------------------------ *)
(** ** Omitted slots: plain, composite and shared shapes *)


